(** * Kafka "Rolled new log segment" analyzer: embedding and verified properties

    A shallow embedding of [kafka-segment-roll-ms.py]: the line parser
    ([parse_log]), the severity classifier ([style_status]) and the
    computations that [create_excel] performs before it writes cells (the
    duration ranking, the per-partition summary, the dashboard percentiles
    and the duration histogram).  Cell styling, column widths and charts are
    presentation and are left out. *)

From Stdlib Require Import ZArith List Bool Lia String Ascii.
From Stdlib Require Import Sorting.Sorted Sorting.Permutation.
Import ListNotations.
Local Open Scope Z_scope.

(* ================================================================== *)
(** * Part I: the embedding *)
(* ================================================================== *)

(** ** Python exceptions as an error monad *)

Inductive exn : Type :=
| ZeroDivisionError
| OverflowError
| IndexError
| ValueError
| OSError.

Inductive result (A : Type) : Type :=
| Ok (a : A)
| Raise (e : exn).

Arguments Ok {A} a.
Arguments Raise {A} e.

Definition bind {A B : Type} (r : result A) (k : A -> result B) : result B :=
  match r with
  | Ok a => k a
  | Raise e => Raise e
  end.

Notation "'do' x <- r ; k" := (bind r (fun x => k))
  (at level 10, x name, r at level 100, k at level 200).

(** [[f(x) for x in l]] where [f] may raise: the first exception aborts. *)
Fixpoint mapM {A B : Type} (f : A -> result B) (l : list A) : result (list B) :=
  match l with
  | [] => Ok []
  | x :: xs => do y <- f x; do ys <- mapM f xs; Ok (y :: ys)
  end.

(** [l[i]] on a Python list: a negative index counts from the end, an index
    outside [-len, len) raises [IndexError]. *)
Definition py_index {A : Type} (l : list A) (i : Z) : result A :=
  let n := Z.of_nat (List.length l) in
  let j := if i <? 0 then i + n else i in
  if (j <? 0) || (n <=? j) then Raise IndexError
  else match nth_error l (Z.to_nat j) with
       | Some x => Ok x
       | None => Raise IndexError
       end.

(** ** Python floats (IEEE 754 binary64), finite values

    A float is a pair [(mant, expo)] of value [mant * 2^expo].  The
    representation is not normalised; values are compared with [feqb] or
    through the fraction [num / den].  Every operation returns the correctly
    rounded result (round to nearest, ties to even, 53 significant bits).

    The exponent of the representation is unbounded.  The one operation of
    the program whose result can leave the range of binary64 is the division
    of two integers (the sum of the durations by a count or by 1000): it
    checks the range and raises [OverflowError].  The products of the program
    have a count or a length of a list as one factor and a number of at most
    100 as the other, and its non-zero quotients have a count, a length or
    1000 as divisor; a Python list has fewer than [2^63] items, so these
    values are nowhere near the subnormal range, which is not modelled.
    Products, [float(n)] and truncation are only applied to non-negative
    numbers and are written for them; quotients and [round] carry a sign. *)

Module Dbl.

Record t : Type := mk { mant : Z; expo : Z }.

Definition zero : t := mk 0 0.

(** The integer [a] rounded to 53 significant bits: [(m, s)] with
    [m * 2^s] the nearest such value, ties to the even [m]. *)
Definition round53 (a : Z) : Z * Z :=
  let s := Z.log2 a + 1 - 53 in
  if s <=? 0 then (a, 0)
  else
    let q := a / 2 ^ s in
    let r := a mod 2 ^ s in
    let h := 2 ^ (s - 1) in
    (if (h <? r) || ((r =? h) && Z.odd q) then q + 1 else q, s).

(** [float(n)] for an integer [0 <= n]. *)
Definition of_int (n : Z) : t :=
  let '(m, s) := round53 n in mk m s.

(** [x * y] *)
Definition mul (x y : t) : t :=
  let '(m, s) := round53 (mant x * mant y) in
  mk m (s + expo x + expo y).

(** The quotient [p / q] of two integers [0 <= p], [0 < q], correctly
    rounded: the quotient is taken with enough extra bits and a sticky bit
    for what the integer division dropped, then rounded once. *)
Definition round_ratio (p q : Z) : t :=
  if p =? 0 then zero
  else
    let k := 56 + Z.log2 q in
    let num := p * 2 ^ k in
    let sticky := if num mod q =? 0 then 0 else 1 in
    let '(m, s) := round53 (2 * (num / q) + sticky) in
    mk m (s - 1 - k).

(** [- x] *)
Definition neg (x : t) : t := mk (- mant x) (expo x).

(** The quotient of two integers, [b <> 0], correctly rounded: the rounded
    quotient of the magnitudes with the sign of the exact quotient. *)
Definition quotient (a b : Z) : t :=
  let x := round_ratio (Z.abs a) (Z.abs b) in
  if xorb (a <? 0) (b <? 0) then neg x else x.

(** The exact value of [x] as the fraction [num x / den x]. *)
Definition num (x : t) : Z := mant x * 2 ^ Z.max 0 (expo x).
Definition den (x : t) : Z := 2 ^ Z.max 0 (- expo x).

(** The largest binary64 number is [(2^53 - 1) * 2^971]: a correctly
    rounded value of magnitude [2^1024] or more is out of range. *)
Definition overflows (x : t) : bool := 2 ^ 1024 * den x <=? Z.abs (num x).

(** [a / b] on two integers ("true division"): the correctly rounded
    quotient; a zero divisor raises [ZeroDivisionError], a quotient too
    large for a float raises [OverflowError]. *)
Definition int_truediv (a b : Z) : result t :=
  if b =? 0 then Raise ZeroDivisionError
  else
    let x := quotient a b in
    if overflows x then Raise OverflowError else Ok x.

(** [int(x)]: truncation towards zero (the floor, as [0 <= x]). *)
Definition trunc (x : t) : Z := Z.shiftl (mant x) (expo x).

(** [round(x)]: the nearest integer, ties to even. *)
Definition round_int (x : t) : Z :=
  if 0 <=? expo x then mant x * 2 ^ expo x
  else
    let d := 2 ^ (- expo x) in
    let q := mant x / d in
    let r := mant x mod d in
    if (d <? 2 * r) || ((2 * r =? d) && Z.odd q) then q + 1 else q.

(** [round(x, ndigits)] with [p = 10^ndigits]: the exact value of [x]
    rounded to [ndigits] decimal digits (ties to the even digit) and that
    decimal number, [n / p], converted back to the nearest float. *)
Definition round_to (p : Z) (x : t) : t :=
  let n := round_int (mk (p * mant x) (expo x)) in
  if n <? 0 then neg (round_ratio (- n) p) else round_ratio n p.

(** [round(x, 1)] and [round(x, 2)] *)
Definition round1 (x : t) : t := round_to 10 x.
Definition round2 (x : t) : t := round_to 100 x.

(** Comparison by value. *)
Definition feqb (x y : t) : bool :=
  let e := Z.min (expo x) (expo y) in
  mant x * 2 ^ (expo x - e) =? mant y * 2 ^ (expo y - e).

(** The literals of the source: a decimal literal denotes the float
    nearest to it. *)
Definition lit_0_95 : t := round_ratio 95 100.
Definition lit_0_99 : t := round_ratio 99 100.

End Dbl.


(** ** Text

    A [str] is a list of Unicode code points. *)

Definition char : Type := N.
Definition text : Type := list char.

Definition txt (s : string) : text :=
  List.map N_of_ascii (list_ascii_of_string s).

Fixpoint text_eqb (a b : text) : bool :=
  match a, b with
  | [], [] => true
  | x :: a', y :: b' => N.eqb x y && text_eqb a' b'
  | _, _ => false
  end.

(** ** Parsed entries

    The dictionary that [parse_log] appends for a matched line.  Its
    ["date"] and ["time"] items are renderings of ["timestamp"] and are
    not kept apart. *)

Record datetime : Type := mkDatetime {
  dt_year : Z; dt_month : Z; dt_day : Z;
  dt_hour : Z; dt_minute : Z; dt_second : Z;
  dt_microsecond : Z
}.

Record entry : Type := mkEntry {
  timestamp : datetime;
  partition : text;
  directory : text;
  offset : Z;
  duration_ms : Z
}.

(** ** The Python runtime

    What [parse_log] takes from the interpreter and its environment rather
    than from the source: the Unicode character tables outside ASCII, the
    limit of [int] on the number of digits, and the text layer of [open],
    which decodes the bytes with the locale's codec under [errors="ignore"]
    (undecodable bytes are left out) and cuts the text into lines. *)

Record runtime : Type := mkRuntime {
  uni_space : N -> bool;           (* [str.isspace], code points from 128 *)
  uni_decimal : N -> option Z;     (* value of a decimal digit, from 128 *)
  uni_alnum : N -> bool;           (* [str.isalnum], code points from 128 *)
  int_max_str_digits : nat;        (* [sys.get_int_max_str_digits()], 0: none *)
  decode_lines : list Byte.byte -> list text
}.

Definition chr (a : ascii) : char := N_of_ascii a.

Definition in_range (lo hi : ascii) (c : char) : bool :=
  (chr lo <=? c)%N && (c <=? chr hi)%N.

Definition is_char (a : ascii) (c : char) : bool := N.eqb c (chr a).

Section Classes.
Variable rt : runtime.

(** [\s] *)
Definition is_space (c : char) : bool :=
  if (c <? 128)%N
  then ((9 <=? c)%N && (c <=? 13)%N) || ((28 <=? c)%N && (c <=? 32)%N)
  else uni_space rt c.

(** [\d] *)
Definition is_digit (c : char) : bool :=
  if (c <? 128)%N then in_range "0" "9" c
  else match uni_decimal rt c with Some _ => true | None => false end.

(** [\w] *)
Definition is_word (c : char) : bool :=
  if (c <? 128)%N
  then in_range "a" "z" c || in_range "A" "Z" c || in_range "0" "9" c
       || is_char "_" c
  else uni_alnum rt c.

Definition digit_value (c : char) : Z :=
  if (c <? 128)%N then Z.of_N c - 48
  else match uni_decimal rt c with Some v => v | None => 0 end.

(** [s.strip()] *)
Definition lstrip (s : text) : text :=
  (fix go (s : text) : text :=
     match s with
     | c :: s' => if is_space c then go s' else s
     | [] => []
     end) s.

Definition strip (s : text) : text := rev (lstrip (rev (lstrip s))).

(** [int(s)] on the texts that reach it here: decimal digits, possibly
    with white space around them. *)
Definition py_int (s : text) : result Z :=
  let d := strip s in
  match d with
  | [] => Raise ValueError
  | _ =>
    if negb (forallb is_digit d) then Raise ValueError
    else if (0 <? int_max_str_digits rt)%nat
            && (int_max_str_digits rt <? List.length d)%nat
    then Raise ValueError
    else Ok (fold_left (fun acc c => 10 * acc + digit_value c) d 0)
  end.
End Classes.

(** ** Regular expressions

    The backtracking matcher of [re] on the constructs that the two
    patterns of this program use: single characters and classes, greedy and
    lazy repetition of a class, sequence, alternation and capture groups.
    A repetition tries its counts in the order the engine does (a greedy one
    from the longest, a lazy one from the shortest) and the first overall
    success is the match.  The captures are collected in the order in which
    the groups close, which is their number when none is nested. *)

Module Re.

Inductive t : Type :=
| Eps
| Chr (p : char -> bool)
| Rep (p : char -> bool) (lo : nat) (hi : option nat) (greedy : bool)
| Seq (r1 r2 : t)
| Alt (r1 r2 : t)
| Grp (r : t).

Definition under (hi : option nat) (n : nat) : bool :=
  match hi with
  | None => true
  | Some h => (n <? h)%nat
  end.

Fixpoint rep_greedy {R : Type} (p : char -> bool) (lo : nat) (hi : option nat)
    (n : nat) (s : text) (k : text -> option R) : option R :=
  let stop := if (lo <=? n)%nat then k s else None in
  match s with
  | c :: s' =>
      if p c && under hi n then
        match rep_greedy p lo hi (S n) s' k with
        | Some x => Some x
        | None => stop
        end
      else stop
  | [] => stop
  end.

Fixpoint rep_lazy {R : Type} (p : char -> bool) (lo : nat) (hi : option nat)
    (n : nat) (s : text) (k : text -> option R) : option R :=
  match s with
  | c :: s' =>
      let more := if p c && under hi n then rep_lazy p lo hi (S n) s' k
                  else None in
      if (lo <=? n)%nat then
        match k s with
        | Some x => Some x
        | None => more
        end
      else more
  | [] => if (lo <=? n)%nat then k s else None
  end.

Fixpoint run {R : Type} (r : t) (s : text) (caps : list text)
    (k : text -> list text -> option R) : option R :=
  match r with
  | Eps => k s caps
  | Chr p =>
      match s with
      | c :: s' => if p c then k s' caps else None
      | [] => None
      end
  | Rep p lo hi greedy =>
      if greedy then rep_greedy p lo hi 0 s (fun s' => k s' caps)
      else rep_lazy p lo hi 0 s (fun s' => k s' caps)
  | Seq r1 r2 => run r1 s caps (fun s' caps' => run r2 s' caps' k)
  | Alt r1 r2 =>
      match run r1 s caps k with
      | Some x => Some x
      | None => run r2 s caps k
      end
  | Grp r1 =>
      run r1 s caps
          (fun s' caps' =>
             k s' (caps' ++ [firstn (List.length s - List.length s') s]))
  end.

(** [pattern.match(s)]: the groups and the text after the match. *)
Definition match_ (r : t) (s : text) : option (list text * text) :=
  run r s [] (fun s' caps => Some (caps, s')).

(** [pattern.search(s)]: the first position from which a match exists. *)
Fixpoint search (r : t) (s : text) : option (list text) :=
  match run r s [] (fun _ caps => Some caps) with
  | Some caps => Some caps
  | None =>
      match s with
      | [] => None
      | _ :: s' => search r s'
      end
  end.

Definition seq (l : list t) : t := fold_right Seq Eps l.

Definition alt (r : t) (l : list t) : t := fold_left Alt l r.

(** A literal string. *)
Definition lit (s : string) : t :=
  seq (List.map (fun a => Chr (is_char a)) (list_ascii_of_string s)).

Definition rng (lo hi : ascii) : t := Chr (in_range lo hi).

(** [x+], [x*], [x+?] and [x{n}] on a class. *)
Definition plus (p : char -> bool) : t := Rep p 1 None true.
Definition star (p : char -> bool) : t := Rep p 0 None true.
Definition plus_lazy (p : char -> bool) : t := Rep p 1 None false.
Definition times (n : nat) (p : char -> bool) : t := Rep p n (Some n) true.

End Re.

(** [needle in line] *)
Fixpoint starts_with (needle s : text) : bool :=
  match needle, s with
  | [], _ => true
  | a :: needle', b :: s' => N.eqb a b && starts_with needle' s'
  | _ :: _, [] => false
  end.

Fixpoint contains (needle s : text) : bool :=
  starts_with needle s ||
  match s with
  | [] => false
  | _ :: s' => contains needle s'
  end.

Section Parser.
Variable rt : runtime.

Definition LINE_PATTERN : Re.t :=
  Re.seq
    [ Re.lit "[";
      Re.Grp (Re.seq [ Re.times 4 (is_digit rt); Re.lit "-";
                       Re.times 2 (is_digit rt); Re.lit "-";
                       Re.times 2 (is_digit rt); Re.plus (is_space rt);
                       Re.times 2 (is_digit rt); Re.lit ":";
                       Re.times 2 (is_digit rt); Re.lit ":";
                       Re.times 2 (is_digit rt); Re.lit ",";
                       Re.plus (is_digit rt) ]);
      Re.lit "]";
      Re.plus (is_space rt); Re.lit "INFO"; Re.plus (is_space rt);
      Re.lit "[MergedLog"; Re.plus (is_space rt); Re.lit "partition=";
      Re.Grp (Re.plus_lazy (fun c => is_word rt c || is_char "." c
                                     || is_char "-" c));
      Re.lit ",";
      Re.star (is_space rt); Re.lit "dir=";
      Re.Grp (Re.plus (fun c => negb (is_char "]" c)));
      Re.lit "]";
      Re.plus (is_space rt); Re.lit "Rolled new log segment at offset";
      Re.plus (is_space rt);
      Re.Grp (Re.plus (is_digit rt));
      Re.plus (is_space rt); Re.lit "in"; Re.plus (is_space rt);
      Re.Grp (Re.plus (is_digit rt));
      Re.plus (is_space rt); Re.lit "ms"; Re.lit "." ].

(** *** [datetime.strptime(ts_str, "%Y-%m-%d %H:%M:%S,%f")]

    The standard library turns the format into the regular expression

    [(?P<Y>\d\d\d\d)-(?P<m>1[0-2]|0[1-9]|[1-9])-(?P<d>3[0-1]|[1-2]\d|0[1-9]|[1-9]| [1-9])\s+(?P<H>2[0-3]|[0-1]\d|\d):(?P<M>[0-5]\d|\d):(?P<S>6[0-1]|[0-5]\d|\d),(?P<f>[0-9]{1,6})]

    matches it at the start of the string, demands that nothing is left
    over, converts the groups and hands them to the [datetime]
    constructor, which checks the ranges.  Every failure is a
    [ValueError]. *)

Definition digit : Re.t := Re.Chr (is_digit rt).

Definition FORMAT_REGEX : Re.t :=
  Re.seq
    [ Re.Grp (Re.seq [digit; digit; digit; digit]);
      Re.lit "-";
      Re.Grp (Re.alt (Re.Seq (Re.lit "1") (Re.rng "0" "2"))
                     [ Re.Seq (Re.lit "0") (Re.rng "1" "9"); Re.rng "1" "9" ]);
      Re.lit "-";
      Re.Grp (Re.alt (Re.Seq (Re.lit "3") (Re.rng "0" "1"))
                     [ Re.Seq (Re.rng "1" "2") digit;
                       Re.Seq (Re.lit "0") (Re.rng "1" "9");
                       Re.rng "1" "9";
                       Re.Seq (Re.lit " ") (Re.rng "1" "9") ]);
      Re.plus (is_space rt);
      Re.Grp (Re.alt (Re.Seq (Re.lit "2") (Re.rng "0" "3"))
                     [ Re.Seq (Re.rng "0" "1") digit; digit ]);
      Re.lit ":";
      Re.Grp (Re.alt (Re.Seq (Re.rng "0" "5") digit) [ digit ]);
      Re.lit ":";
      Re.Grp (Re.alt (Re.Seq (Re.lit "6") (Re.rng "0" "1"))
                     [ Re.Seq (Re.rng "0" "5") digit; digit ]);
      Re.lit ",";
      Re.Grp (Re.Rep (in_range "0" "9") 1 (Some 6%nat) true) ].

Definition is_leap (year : Z) : bool :=
  (year mod 4 =? 0) && (negb (year mod 100 =? 0) || (year mod 400 =? 0)).

Definition days_in_month (year month : Z) : Z :=
  if month =? 2 then (if is_leap year then 29 else 28)
  else if (month =? 4) || (month =? 6) || (month =? 9) || (month =? 11) then 30
  else 31.

(** [datetime(year, month, day, hour, minute, second, microsecond)] *)
Definition datetime_new (year month day hour minute second us : Z)
    : result datetime :=
  if (1 <=? year) && (year <=? 9999)
     && (1 <=? month) && (month <=? 12)
     && (1 <=? day) && (day <=? days_in_month year month)
     && (0 <=? hour) && (hour <=? 23)
     && (0 <=? minute) && (minute <=? 59)
     && (0 <=? second) && (second <=? 59)
     && (0 <=? us) && (us <=? 999999)
  then Ok (mkDatetime year month day hour minute second us)
  else Raise ValueError.

Definition strptime (s : text) : result datetime :=
  match Re.match_ FORMAT_REGEX s with
  | Some ([gY; gm; gd; gH; gM; gS; gf], []) =>
      do year <- py_int rt gY;
      do month <- py_int rt gm;
      do day <- py_int rt gd;
      do hour <- py_int rt gH;
      do minute <- py_int rt gM;
      do second <- py_int rt gS;
      do fraction <- py_int rt (gf ++ repeat (chr "0") (6 - List.length gf));
      datetime_new year month day hour minute second fraction
  | _ => Raise ValueError   (* no match, or unconverted data remains *)
  end.

(** *** [parse_log] *)

Definition marker : text := txt "Rolled new log segment at".

(** The body of the loop for one line: no entry, one entry, or an
    exception. *)
Definition parse_line (line : text) : result (list entry) :=
  if negb (contains marker line) then Ok []
  else
    match Re.search LINE_PATTERN line with
    | Some [ts_str; partition; directory; offset; duration_ms] =>
        do ts <- strptime ts_str;
        do off <- py_int rt offset;
        do dur <- py_int rt duration_ms;
        Ok [mkEntry ts partition (strip rt directory) off dur]
    | _ => Ok []
    end.

Fixpoint parse_lines (lines : list text) : result (list entry) :=
  match lines with
  | [] => Ok []
  | line :: rest =>
      do es <- parse_line line;
      do es' <- parse_lines rest;
      Ok (es ++ es')
  end.

End Parser.

(** The file behind [filepath]: [open] raises [OSError] when it cannot be
    opened, else the bytes are read. *)
Inductive file : Type :=
| Unreadable
| Content (bytes : list Byte.byte).

Definition parse_log (rt : runtime) (f : file) : result (list entry) :=
  match f with
  | Unreadable => Raise OSError
  | Content bytes => parse_lines rt (decode_lines rt bytes)
  end.

(** ** [style_status]: the value written into the status cell *)

Inductive severity : Type := SLOW | MODERATE | OK.

Definition style_status (duration_ms : Z) : severity :=
  if 1000 <=? duration_ms then SLOW
  else if 100 <=? duration_ms then MODERATE
  else OK.

(** ** [sorted]

    Python's [sorted] is stable, also with [reverse=True]: elements whose
    keys are equal keep the order they had.  A stable sort's result is
    determined by that, so insertion sort stands for it: the head of the
    list goes in front of the first element it does not have to follow. *)

Section Sorted.
Context {A : Type}.
Variable reverse : bool.
Variable key : A -> Z.

(** [before a b]: key [a] may stand in front of key [b]. *)
Definition before (a b : Z) : bool :=
  if reverse then b <=? a else a <=? b.

Fixpoint insert (x : A) (l : list A) : list A :=
  match l with
  | [] => [x]
  | y :: ys => if before (key x) (key y) then x :: y :: ys
               else y :: insert x ys
  end.

Fixpoint stable_sort (l : list A) : list A :=
  match l with
  | [] => []
  | x :: xs => insert x (stable_sort xs)
  end.
End Sorted.

(** [sorted(l)] on integers. *)
Definition sorted (l : list Z) : list Z := stable_sort false (fun x => x) l.

(** [sorted(l, key=f, reverse=r)] with a key function that may raise: the
    keys are computed once, in list order, before anything is compared. *)
Definition sorted_by {A : Type} (key : A -> result Z) (reverse : bool)
    (l : list A) : result (list A) :=
  do ks <- mapM key l;
  Ok (List.map snd (stable_sort reverse fst (combine ks l))).

(** [max(l)] and [min(l)]: [ValueError] on an empty sequence. *)
Definition py_max (l : list Z) : result Z :=
  match l with
  | [] => Raise ValueError
  | x :: xs => Ok (fold_left Z.max xs x)
  end.

Definition py_min (l : list Z) : result Z :=
  match l with
  | [] => Raise ValueError
  | x :: xs => Ok (fold_left Z.min xs x)
  end.

Definition sum (l : list Z) : Z := fold_left Z.add l 0.

Definition len {A : Type} (l : list A) : Z := Z.of_nat (List.length l).

(** ** Sheet 1: all entries, highest duration first *)

Definition sorted_entries (entries : list entry) : list entry :=
  stable_sort true duration_ms entries.

(** ** Sheet 2: the partition summary

    [part_stats] is a [defaultdict]; a Python dictionary iterates in the
    order its keys were inserted, so it is an association list in which a
    new key goes to the end. *)

Record stats : Type := mkStats { durations : list Z; offsets : list Z }.

Fixpoint dict_append (k : text) (d o : Z) (ps : list (text * stats))
    : list (text * stats) :=
  match ps with
  | [] => [(k, mkStats [d] [o])]
  | (k', s) :: rest =>
      if text_eqb k' k
      then (k', mkStats (durations s ++ [d]) (offsets s ++ [o])) :: rest
      else (k', s) :: dict_append k d o rest
  end.

Definition part_stats (entries : list entry) : list (text * stats) :=
  fold_left (fun ps e => dict_append (partition e) (duration_ms e) (offset e) ps)
            entries [].

Definition sorted_parts (entries : list entry) : result (list (text * stats)) :=
  sorted_by (fun x => py_max (durations (snd x))) true (part_stats entries).

(** One row of the summary sheet. *)
Record part_row : Type := mkPartRow {
  pr_rank : Z;
  pr_partition : text;
  pr_count : Z;
  pr_max : Z;
  pr_min : Z;
  pr_avg : Dbl.t;
  pr_median : Z;
  pr_total : Z;
  pr_status : severity
}.

Definition part_row_of (i : Z) (x : text * stats) : result part_row :=
  let d := sorted (durations (snd x)) in
  let cnt := len d in
  do max_d <- py_max d;
  do min_d <- py_min d;
  do avg <- Dbl.int_truediv (sum d) cnt;
  do med <- py_index d (cnt / 2);
  Ok (mkPartRow (i + 1) (fst x) cnt max_d min_d (Dbl.round1 avg) med (sum d)
                (style_status max_d)).

Fixpoint rows_from {A B : Type} (f : Z -> A -> result B) (i : Z) (l : list A)
    : result (list B) :=
  match l with
  | [] => Ok []
  | x :: xs => do r <- f i x; do rs <- rows_from f (i + 1) xs; Ok (r :: rs)
  end.

Definition partition_summary (entries : list entry) : result (list part_row) :=
  do sp <- sorted_parts entries;
  rows_from part_row_of 0 sp.

(** ** Sheet 3: the dashboard *)

Definition p95_index (n : Z) : Z :=
  Dbl.trunc (Dbl.mul (Dbl.of_int n) Dbl.lit_0_95).

Definition p99_raw_index (n : Z) : Z :=
  Dbl.trunc (Dbl.mul (Dbl.of_int n) Dbl.lit_0_99).

Definition p99_index (n : Z) : Z := Z.min (p99_raw_index n) (n - 1).

Definition count_if (p : Z -> bool) (l : list Z) : Z := len (filter p l).

Record dashboard_stats : Type := mkDashboard {
  ds_total_events : Z;
  ds_unique_partitions : Z;
  ds_min : Z;
  ds_max : Z;
  ds_avg : Dbl.t;
  ds_median : Z;
  ds_p95 : Z;
  ds_p99 : Z;
  ds_total : Z;
  ds_slowest : entry;
  ds_ok : Z;
  ds_moderate : Z;
  ds_slow : Z;
  ds_total_sec : Dbl.t;    (* round(sum(all_d) / 1000, 2) *)
  ds_slowest_sec : Dbl.t   (* round(slowest["duration_ms"] / 1000, 2) *)
}.

(** The body of [if entries:]; [None] when the list is empty and the
    dashboard stays blank.  The list [stats] is built before any cell is
    written, so an exception in one of its items leaves the sheet without
    figures; the three divisions are the items that can raise.  The
    "Time Range" line only compares and formats timestamps and is left
    out. *)
Definition dashboard (entries : list entry) : result (option dashboard_stats) :=
  match entries with
  | [] => Ok None
  | _ =>
    let all_d := sorted (List.map duration_ms entries) in
    do p95 <- py_index all_d (p95_index (len all_d));
    do p99 <- py_index all_d (p99_index (len all_d));
    do slowest <- py_index (sorted_entries entries) 0;
    do mn <- py_min all_d;
    do mx <- py_max all_d;
    do avg <- Dbl.int_truediv (sum all_d) (len all_d);
    do med <- py_index all_d (len all_d / 2);
    do total_sec <- Dbl.int_truediv (sum all_d) 1000;
    do slowest_sec <- Dbl.int_truediv (duration_ms slowest) 1000;
    Ok (Some (mkDashboard (len entries) (len (part_stats entries))
                mn mx (Dbl.round1 avg) med p95 p99 (sum all_d) slowest
                (count_if (fun d => d <? 100) all_d)
                (count_if (fun d => (100 <=? d) && (d <? 1000)) all_d)
                (count_if (fun d => 1000 <=? d) all_d)
                (Dbl.round2 total_sec) (Dbl.round2 slowest_sec)))
  end.

(** ** Sheet 4: the duration distribution *)

(** A bucket [(label, lo, hi)]; [None] is [float('inf')]. *)
Definition buckets : list (string * Z * option Z) :=
  [ ("0-2 ms", 0, Some 2); ("3-5 ms", 3, Some 5); ("6-10 ms", 6, Some 10);
    ("11-50 ms", 11, Some 50); ("51-100 ms", 51, Some 100);
    ("101-500 ms", 101, Some 500); ("501-1000 ms", 501, Some 1000);
    ("1001-5000 ms", 1001, Some 5000); ("5000+ ms", 5001, None) ]%string.

(** [lo <= d <= hi] *)
Definition in_bucket (lo : Z) (hi : option Z) (d : Z) : bool :=
  (lo <=? d) && match hi with Some h => d <=? h | None => true end.

Definition bucket_counts (all_dur : list Z) : list (string * Z) :=
  List.map (fun b => match b with
                     | (lbl, lo, hi) => (lbl, count_if (in_bucket lo hi) all_dur)
                     end) buckets.

(** [max(c for _, c in bc) if bc else 1] *)
Definition max_count (bc : list (string * Z)) : result Z :=
  match bc with
  | [] => Ok 1
  | _ => py_max (List.map snd bc)
  end.

Record dist_row : Type := mkDistRow {
  dr_label : string;
  dr_count : Z;
  dr_percentage : Dbl.t;
  dr_visual : Z        (* the number of bar characters *)
}.

Definition dist_row_of (entries : list entry) (mx : Z) (b : string * Z)
    : result dist_row :=
  let '(label, count) := b in
  do pct <- match entries with
            | [] => Ok Dbl.zero
            | _ => do q <- Dbl.int_truediv count (len entries);
                   Ok (Dbl.mul q (Dbl.of_int 100))
            end;
  do q <- Dbl.int_truediv count mx;
  Ok (mkDistRow label count (Dbl.round1 pct)
                (Dbl.trunc (Dbl.mul q (Dbl.of_int 30)))).

Definition distribution (entries : list entry) : result (list dist_row) :=
  let all_dur := List.map duration_ms entries in
  let bc := bucket_counts all_dur in
  do mx <- max_count bc;
  mapM (dist_row_of entries mx) bc.

(** ** [create_excel]

    The four sheets in the order in which the function fills them; an
    exception in one sheet ends the function before the workbook is saved. *)

Record workbook : Type := mkWorkbook {
  wb_entries : list entry;                 (* "Rolled Segments (By Duration)" *)
  wb_partitions : list part_row;           (* "Partition Summary" *)
  wb_dashboard : option dashboard_stats;   (* "Dashboard" *)
  wb_distribution : list dist_row          (* "Duration Distribution" *)
}.

Definition create_excel (entries : list entry) : result workbook :=
  let ranked := sorted_entries entries in
  do rows <- partition_summary entries;
  do stats <- dashboard entries;
  do dist <- distribution entries;
  Ok (mkWorkbook ranked rows stats dist).

(** ** Auxiliary definitions used in the proofs *)

(** The exact value, scaled by [2^53], of [float(n) * c] for a constant
    [c = M * 2^-53]. *)
Definition scaled_product (n M : Z) : Z :=
  let '(m1, s1) := Dbl.round53 n in
  let '(m2, s2) := Dbl.round53 (m1 * M) in
  m2 * 2 ^ (s2 + s1).

(** The sort key of a group, [max(x[1]["durations"])], as a number. *)
Definition group_max (x : text * stats) : Z :=
  match py_max (durations (snd x)) with
  | Ok m => m
  | Raise _ => 0
  end.

(** The distinct keys of a sequence in the order of their first
    occurrence, scanning from the left. *)
Definition first_seen (ks : list text) : list text :=
  fold_left (fun seen k => if existsb (fun k' => text_eqb k' k) seen
                           then seen else seen ++ [k]) ks [].

(** The entries of one partition, in parse order. *)
Definition entries_of (k : text) (entries : list entry) : list entry :=
  filter (fun e => text_eqb (partition e) k) entries.

(** [len(x[1]["durations"])], the roll count of a group. *)
Definition group_count (x : text * stats) : Z := len (durations (snd x)).

(** Each group holds the durations of the entries of its key, in parse
    order. *)
Definition groups_of (entries : list entry) (ps : list (text * stats)) : Prop :=
  Forall (fun x => durations (snd x)
                   = List.map duration_ms (entries_of (fst x) entries)) ps.

(** The element at index [count // 2] of the ascending-sorted durations. *)
Definition median_of (l : list Z) : Z :=
  nth (Z.to_nat (len l / 2)) (sorted l) 0.

(** A summary row [r] shows the statistics of the group [x]. *)
Definition row_of_group (x : text * stats) (r : part_row) : Prop :=
  pr_partition r = fst x /\
  pr_count r = group_count x /\
  pr_max r = group_max x /\
  pr_median r = median_of (durations (snd x)) /\
  pr_total r = sum (durations (snd x)) /\
  pr_avg r = Dbl.round1 (Dbl.quotient (sum (durations (snd x)))
                                      (group_count x)) /\
  pr_status r = style_status (group_max x).

(** The scenario of the specification: one partition whose five rolls took
    5, 1500, 50, 1200 and 900 ms, in that parse order. *)
Definition scenario_entries : list entry :=
  List.map (fun d => mkEntry (mkDatetime 2024 1 15 10 30 0 123000)
                             (txt "orders-0") (txt "/var/kafka/data") 4096 d)
           [5; 1500; 50; 1200; 900].

(** Seventeen rolls of 1 ms and one roll of 4 ms. *)
Definition skewed_entries : list entry :=
  List.map (fun d => mkEntry (mkDatetime 2024 1 15 10 30 0 123000)
                             (txt "orders-0") (txt "/var/kafka/data") 4096 d)
           (repeat 1 17 ++ [4]).

(** Forty rolls of 40, 39, ..., 1 ms. *)
Definition ramp_entries : list entry :=
  List.map (fun d => mkEntry (mkDatetime 2024 1 15 10 30 0 123000)
                             (txt "orders-0") (txt "/var/kafka/data") 4096 d)
           (List.map Z.of_nat (rev (seq 1 40))).

(** Two partitions whose slowest rolls both took 7 ms. *)
Definition tied_entries : list entry :=
  [ mkEntry (mkDatetime 2024 1 15 10 30 0 123000)
            (txt "payments-1") (txt "/var/kafka/data") 10 7;
    mkEntry (mkDatetime 2024 1 15 10 30 1 0)
            (txt "orders-0") (txt "/var/kafka/data") 20 7;
    mkEntry (mkDatetime 2024 1 15 10 30 2 0)
            (txt "payments-1") (txt "/var/kafka/data") 30 3 ].

(** One roll of [10^400] ms, as [parse_log] returns it for a line whose
    duration is written with 401 digits. *)
Definition huge_entries : list entry :=
  [mkEntry (mkDatetime 2024 1 15 10 30 0 123000)
           (txt "orders-0") (txt "/var/kafka/data") 4096 (10 ^ 400)].

(** The row that [distribution] builds for a bucket once its two divisions
    have succeeded. *)
Definition dist_row_value (n mx : Z) (b : string * Z) : dist_row :=
  mkDistRow (fst b) (snd b)
    (Dbl.round1 (Dbl.mul (Dbl.round_ratio (snd b) n) (Dbl.of_int 100)))
    (Dbl.trunc (Dbl.mul (Dbl.round_ratio (snd b) mx) (Dbl.of_int 30))).

(** [1] if [d] lies in the bucket, else [0]. *)
Definition indicator (d : Z) (b : string * Z * option Z) : Z :=
  if in_bucket (snd (fst b)) (snd b) d then 1 else 0.

(** A runtime whose locale codec is ASCII: bytes from 128 are undecodable
    and are left out, so no character outside ASCII is ever seen; line ends
    are translated and kept as in Python's universal newlines mode; the
    digit limit is the default 4300. *)
Fixpoint universal_newlines (s : text) : text :=
  match s with
  | [] => []
  | c :: s' =>
      if N.eqb c 13 then
        match s' with
        | d :: s'' => if N.eqb d 10 then 10%N :: universal_newlines s''
                      else 10%N :: universal_newlines s'
        | [] => [10%N]
        end
      else c :: universal_newlines s'
  end.

Fixpoint split_lines (cur : text) (s : text) : list text :=
  match s with
  | [] => match cur with [] => [] | _ => [rev cur] end
  | c :: s' => if N.eqb c 10 then rev (c :: cur) :: split_lines [] s'
               else split_lines (c :: cur) s'
  end.

Definition ascii_decode (bytes : list Byte.byte) : list text :=
  split_lines []
    (universal_newlines
       (filter (fun c => (c <? 128)%N) (List.map Byte.to_N bytes))).

Definition ascii_runtime : runtime :=
  mkRuntime (fun _ => false) (fun _ => None) (fun _ => false) 4300 ascii_decode.

Definition bytes_of (s : string) : list Byte.byte := list_byte_of_string s.

(** A line of the right shape whose month is 13. *)
Definition month13_line : string :=
  "[2024-13-01 00:00:00,000] INFO [MergedLog partition=orders-0, dir=/var/kafka/data] Rolled new log segment at offset 4096 in 12 ms.".

(** A roll whose duration is written with 401 digits: [10^400] ms. *)
Definition overflow_log : string :=
  "[2024-01-15 10:30:00,123] INFO [MergedLog partition=orders-0, dir=/var/kafka/data] Rolled new log segment at offset 4096 in 1"
  ++ string_of_list_ascii (repeat "0"%char 400) ++ " ms.".

(** The declarative reading of a pattern: [matches r w c] when [r] can
    consume exactly the text [w], closing its groups on the texts [c]. *)
Inductive matches : Re.t -> text -> list text -> Prop :=
| M_eps : matches Re.Eps [] []
| M_chr (p : char -> bool) (c : char) :
    p c = true -> matches (Re.Chr p) [c] []
| M_rep (p : char -> bool) (lo : nat) (hi : option nat) (g : bool) (w : text) :
    forallb p w = true -> (lo <= List.length w)%nat ->
    match hi with Some h => (List.length w <= h)%nat | None => True end ->
    matches (Re.Rep p lo hi g) w []
| M_seq (r1 r2 : Re.t) (w1 w2 : text) (c1 c2 : list text) :
    matches r1 w1 c1 -> matches r2 w2 c2 ->
    matches (Re.Seq r1 r2) (w1 ++ w2) (c1 ++ c2)
| M_alt_l (r1 r2 : Re.t) (w : text) (c : list text) :
    matches r1 w c -> matches (Re.Alt r1 r2) w c
| M_alt_r (r1 r2 : Re.t) (w : text) (c : list text) :
    matches r2 w c -> matches (Re.Alt r1 r2) w c
| M_grp (r : Re.t) (w : text) (c : list text) :
    matches r w c -> matches (Re.Grp r) w (c ++ [w]).

Fixpoint group_free (r : Re.t) : bool :=
  match r with
  | Re.Eps | Re.Chr _ | Re.Rep _ _ _ _ => true
  | Re.Seq r1 r2 | Re.Alt r1 r2 => group_free r1 && group_free r2
  | Re.Grp _ => false
  end.

(** What the proofs ask of a runtime: no character is both white space
    and a decimal digit, the digit limit of [int] is off or at least 640
    (the interpreter accepts no smaller one), and a decimal digit has a
    value from 0 to 9. *)
Record runtime_ok (rt : runtime) : Prop := {
  rt_space_not_digit :
    forall c, uni_space rt c = true -> uni_decimal rt c = None;
  rt_digit_limit :
    int_max_str_digits rt = 0%nat \/ (640 <= int_max_str_digits rt)%nat;
  rt_decimal_value :
    forall c v, uni_decimal rt c = Some v -> 0 <= v <= 9
}.

(** [w] is a non-empty run of [\d] characters. *)
Definition digits_text (rt : runtime) (w : text) : Prop :=
  forallb (is_digit rt) w = true /\ w <> [].

Definition digits_value (rt : runtime) (w : text) : Z :=
  fold_left (fun acc c => 10 * acc + digit_value rt c) w 0.

(** The number of digits of [w] is within the limit of [int]. *)
Definition within_limit (rt : runtime) (w : text) : bool :=
  (int_max_str_digits rt =? 0)%nat
  || (List.length w <=? int_max_str_digits rt)%nat.

(** [r], run on [w ++ rest], goes through [w] closing its groups on [c] as
    the first thing the continuation accepts. *)
Definition leads (r : Re.t) (w : text) (c : list text) (rest : text) : Prop :=
  forall (R : Type) (caps : list text) (k : text -> list text -> option R) (x : R),
    k rest (caps ++ c) = Some x -> Re.run r (w ++ rest) caps k = Some x.

(** [r] has no match at the start of [s], whatever follows it. *)
Definition fails (r : Re.t) (s : text) : Prop :=
  forall (R : Type) (caps : list text) (k : text -> list text -> option R),
    Re.run r s caps k = None.

(** A repetition of [p] cannot go on into [rest]. *)
Definition stops (p : char -> bool) (rest : text) : Prop :=
  match rest with
  | [] => True
  | c :: _ => p c = false
  end.

(** The number written by ASCII digits. *)
Definition number (w : text) : Z :=
  fold_left (fun acc c => 10 * acc + (Z.of_N c - 48)) w 0.

Definition ascii_digits (w : text) : bool := forallb (in_range "0" "9") w.

(** The fields of a timestamp text of the shape that [LINE_PATTERN] fixes:
    [YYYY-mm-dd], white space, [HH:MM:SS,f]. *)
Definition ts_fields (rt : runtime) (ts : text)
    : text * text * text * text * text * text * text :=
  let rest := lstrip rt (skipn 10 ts) in
  (firstn 4 ts, firstn 2 (skipn 5 ts), firstn 2 (skipn 8 ts),
   firstn 2 rest, firstn 2 (skipn 3 rest), firstn 2 (skipn 6 rest),
   skipn 9 rest).

(** The timestamp is written in ASCII digits and names an existing day
    and time of day, with at most six digits after the comma. *)
Definition timestamp_ok (rt : runtime) (ts : text) : bool :=
  let '(fY, fm, fd, fH, fM, fS, ff) := ts_fields rt ts in
  ascii_digits (fY ++ fm ++ fd ++ fH ++ fM ++ fS ++ ff)
  && (1 <=? number fY)
  && (1 <=? number fm) && (number fm <=? 12)
  && (1 <=? number fd) && (number fd <=? days_in_month (number fY) (number fm))
  && (number fH <=? 23) && (number fM <=? 59) && (number fS <=? 59)
  && (List.length ff <=? 6)%nat.

(** The line is one that [parse_log] skips, or its groups convert. *)
Definition line_ok (rt : runtime) (line : text) : bool :=
  if negb (contains marker line) then true
  else match Re.search (LINE_PATTERN rt) line with
       | Some [ts; _; _; off; dur] =>
           timestamp_ok rt ts && within_limit rt off && within_limit rt dur
       | _ => true
       end.

(** Three lines: a roll, a line without the marker, and a line with the
    marker that the pattern does not match. *)
Definition sample_log : string :=
  "[2024-01-15 10:30:00,123] INFO [MergedLog partition=orders-0, dir=/var/kafka/data] Rolled new log segment at offset 4096 in 12 ms."
  ++ String (ascii_of_nat 10)
  ("[2024-01-15 10:30:01,001] INFO Some other broker message"
  ++ String (ascii_of_nat 10)
  "[2024-01-15 10:30:02,500] WARN Rolled new log segment at a strange place").

(** What the grouping loop maintains after the entries [es]. *)
Record grouped (es : list entry) (ps : list (text * stats)) : Prop := {
  gr_nodup : NoDup (List.map fst ps);
  gr_groups : groups_of es ps;
  gr_nonempty : Forall (fun x => durations (snd x) <> []) ps;
  gr_all_keys : forall k, ~ In k (List.map fst ps) -> entries_of k es = [];
  gr_keys : List.map fst ps = first_seen (List.map partition es);
  gr_counts : sum (List.map group_count ps) = len es
}.

(** ** Further code of the analyzer *)

(** *** Cell styles

    The fonts and fills that the module defines, and the two functions
    that choose among them by duration.  [style_status] writes the label
    given above together with a font and a fill; [style_duration] colours
    the duration cell. *)

Inductive font : Type := DATA_FONT | NUM_FONT | WARN_FONT | MOD_FONT | OK_FONT.

Inductive fill : Type := WARN_FILL | MOD_FILL | OK_FILL | ALT_FILL.

(** [cell.font] and [cell.fill] as [style_status] sets them. *)
Definition style_status_format (duration_ms : Z) : font * fill :=
  if 1000 <=? duration_ms then (WARN_FONT, WARN_FILL)
  else if 100 <=? duration_ms then (MOD_FONT, MOD_FILL)
  else (OK_FONT, OK_FILL).

(** [style_duration]: the font, and the fill when one is set. *)
Definition style_duration (duration_ms : Z) : font * option fill :=
  if 1000 <=? duration_ms then (WARN_FONT, Some WARN_FILL)
  else if 100 <=? duration_ms then (MOD_FONT, Some MOD_FILL)
  else (NUM_FONT, None).

(** *** The rows of sheet 1

    [for i, e in enumerate(sorted_entries)]: the sheet row [i + 5], the
    rank [i + 1], the cells of the entry, and whether the row gets the
    alternating fill ([i % 2 == 1]). *)

Fixpoint enumerate {A : Type} (i : Z) (l : list A) : list (Z * A) :=
  match l with
  | [] => []
  | x :: xs => (i, x) :: enumerate (i + 1) xs
  end.

Record entry_row : Type := mkEntryRow {
  er_row : Z;
  er_rank : Z;
  er_partition : text;
  er_duration : Z;
  er_duration_style : font * option fill;
  er_offset : Z;
  er_status : severity;
  er_status_format : font * fill;
  er_alternate : bool
}.

Definition entry_row_of (p : Z * entry) : entry_row :=
  let '(i, e) := p in
  mkEntryRow (i + 5) (i + 1) (partition e) (duration_ms e)
             (style_duration (duration_ms e)) (offset e)
             (style_status (duration_ms e))
             (style_status_format (duration_ms e))
             (i mod 2 =? 1).

Definition sheet1_rows (entries : list entry) : list entry_row :=
  List.map entry_row_of (enumerate 0 (sorted_entries entries)).

(** The last row of [ws.auto_filter.ref = "A4:H{4 + len(sorted_entries)}"]. *)
Definition sheet1_filter_last_row (entries : list entry) : Z :=
  4 + len (sorted_entries entries).

(** *** The command line

    [__main__]: a missing path and an empty parse end the run with exit
    status 1 before [create_excel] is called.  [ReportSaved wb] is the run
    in which [create_excel] has filled the workbook [wb], which it then
    saves. *)




(** ** Further definitions used in the proofs *)

Definition severity_rank (s : severity) : Z :=
  match s with
  | OK => 0
  | MODERATE => 1
  | SLOW => 2
  end.

(** [parse_line] without the substring test in front of the search. *)
Definition parse_line_ungated (rt : runtime) (line : text) : result (list entry) :=
  match Re.search (LINE_PATTERN rt) line with
  | Some [ts_str; partition; directory; offset; duration_ms] =>
      do ts <- strptime rt ts_str;
      do off <- py_int rt offset;
      do dur <- py_int rt duration_ms;
      Ok [mkEntry ts partition (strip rt directory) off dur]
  | _ => Ok []
  end.

(** The pattern has a match somewhere in the line. *)
Definition pattern_matches (rt : runtime) (line : text) : bool :=
  match Re.search (LINE_PATTERN rt) line with
  | Some _ => true
  | None => false
  end.

(** A date and time of day that exist. *)
Definition valid_datetime (t : datetime) : Prop :=
  1 <= dt_year t <= 9999 /\ 1 <= dt_month t <= 12 /\
  1 <= dt_day t <= days_in_month (dt_year t) (dt_month t) /\
  0 <= dt_hour t <= 23 /\ 0 <= dt_minute t <= 59 /\ 0 <= dt_second t <= 59 /\
  0 <= dt_microsecond t <= 999999.

(** The characters of a partition name: [[\w\.\-]]. *)
Definition partition_char (rt : runtime) (c : char) : bool :=
  is_word rt c || is_char "." c || is_char "-" c.

Definition severity_eqb (a b : severity) : bool :=
  severity_rank a =? severity_rank b.

(** The entries whose status cell shows [s]. *)
Definition with_status (s : severity) (entries : list entry) : list entry :=
  filter (fun e => severity_eqb (style_status (duration_ms e)) s) entries.


(** Nothing to strip: the text neither starts nor ends with white space. *)
Definition trimmed (rt : runtime) (s : text) : Prop :=
  match s with
  | [] => True
  | c :: _ => is_space rt c = false /\ is_space rt (last s c) = false
  end.

(** The text that the format ["%Y-%m-%d %H:%M:%S,%f"] of [strptime] stands
    for: the fields in decimal digits, padded with zeros to 4 and 2 places,
    and the fraction of the second in [k] digits. *)
Definition digit_char (v : Z) : char := Z.to_N (48 + v mod 10).

Fixpoint digits (n : nat) (v : Z) : text :=
  match n with
  | O => []
  | S n' => digits n' (v / 10) ++ [digit_char v]
  end.

Definition format_timestamp (k : nat) (t : datetime) : text :=
  digits 4 (dt_year t) ++ txt "-" ++ digits 2 (dt_month t) ++ txt "-"
  ++ digits 2 (dt_day t) ++ txt " "
  ++ digits 2 (dt_hour t) ++ txt ":" ++ digits 2 (dt_minute t) ++ txt ":"
  ++ digits 2 (dt_second t) ++ txt ","
  ++ digits k (dt_microsecond t / 10 ^ (6 - Z.of_nat k)).

(** A line of the broker log as [LINE_PATTERN] reads it, with single
    spaces between its parts: the timestamp with [k] digits of the fraction
    of the second, offset and duration in [n_off] and [n_dur] decimal
    places, and [post] after the final full stop. *)
Definition format_line (k n_off n_dur : nat) (e : entry) (post : text) : text :=
  txt "[" ++ format_timestamp k (timestamp e)
  ++ txt "] INFO [MergedLog partition=" ++ partition e
  ++ txt ", dir=" ++ directory e
  ++ txt "] Rolled new log segment at offset " ++ digits n_off (offset e)
  ++ txt " in " ++ digits n_dur (duration_ms e) ++ txt " ms." ++ post.

(** [line] is such a line for the entry [e]: the date and time exist and
    are written to the last digit, the partition is a non-empty run of the
    characters of its class, the directory is non-empty, holds no closing
    bracket and has no white space at its ends, and offset and duration are
    natural numbers of at most 640 decimal places. *)
Definition line_of (rt : runtime) (e : entry) (line : text) : Prop :=
  exists (k n_off n_dur : nat) (post : text),
    line = format_line k n_off n_dur e post /\
    valid_datetime (timestamp e) /\ (1 <= k <= 6)%nat /\
    dt_microsecond (timestamp e) mod 10 ^ (6 - Z.of_nat k) = 0 /\
    partition e <> [] /\ forallb (partition_char rt) (partition e) = true /\
    directory e <> [] /\
    forallb (fun c => negb (is_char "]" c)) (directory e) = true /\
    trimmed rt (directory e) /\
    (1 <= n_off <= 640)%nat /\ 0 <= offset e < 10 ^ Z.of_nat n_off /\
    (1 <= n_dur <= 640)%nat /\ 0 <= duration_ms e < 10 ^ Z.of_nat n_dur.

(* ================================================================== *)
(** * Part II: properties *)
(* ================================================================== *)

(** ** The model at work *)

Example one_third : Dbl.round_ratio 1 3 = Dbl.mk 6004799503160661 (-54).
Proof. vm_compute. reflexivity. Qed.

Example float_of_2_53_plus_1 :
  Dbl.feqb (Dbl.of_int (2 ^ 53 + 1)) (Dbl.of_int (2 ^ 53)) = true.
Proof. vm_compute. reflexivity. Qed.

Example round_half_to_even :
  List.map Dbl.round_int [Dbl.mk 5 (-1); Dbl.mk 7 (-1); Dbl.mk 15 (-1)] = [2; 4; 8].
Proof. vm_compute. reflexivity. Qed.

(** The largest float is [2^1024 - 2^971]; a quotient half a unit in the
    last place above it rounds out of range. *)
Example quotient_range :
  Dbl.int_truediv (2 ^ 1024 - 2 ^ 970 - 1) 1 = Ok (Dbl.mk (2 ^ 53 - 1) 971) /\
  Dbl.int_truediv (2 ^ 1024 - 2 ^ 970) 1 = Raise OverflowError /\
  Dbl.int_truediv (10 ^ 400) 1000 = Raise OverflowError /\
  Dbl.int_truediv 7 0 = Raise ZeroDivisionError.
Proof. repeat split; vm_compute; reflexivity. Qed.

(** [-7 / 2 = -3.5], [round(-0.25, 1) = -0.2] and [round(0.125, 2) = 0.12]. *)
Example signed_quotient_and_round :
  (exists x, Dbl.int_truediv (-7) 2 = Ok x /\
             Dbl.feqb x (Dbl.mk (-7) (-1)) = true) /\
  Dbl.feqb (Dbl.round1 (Dbl.mk (-1) (-2))) (Dbl.neg (Dbl.round_ratio 2 10)) = true /\
  Dbl.feqb (Dbl.round2 (Dbl.mk 1 (-3))) (Dbl.round_ratio 12 100) = true.
Proof.
  split; [eexists; split; vm_compute; reflexivity |].
  split; vm_compute; reflexivity.
Qed.

Example overflowing_average :
  parse_log ascii_runtime (Content (bytes_of overflow_log)) = Ok huge_entries /\
  partition_summary huge_entries = Raise OverflowError /\
  dashboard huge_entries = Raise OverflowError /\
  create_excel huge_entries = Raise OverflowError.
Proof. repeat split; vm_compute; reflexivity. Qed.

Example percentile_indices_of_20 : p95_index 20 = 19 /\ p99_index 20 = 19.
Proof. split; vm_compute; reflexivity. Qed.

Example parse_sample_log :
  parse_log ascii_runtime (Content (bytes_of sample_log))
  = Ok [mkEntry (mkDatetime 2024 1 15 10 30 0 123000)
                (txt "orders-0") (txt "/var/kafka/data") 4096 12].
Proof. vm_compute. reflexivity. Qed.

Example strptime_leap_day :
  strptime ascii_runtime (txt "2024-02-29 23:59:59,5")
  = Ok (mkDatetime 2024 2 29 23 59 59 500000) /\
  strptime ascii_runtime (txt "2023-02-29 23:59:59,5") = Raise ValueError.
Proof. split; vm_compute; reflexivity. Qed.

Example lazy_partition_group :
  Re.search (LINE_PATTERN ascii_runtime)
    (txt "[2024-01-15 10:30:00,123] INFO [MergedLog partition=a.b-c, dir= /d ] Rolled new log segment at offset 7 in 9 ms.")
  = Some [txt "2024-01-15 10:30:00,123"; txt "a.b-c"; txt " /d "; txt "7"; txt "9"].
Proof. vm_compute. reflexivity. Qed.

(** ** Rounding to 53 bits: error bounds *)

Lemma round53_bounds (a : Z) :
  0 <= a ->
  0 <= snd (Dbl.round53 a) /\
  0 <= fst (Dbl.round53 a) /\
  a * 2 ^ 53 - a <= fst (Dbl.round53 a) * 2 ^ snd (Dbl.round53 a) * 2 ^ 53
    <= a * 2 ^ 53 + a.
Proof.
  intros Ha. unfold Dbl.round53.
  destruct (Z.leb_spec (Z.log2 a + 1 - 53) 0) as [Hs | Hs]; cbn [fst snd].
  - rewrite Z.pow_0_r. lia.
  - set (s := Z.log2 a + 1 - 53) in *.
    assert (Hpos : 0 < a).
    { destruct (Z.eq_dec a 0) as [-> | ]; [cbn in Hs; lia | lia]. }
    assert (Hlog : 2 ^ Z.log2 a <= a) by (apply Z.log2_spec; lia).
    replace (Z.log2 a) with ((s - 1) + 53) in Hlog by lia.
    rewrite Z.pow_add_r in Hlog by lia.
    assert (HP : 2 ^ s = 2 * 2 ^ (s - 1)).
    { replace s with (Z.succ (s - 1)) at 1 by lia. apply Z.pow_succ_r. lia. }
    assert (Hh : 0 < 2 ^ (s - 1)) by (apply Z.pow_pos_nonneg; lia).
    pose proof (Z.div_mod a (2 ^ s) ltac:(lia)) as Hdm.
    pose proof (Z.mod_pos_bound a (2 ^ s) ltac:(lia)) as Hr.
    assert (Hq : 0 <= a / 2 ^ s) by (apply Z.div_pos; lia).
    set (q := a / 2 ^ s) in *. set (r := a mod 2 ^ s) in *.
    set (h := 2 ^ (s - 1)) in *.
    change (2 ^ 53) with 9007199254740992 in *.
    split; [lia |].
    destruct (Z.ltb_spec h r) as [Hlt | Hge]; cbn [orb].
    + split; [lia |]. rewrite HP. nia.
    + destruct (Z.eqb_spec r h) as [Heq | Hne]; cbn [andb].
      * destruct (Z.odd q); (split; [lia |]); rewrite HP; nia.
      * split; [lia |]. rewrite HP. nia.
Qed.

Lemma shiftl_sub53 (m t : Z) :
  0 <= t -> Z.shiftl m (t - 53) = (m * 2 ^ t) / 2 ^ 53.
Proof.
  intros Ht. destruct (Z.le_gt_cases 53 t) as [H | H].
  - rewrite Z.shiftl_mul_pow2 by lia.
    replace t with ((t - 53) + 53) at 2 by lia.
    rewrite Z.pow_add_r by lia. rewrite Z.mul_assoc.
    rewrite Z.div_mul by (apply Z.pow_nonzero; lia). reflexivity.
  - replace (t - 53) with (- (53 - t)) by lia.
    rewrite Z.shiftl_opp_r, Z.shiftr_div_pow2 by lia.
    replace 53 with ((53 - t) + t) at 2 by lia.
    rewrite Z.pow_add_r by lia.
    rewrite Z.div_mul_cancel_r; [reflexivity | |]; apply Z.pow_nonzero; lia.
Qed.

Lemma trunc_mul_scaled (n M : Z) :
  0 <= n ->
  Dbl.trunc (Dbl.mul (Dbl.of_int n) (Dbl.mk M (-53))) = scaled_product n M / 2 ^ 53.
Proof.
  intros Hn. unfold Dbl.trunc, Dbl.mul, Dbl.of_int, scaled_product.
  pose proof (round53_bounds n Hn) as (Hs1 & Hm1 & _).
  destruct (Dbl.round53 n) as [m1 s1]. cbn [fst snd Dbl.mant Dbl.expo] in *.
  destruct (Z.le_gt_cases 0 (m1 * M)) as [Hp | Hp].
  - pose proof (round53_bounds (m1 * M) Hp) as (Hs2 & _ & _).
    destruct (Dbl.round53 (m1 * M)) as [m2 s2].
    cbn [fst snd Dbl.mant Dbl.expo] in *.
    replace (s2 + s1 + -53) with ((s2 + s1) - 53) by lia.
    apply shiftl_sub53. lia.
  - unfold Dbl.round53.
    assert (Hl : Z.log2 (m1 * M) = 0) by (apply Z.log2_nonpos; lia).
    rewrite Hl. cbn [Z.leb Z.add Z.sub Z.compare Z.opp Z.pos_sub Pos.compare
                     Dbl.mant Dbl.expo].
    change (0 + 1 - 53 <=? 0) with true. cbn [Dbl.mant Dbl.expo].
    replace (0 + s1 + -53) with ((0 + s1) - 53) by lia.
    apply shiftl_sub53. lia.
Qed.

Lemma scaled_product_bounds (n M : Z) :
  0 <= n -> 0 <= M ->
  n * M * ((2 ^ 53 - 1) * (2 ^ 53 - 1)) <= scaled_product n M * 2 ^ 106
    <= n * M * ((2 ^ 53 + 1) * (2 ^ 53 + 1)).
Proof.
  intros Hn HM. unfold scaled_product.
  pose proof (round53_bounds n Hn) as (Hs1 & Hm1 & Hb1).
  destruct (Dbl.round53 n) as [m1 s1]. cbn [fst snd] in *.
  assert (Hp : 0 <= m1 * M) by (apply Z.mul_nonneg_nonneg; lia).
  pose proof (round53_bounds (m1 * M) Hp) as (Hs2 & Hm2 & Hb2).
  destruct (Dbl.round53 (m1 * M)) as [m2 s2]. cbn [fst snd] in *.
  rewrite Z.pow_add_r by lia.
  assert (H1 : 0 < 2 ^ s1) by (apply Z.pow_pos_nonneg; lia).
  assert (H2 : 0 < 2 ^ s2) by (apply Z.pow_pos_nonneg; lia).
  set (P1 := 2 ^ s1) in *. set (P2 := 2 ^ s2) in *.
  change (2 ^ 106) with (2 ^ 53 * 2 ^ 53).
  set (K := 2 ^ 53) in *.
  assert (HK : 0 < K) by (unfold K; lia).
  (* V1 = m1 * P1 approximates n, V2 = m2 * P2 approximates m1 * M *)
  set (V1 := m1 * P1) in *.
  assert (HV1 : 0 <= V1) by (unfold V1; apply Z.mul_nonneg_nonneg; lia).
  set (W := m2 * (P2 * P1)).
  assert (HW : V1 * M * K - V1 * M <= W * K <= V1 * M * K + V1 * M).
  { unfold W, V1. nia. }
  split.
  - (* lower *)
    assert (n * M * (K - 1) <= V1 * M * K) by nia.
    nia.
  - assert (V1 * M * K <= n * M * (K + 1)) by nia.
    nia.
Qed.

Lemma lit_0_95_eq : Dbl.lit_0_95 = Dbl.mk 8556839292003942 (-53).
Proof. vm_compute. reflexivity. Qed.

Lemma lit_0_99_eq : Dbl.lit_0_99 = Dbl.mk 8917127262193582 (-53).
Proof. vm_compute. reflexivity. Qed.

Lemma scaled_product_nonneg (n M : Z) :
  0 <= n -> 0 <= M -> 0 <= scaled_product n M.
Proof.
  intros Hn HM. pose proof (scaled_product_bounds n M Hn HM) as [Hl _].
  assert (0 <= n * M) by (apply Z.mul_nonneg_nonneg; lia).
  change (2 ^ 106) with 81129638414606681695789005144064 in Hl.
  change (2 ^ 53) with 9007199254740992 in Hl. nia.
Qed.

(** A constant below [1 - 2^-51] keeps [int(n * c)] strictly below [n]. *)
Lemma scaled_product_lt (n M : Z) :
  1 <= n -> 0 <= M -> M <= 2 ^ 53 - 4 ->
  scaled_product n M / 2 ^ 53 < n.
Proof.
  intros Hn HM HM'.
  pose proof (scaled_product_bounds n M ltac:(lia) HM) as [_ Hu].
  apply Z.div_lt_upper_bound; [lia |].
  change (2 ^ 106) with (2 ^ 53 * 2 ^ 53) in Hu.
  change (2 ^ 53) with 9007199254740992 in *.
  assert (n * M * ((9007199254740992 + 1) * (9007199254740992 + 1))
          <= n * (9007199254740992 - 4) * ((9007199254740992 + 1) * (9007199254740992 + 1))).
  { apply Z.mul_le_mono_nonneg_r; [lia |]. apply Z.mul_le_mono_nonneg_l; lia. }
  nia.
Qed.

Lemma p95_index_range (n : Z) : 1 <= n -> 0 <= p95_index n <= n - 1.
Proof.
  intros Hn. unfold p95_index. rewrite lit_0_95_eq, trunc_mul_scaled by lia.
  split.
  - apply Z.div_pos; [apply scaled_product_nonneg; lia | lia].
  - pose proof (scaled_product_lt n 8556839292003942 Hn ltac:(lia) ltac:(lia)). lia.
Qed.

Lemma p99_raw_index_range (n : Z) : 1 <= n -> 0 <= p99_raw_index n <= n - 1.
Proof.
  intros Hn. unfold p99_raw_index. rewrite lit_0_99_eq, trunc_mul_scaled by lia.
  split.
  - apply Z.div_pos; [apply scaled_product_nonneg; lia | lia].
  - pose proof (scaled_product_lt n 8917127262193582 Hn ltac:(lia) ltac:(lia)). lia.
Qed.

Lemma p95_le_p99_raw (n : Z) : 0 <= n -> p95_index n <= p99_raw_index n.
Proof.
  intros Hn. unfold p95_index, p99_raw_index.
  rewrite lit_0_95_eq, lit_0_99_eq, !trunc_mul_scaled by lia.
  apply Z.div_le_mono; [lia |].
  pose proof (scaled_product_bounds n 8556839292003942 Hn ltac:(lia)) as [_ Hu].
  pose proof (scaled_product_bounds n 8917127262193582 Hn ltac:(lia)) as [Hl _].
  change (2 ^ 106) with 81129638414606681695789005144064 in *.
  change (2 ^ 53) with 9007199254740992 in *.
  nia.
Qed.

Lemma p95_le_p99 (n : Z) : 1 <= n -> p95_index n <= p99_index n.
Proof.
  intros Hn. unfold p99_index.
  pose proof (p95_le_p99_raw n ltac:(lia)). pose proof (p95_index_range n Hn). lia.
Qed.

(** ** Python list indexing *)

Lemma py_index_ok {A : Type} (l : list A) (i : Z) (d : A) :
  0 <= i < len l -> py_index l i = Ok (nth (Z.to_nat i) l d).
Proof.
  unfold len, py_index. intros Hi.
  destruct (Z.ltb_spec i 0) as [? | _]; [lia |].
  destruct (Z.ltb_spec i 0) as [? | _]; [lia |].
  destruct (Z.leb_spec (Z.of_nat (List.length l)) i) as [? | _]; [lia |].
  cbn [orb]. rewrite (nth_error_nth' l d) by lia. reflexivity.
Qed.

Lemma py_index_out_of_range {A : Type} (l : list A) (i : Z) :
  len l <= i -> py_index l i = Raise IndexError.
Proof.
  unfold len, py_index. intros Hi.
  destruct (Z.ltb_spec i 0) as [? | _]; [lia |].
  destruct (Z.ltb_spec i 0) as [? | _]; [lia |].
  destruct (Z.leb_spec (Z.of_nat (List.length l)) i) as [_ | ?]; [| lia].
  reflexivity.
Qed.

(** ** The stable sort *)

Section SortFacts.
Context {A : Type}.
Variable reverse : bool.
Variable key : A -> Z.

Local Abbreviation ins := (insert reverse key).
Local Abbreviation srt := (stable_sort reverse key).
Local Abbreviation ord := (fun a b => before reverse (key a) (key b) = true).

Lemma before_total (a b : Z) :
  before reverse a b = false -> before reverse b a = true.
Proof. unfold before. destruct reverse; lia. Qed.

Lemma before_trans (a b c : Z) :
  before reverse a b = true -> before reverse b c = true ->
  before reverse a c = true.
Proof. unfold before. destruct reverse; lia. Qed.

Lemma before_false_neq (a b : Z) : before reverse a b = false -> a <> b.
Proof. unfold before. destruct reverse; lia. Qed.

Lemma insert_perm (x : A) (l : list A) : Permutation (ins x l) (x :: l).
Proof.
  induction l as [| y ys IH]; cbn; [reflexivity |].
  destruct (before reverse (key x) (key y)); [reflexivity |].
  rewrite IH. apply perm_swap.
Qed.

Lemma stable_sort_perm (l : list A) : Permutation (srt l) l.
Proof.
  induction l as [| x xs IH]; cbn; [reflexivity |].
  rewrite insert_perm. now constructor.
Qed.

Lemma stable_sort_length (l : list A) : List.length (srt l) = List.length l.
Proof. apply Permutation_length, stable_sort_perm. Qed.

Lemma insert_sorted (x : A) (l : list A) :
  StronglySorted ord l -> StronglySorted ord (ins x l).
Proof.
  induction 1 as [| y ys Hs IH Hall]; cbn.
  - constructor; constructor.
  - destruct (before reverse (key x) (key y)) eqn:E.
    + constructor; [constructor; assumption |].
      constructor; [exact E |].
      rewrite Forall_forall in *. intros z Hz.
      eapply before_trans; [exact E | auto].
    + constructor; [exact IH |].
      rewrite Forall_forall in *. intros z Hz.
      apply (Permutation_in _ (insert_perm x ys)) in Hz.
      destruct Hz as [<- | Hz]; [now apply before_total | auto].
Qed.

Lemma stable_sort_sorted (l : list A) : StronglySorted ord (srt l).
Proof.
  induction l as [| x xs IH]; cbn; [constructor | now apply insert_sorted].
Qed.

(** Stability: the elements of any one key stand in their original order. *)
Lemma insert_filter_key (k : Z) (x : A) (l : list A) :
  filter (fun e => key e =? k) (ins x l)
  = filter (fun e => key e =? k) (x :: l).
Proof.
  induction l as [| y ys IH]; [reflexivity |].
  cbn [insert]. destruct (before reverse (key x) (key y)) eqn:E; [reflexivity |].
  apply before_false_neq in E.
  cbn [filter] in *. rewrite IH.
  destruct (Z.eqb_spec (key x) k), (Z.eqb_spec (key y) k);
    try reflexivity; congruence.
Qed.

Lemma stable_sort_stable (k : Z) (l : list A) :
  filter (fun e => key e =? k) (srt l) = filter (fun e => key e =? k) l.
Proof.
  induction l as [| x xs IH]; [reflexivity |].
  cbn [stable_sort]. rewrite insert_filter_key. cbn [filter]. now rewrite IH.
Qed.

Lemma sorted_nth_ord (l : list A) (d : A) (i j : nat) :
  StronglySorted ord l -> (i <= j < List.length l)%nat ->
  before reverse (key (nth i l d)) (key (nth j l d)) = true.
Proof.
  intros Hs. revert i j. induction Hs as [| x xs Hs IH Hall]; intros i j Hij.
  - cbn in Hij. lia.
  - destruct j as [| j].
    + assert (i = 0%nat) as -> by lia. cbn. unfold before.
      destruct reverse; lia.
    + destruct i as [| i].
      * cbn [nth]. rewrite Forall_forall in Hall. apply Hall.
        apply nth_In. cbn in Hij. lia.
      * cbn [nth]. apply IH. cbn in Hij. lia.
Qed.
End SortFacts.

Lemma sorted_length (l : list Z) : len (sorted l) = len l.
Proof. unfold len, sorted. now rewrite stable_sort_length. Qed.

Lemma sorted_nth_le (l : list Z) (i j : nat) :
  (i <= j < List.length l)%nat -> nth i (sorted l) 0 <= nth j (sorted l) 0.
Proof.
  intros Hij.
  pose proof (sorted_nth_ord false (fun x => x) (sorted l) 0 i j
                (stable_sort_sorted _ _ l)) as H.
  unfold before in H. apply Z.leb_le, H.
  unfold sorted. rewrite stable_sort_length. exact Hij.
Qed.

(** ** [max], [min] and [sum] *)

Lemma fold_max_ge_init (l : list Z) (a : Z) : a <= fold_left Z.max l a.
Proof.
  revert a. induction l as [| x xs IH]; intros a; cbn; [lia |].
  specialize (IH (Z.max a x)). lia.
Qed.

Lemma fold_max_ge (l : list Z) (a x : Z) : In x l -> x <= fold_left Z.max l a.
Proof.
  revert a. induction l as [| y ys IH]; intros a Hin; [destruct Hin |].
  cbn. destruct Hin as [-> | Hin]; [| now apply IH].
  pose proof (fold_max_ge_init ys (Z.max a x)). lia.
Qed.

Lemma fold_max_in (l : list Z) (a : Z) :
  fold_left Z.max l a = a \/ In (fold_left Z.max l a) l.
Proof.
  revert a. induction l as [| y ys IH]; intros a; cbn; [now left |].
  destruct (IH (Z.max a y)) as [H | H]; [| now right; right].
  rewrite H. destruct (Z.max_spec a y) as [[_ ->] | [_ ->]]; auto.
Qed.

Lemma py_max_spec (l : list Z) :
  l <> [] ->
  exists m, py_max l = Ok m /\ In m l /\ forall x, In x l -> x <= m.
Proof.
  destruct l as [| a xs]; [congruence | intros _].
  exists (fold_left Z.max xs a). split; [reflexivity |]. split.
  - destruct (fold_max_in xs a) as [-> | H]; [now left | now right].
  - intros x [<- | Hx]; [apply fold_max_ge_init | now apply fold_max_ge].
Qed.

Lemma py_min_ok (l : list Z) : l <> [] -> exists m, py_min l = Ok m.
Proof. destruct l; [congruence | intros _; eexists; reflexivity]. Qed.

Lemma len_nonempty {A : Type} (l : list A) : l <> [] -> 1 <= len l.
Proof. destruct l; [congruence |]. unfold len. cbn [List.length]. lia. Qed.

Lemma len_pos_nonempty {A : Type} (l : list A) : 1 <= len l -> l <> [].
Proof. destruct l; [unfold len; cbn; lia | congruence]. Qed.

Lemma sum_acc (l : list Z) (a : Z) : fold_left Z.add l a = a + sum l.
Proof.
  unfold sum. revert a. induction l as [| x xs IH]; intros a; cbn; [lia |].
  rewrite (IH (a + x)), (IH x). lia.
Qed.

Lemma sum_cons (x : Z) (l : list Z) : sum (x :: l) = x + sum l.
Proof. unfold sum at 1. cbn. apply sum_acc. Qed.

Lemma sum_perm (l l' : list Z) : Permutation l l' -> sum l = sum l'.
Proof.
  induction 1; rewrite ?sum_cons; lia.
Qed.

(** ** The range of the quotients *)

(** Rounding to 53 bits never passes a number that has at most 53 bits
    itself. *)
Lemma round53_le_representable (a c t : Z) :
  0 <= a -> 0 <= t -> 0 <= c < 2 ^ 53 -> a <= c * 2 ^ t ->
  fst (Dbl.round53 a) * 2 ^ snd (Dbl.round53 a) <= c * 2 ^ t.
Proof.
  intros Ha Ht Hc Hle. unfold Dbl.round53.
  destruct (Z.leb_spec (Z.log2 a + 1 - 53) 0) as [Hs | Hs]; cbn [fst snd].
  - rewrite Z.pow_0_r. lia.
  - set (s := Z.log2 a + 1 - 53) in *.
    assert (Hpos : 0 < a).
    { destruct (Z.eq_dec a 0) as [-> | ]; [cbn in Hs; lia | lia]. }
    assert (Hlog : 2 ^ Z.log2 a <= a) by (apply Z.log2_spec; lia).
    replace (Z.log2 a) with ((s - 1) + 53) in Hlog by lia.
    rewrite Z.pow_add_r in Hlog by lia.
    assert (Hh : 0 < 2 ^ (s - 1)) by (apply Z.pow_pos_nonneg; lia).
    assert (Hts : s <= t).
    { destruct (Z.le_gt_cases s t) as [H | H]; [exact H |].
      assert (2 ^ t <= 2 ^ (s - 1)) by (apply Z.pow_le_mono_r; lia).
      assert (0 < 2 ^ t) by (apply Z.pow_pos_nonneg; lia).
      nia. }
    assert (HP : 2 ^ s = 2 * 2 ^ (s - 1)).
    { replace s with (Z.succ (s - 1)) at 1 by lia. apply Z.pow_succ_r. lia. }
    assert (Ht' : 2 ^ t = 2 ^ (t - s) * 2 ^ s).
    { rewrite <- Z.pow_add_r by lia. f_equal. lia. }
    assert (Hd : 0 < 2 ^ (t - s)) by (apply Z.pow_pos_nonneg; lia).
    pose proof (Z.div_mod a (2 ^ s) ltac:(lia)) as Hdm.
    pose proof (Z.mod_pos_bound a (2 ^ s) ltac:(lia)) as Hr.
    set (q := a / 2 ^ s) in *. set (r := a mod 2 ^ s) in *.
    set (h := 2 ^ (s - 1)) in *. set (P := 2 ^ s) in *.
    set (C := c * 2 ^ (t - s)).
    assert (HB : c * 2 ^ t = C * P) by (unfold C; rewrite Ht'; ring).
    rewrite HB in *.
    assert (HqC : q <= C) by nia.
    destruct (Z.ltb_spec h r) as [Hlt | Hge]; cbn [orb].
    + assert (q < C) by nia. nia.
    + destruct (Z.eqb_spec r h) as [Heq | Hne]; cbn [andb].
      * destruct (Z.odd q); [| nia]. assert (q < C) by nia. nia.
      * nia.
Qed.

(** A correctly rounded quotient never passes a bound [c * 2^t], [c] of at
    most 53 bits, that the exact quotient keeps. *)
Lemma round_ratio_below (p q c t : Z) :
  0 <= p <= c * 2 ^ t * q -> 0 < q -> 0 <= c < 2 ^ 53 -> 0 <= t ->
  0 <= Dbl.num (Dbl.round_ratio p q)
    <= c * 2 ^ t * Dbl.den (Dbl.round_ratio p q).
Proof.
  intros Hp Hq Hc Ht. unfold Dbl.round_ratio.
  assert (H2t : 0 < 2 ^ t) by (apply Z.pow_pos_nonneg; lia).
  destruct (Z.eqb_spec p 0) as [-> | Hp0].
  { unfold Dbl.num, Dbl.den. cbn. nia. }
  assert (Hp' : 0 < p) by lia.
  pose proof (Z.log2_nonneg q) as Hl.
  set (k := 56 + Z.log2 q) in *.
  set (n := p * 2 ^ k). set (sticky := if n mod q =? 0 then 0 else 1).
  set (a := 2 * (n / q) + sticky).
  assert (Hk : 0 < 2 ^ k) by (apply Z.pow_pos_nonneg; lia).
  assert (Hn : 0 <= n / q) by (apply Z.div_pos; unfold n; nia).
  assert (Hst : 0 <= sticky <= 1) by (unfold sticky; destruct (_ =? _); lia).
  assert (Ha : 0 <= a) by (unfold a; lia).
  assert (Hle : a <= c * 2 ^ (t + (k + 1))).
  { rewrite !Z.pow_add_r by lia. change (2 ^ 1) with 2.
    set (T := 2 ^ t) in *. set (K := 2 ^ k) in *.
    destruct (Z.eq_dec p (c * T * q)) as [E | Hne].
    - unfold a, sticky, n. rewrite E.
      replace (c * T * q * K) with (c * T * K * q) by ring.
      rewrite Z.div_mul, Z.mod_mul by lia. cbn [Z.eqb]. lia.
    - assert (n / q < c * T * K).
      { apply Z.div_lt_upper_bound; [lia |]. unfold n. nia. }
      unfold a. lia. }
  pose proof (round53_le_representable a c (t + (k + 1)) Ha ltac:(lia) Hc Hle) as Hv.
  pose proof (round53_bounds a Ha) as (Hs & Hm & _).
  destruct (Dbl.round53 a) as [m s]. cbn [fst snd] in *.
  unfold Dbl.num, Dbl.den. cbn [Dbl.mant Dbl.expo].
  assert (H2s : 0 < 2 ^ s) by (apply Z.pow_pos_nonneg; lia).
  rewrite Z.pow_add_r in Hv by lia.
  set (T := 2 ^ t) in *.
  destruct (Z.le_gt_cases s (k + 1)) as [H | H].
  - replace (Z.max 0 (s - 1 - k)) with 0 by lia.
    replace (Z.max 0 (- (s - 1 - k))) with (k + 1 - s) by lia.
    rewrite Z.pow_0_r, Z.mul_1_r. split; [exact Hm |].
    assert (E2 : 2 ^ (k + 1) = 2 ^ (k + 1 - s) * 2 ^ s).
    { rewrite <- Z.pow_add_r by lia. f_equal. lia. }
    rewrite E2 in Hv.
    assert (0 < 2 ^ (k + 1 - s)) by (apply Z.pow_pos_nonneg; lia).
    set (S' := 2 ^ s) in *. set (D := 2 ^ (k + 1 - s)) in *.
    assert (m * S' <= c * T * D * S') by lia.
    apply Z.mul_le_mono_pos_r with (p := S'); lia.
  - replace (Z.max 0 (s - 1 - k)) with (s - 1 - k) by lia.
    replace (Z.max 0 (- (s - 1 - k))) with 0 by lia.
    rewrite Z.pow_0_r, Z.mul_1_r.
    assert (H2d : 0 < 2 ^ (s - 1 - k)) by (apply Z.pow_pos_nonneg; lia).
    split; [nia |].
    assert (E2 : 2 ^ s = 2 ^ (s - 1 - k) * 2 ^ (k + 1)).
    { rewrite <- Z.pow_add_r by lia. f_equal. lia. }
    assert (H2k : 0 < 2 ^ (k + 1)) by (apply Z.pow_pos_nonneg; lia).
    rewrite E2 in Hv.
    set (K := 2 ^ (k + 1)) in *. set (D := 2 ^ (s - 1 - k)) in *.
    assert (m * D * K <= c * T * K) by lia.
    apply Z.mul_le_mono_pos_r with (p := K); lia.
Qed.

(** A correctly rounded quotient never passes a bound of at most 53 bits
    that the exact quotient keeps. *)
Lemma round_ratio_le (p q c : Z) :
  0 <= p <= c * q -> 0 < q -> 0 <= c < 2 ^ 53 ->
  0 <= Dbl.num (Dbl.round_ratio p q)
    <= c * Dbl.den (Dbl.round_ratio p q).
Proof.
  intros Hp Hq Hc.
  pose proof (round_ratio_below p q c 0 ltac:(rewrite Z.pow_0_r; lia) Hq Hc ltac:(lia)) as H.
  rewrite Z.pow_0_r, Z.mul_1_r in H. exact H.
Qed.

Lemma den_positive (x : Dbl.t) : 0 < Dbl.den x.
Proof. unfold Dbl.den. apply Z.pow_pos_nonneg; lia. Qed.

Lemma quotient_nonneg (a b : Z) :
  0 <= a -> 0 < b -> Dbl.quotient a b = Dbl.round_ratio a b.
Proof.
  intros Ha Hb. unfold Dbl.quotient.
  destruct (Z.ltb_spec a 0) as [? | _]; [lia |].
  destruct (Z.ltb_spec b 0) as [? | _]; [lia |].
  cbn [xorb]. now rewrite !Z.abs_eq by lia.
Qed.

(** A quotient that stays below [c * 2^t < 2^1024] is in the range of
    binary64: the division returns it. *)
Lemma int_truediv_below (a b c t : Z) :
  0 <= a <= c * 2 ^ t * b -> 0 < b -> 0 <= c < 2 ^ 53 -> 0 <= t ->
  c * 2 ^ t < 2 ^ 1024 ->
  Dbl.int_truediv a b = Ok (Dbl.round_ratio a b).
Proof.
  intros Ha Hb Hc Ht Hr. unfold Dbl.int_truediv.
  destruct (Z.eqb_spec b 0) as [? | _]; [lia |].
  rewrite quotient_nonneg by lia.
  pose proof (round_ratio_below a b c t Ha Hb Hc Ht) as [H0 H1].
  pose proof (den_positive (Dbl.round_ratio a b)) as Hd.
  unfold Dbl.overflows.
  destruct (Z.leb_spec (2 ^ 1024 * Dbl.den (Dbl.round_ratio a b))
                       (Z.abs (Dbl.num (Dbl.round_ratio a b)))) as [H | _];
    [| reflexivity].
  rewrite Z.abs_eq in H by lia.
  set (D := Dbl.den (Dbl.round_ratio a b)) in *.
  set (C := c * 2 ^ t) in *. set (M := 2 ^ 1024) in *.
  assert (C * D < M * D) by (apply Z.mul_lt_mono_pos_r; lia). lia.
Qed.

(** In particular when the quotient is at most an integer of 53 bits. *)
Lemma int_truediv_ok (a b c : Z) :
  0 <= a <= c * b -> 0 < b -> 0 <= c < 2 ^ 53 ->
  Dbl.int_truediv a b = Ok (Dbl.round_ratio a b).
Proof.
  intros Ha Hb Hc.
  apply (int_truediv_below a b c 0); rewrite ?Z.pow_0_r, ?Z.mul_1_r; lia.
Qed.

(** What the division returns is the quotient, and with a divisor other
    than zero the only exception is [OverflowError]. *)
Lemma int_truediv_inv (a b : Z) (x : Dbl.t) :
  Dbl.int_truediv a b = Ok x -> x = Dbl.quotient a b.
Proof.
  unfold Dbl.int_truediv. destruct (b =? 0); [discriminate |].
  destruct (Dbl.overflows _); [discriminate |]. now intros [= <-].
Qed.

Lemma int_truediv_exn (a b : Z) (e : exn) :
  b <> 0 -> Dbl.int_truediv a b = Raise e -> e = OverflowError.
Proof.
  intros Hb. unfold Dbl.int_truediv.
  destruct (Z.eqb_spec b 0) as [? | _]; [contradiction |].
  destruct (Dbl.overflows _); [| discriminate]. now intros [= <-].
Qed.

Lemma sum_between (l : list Z) (lo hi : Z) :
  (forall x, In x l -> lo <= x <= hi) ->
  lo * len l <= sum l <= hi * len l.
Proof.
  unfold len. induction l as [| x l IH]; intros H.
  - unfold sum. cbn. lia.
  - rewrite sum_cons. cbn [List.length].
    pose proof (H x (or_introl eq_refl)).
    pose proof (IH (fun y Hy => H y (or_intror Hy))). lia.
Qed.

Lemma count_if_le_len (p : Z -> bool) (l : list Z) : count_if p l <= len l.
Proof.
  unfold count_if, len. induction l as [| x l IH]; [cbn; lia |].
  cbn [filter]. destruct (p x); cbn [List.length]; lia.
Qed.

(** ** The dashboard percentiles *)

(** On a non-empty list the look-ups of the dashboard return; what is left
    of it are the three divisions. *)
Lemma dashboard_nonempty (entries : list entry) :
  entries <> [] ->
  let all_d := sorted (List.map duration_ms entries) in
  let n := len all_d in
  exists slowest mn mx,
    py_index (sorted_entries entries) 0 = Ok slowest /\
    py_min all_d = Ok mn /\
    py_max all_d = Ok mx /\
    In mx all_d /\ (forall x, In x all_d -> x <= mx) /\
    dashboard entries =
      do avg <- Dbl.int_truediv (sum all_d) n;
      do total_sec <- Dbl.int_truediv (sum all_d) 1000;
      do slowest_sec <- Dbl.int_truediv (duration_ms slowest) 1000;
      Ok (Some (mkDashboard (len entries) (len (part_stats entries))
                  mn mx (Dbl.round1 avg)
                  (nth (Z.to_nat (n / 2)) all_d 0)
                  (nth (Z.to_nat (p95_index n)) all_d 0)
                  (nth (Z.to_nat (p99_index n)) all_d 0)
                  (sum all_d) slowest
                  (count_if (fun d => d <? 100) all_d)
                  (count_if (fun d => (100 <=? d) && (d <? 1000)) all_d)
                  (count_if (fun d => 1000 <=? d) all_d)
                  (Dbl.round2 total_sec) (Dbl.round2 slowest_sec))).
Proof.
  intros Hne all_d n.
  assert (Hn : 1 <= n).
  { unfold n, all_d. rewrite sorted_length. unfold len. rewrite length_map.
    apply (len_nonempty entries Hne). }
  assert (Hd : all_d <> []) by (apply len_pos_nonempty; exact Hn).
  assert (Hs : 1 <= len (sorted_entries entries)).
  { unfold len, sorted_entries. rewrite stable_sort_length.
    apply (len_nonempty entries Hne). }
  destruct (py_max_spec all_d Hd) as (mx & Hmx & Hin & Hub).
  destruct (py_min_ok all_d Hd) as (mn & Hmn).
  pose proof (p95_index_range n Hn) as H95.
  pose proof (p99_raw_index_range n Hn) as H99.
  exists (nth 0 (sorted_entries entries) (hd (mkEntry (mkDatetime 0 0 0 0 0 0 0) [] [] 0 0) entries)), mn, mx.
  split; [apply (py_index_ok _ 0); lia |].
  do 4 (split; [assumption |]).
  unfold dashboard. destruct entries as [| e es]; [congruence |].
  fold all_d. fold n.
  rewrite (py_index_ok all_d (p95_index n) 0) by (fold n; lia).
  rewrite (py_index_ok all_d (p99_index n) 0) by (fold n; unfold p99_index; lia).
  rewrite (py_index_ok (sorted_entries (e :: es)) 0 e) by lia.
  rewrite Hmn, Hmx. cbn [bind].
  destruct (Dbl.int_truediv (sum all_d) n) as [avg |]; cbn [bind]; [| reflexivity].
  rewrite (py_index_ok all_d (n / 2) 0); [reflexivity |].
  fold n. split; [apply Z.div_pos; lia | apply Z.div_lt_upper_bound; lia].
Qed.

(** The figures of a dashboard that has been computed. *)
Lemma dashboard_inv (entries : list entry) (ds : dashboard_stats) :
  dashboard entries = Ok (Some ds) ->
  let all_d := sorted (List.map duration_ms entries) in
  let n := len all_d in
  entries <> [] /\
  exists slowest mn mx,
    py_index (sorted_entries entries) 0 = Ok slowest /\
    py_min all_d = Ok mn /\
    py_max all_d = Ok mx /\
    In mx all_d /\ (forall x, In x all_d -> x <= mx) /\
    ds = mkDashboard (len entries) (len (part_stats entries))
           mn mx (Dbl.round1 (Dbl.quotient (sum all_d) n))
           (nth (Z.to_nat (n / 2)) all_d 0)
           (nth (Z.to_nat (p95_index n)) all_d 0)
           (nth (Z.to_nat (p99_index n)) all_d 0)
           (sum all_d) slowest
           (count_if (fun d => d <? 100) all_d)
           (count_if (fun d => (100 <=? d) && (d <? 1000)) all_d)
           (count_if (fun d => 1000 <=? d) all_d)
           (Dbl.round2 (Dbl.quotient (sum all_d) 1000))
           (Dbl.round2 (Dbl.quotient (duration_ms slowest) 1000)).
Proof.
  intros H all_d n.
  assert (Hne : entries <> []).
  { intros ->. cbn in H. discriminate. }
  split; [exact Hne |].
  destruct (dashboard_nonempty entries Hne)
    as (sl & mn & mx & Hsl & Hmn & Hmx & Hin & Hub & Hd).
  fold all_d in Hmn, Hmx, Hin, Hub, Hd. fold n in Hd.
  exists sl, mn, mx. do 5 (split; [assumption |]).
  rewrite Hd in H.
  destruct (Dbl.int_truediv (sum all_d) n) as [avg |] eqn:E1;
    cbn [bind] in H; [| discriminate].
  destruct (Dbl.int_truediv (sum all_d) 1000) as [ts |] eqn:E2;
    cbn [bind] in H; [| discriminate].
  destruct (Dbl.int_truediv (duration_ms sl) 1000) as [ss |] eqn:E3;
    cbn [bind] in H; [| discriminate].
  apply int_truediv_inv in E1, E2, E3. subst avg ts ss.
  now injection H as <-.
Qed.


(** The only exception of the dashboard is [OverflowError]. *)
Lemma dashboard_exn (entries : list entry) (e : exn) :
  dashboard entries = Raise e -> e = OverflowError.
Proof.
  intros H. destruct entries as [| e0 es] eqn:E; [cbn in H; discriminate |].
  rewrite <- E in *. assert (Hne : entries <> []) by (rewrite E; discriminate).
  destruct (dashboard_nonempty entries Hne) as (sl & mn & mx & _ & _ & _ & Hin & _ & Hd).
  rewrite Hd in H. clear Hd.
  assert (Hn : len (sorted (List.map duration_ms entries)) <> 0).
  { pose proof (len_nonempty (sorted (List.map duration_ms entries))) as L.
    assert (sorted (List.map duration_ms entries) <> [])
      by (intros E'; rewrite E' in Hin; destruct Hin).
    specialize (L H0). lia. }
  destruct (Dbl.int_truediv (sum _) (len _)) eqn:E1; cbn [bind] in H;
    [| injection H as <-; exact (int_truediv_exn _ _ _ Hn E1)].
  destruct (Dbl.int_truediv (sum _) 1000) eqn:E2; cbn [bind] in H;
    [| injection H as <-; exact (int_truediv_exn _ 1000 _ ltac:(lia) E2)].
  destruct (Dbl.int_truediv (duration_ms sl) 1000) eqn:E3; cbn [bind] in H;
    [discriminate | injection H as <-; exact (int_truediv_exn _ 1000 _ ltac:(lia) E3)].
Qed.

(** With durations of at most 53 bits and fewer than [2^63] entries no
    division leaves the range of binary64: the dashboard is computed. *)
Lemma dashboard_ok (entries : list entry) :
  entries <> [] ->
  (forall e, In e entries -> 0 <= duration_ms e < 2 ^ 53) ->
  len entries < 2 ^ 63 ->
  exists ds, dashboard entries = Ok (Some ds).
Proof.
  intros Hne Hb Hlen.
  destruct (dashboard_nonempty entries Hne)
    as (sl & mn & mx & Hsl & _ & _ & Hin & Hub & ->).
  set (all_d := sorted (List.map duration_ms entries)) in *.
  assert (Hn : len all_d = len entries).
  { unfold all_d. rewrite sorted_length. unfold len. now rewrite length_map. }
  pose proof (len_nonempty entries Hne) as Hn1.
  assert (Hrange : forall x, In x all_d -> 0 <= x < 2 ^ 53).
  { intros x Hx. unfold all_d, sorted in Hx.
    apply (Permutation_in _ (stable_sort_perm false (fun x => x) _)) in Hx.
    apply in_map_iff in Hx. destruct Hx as (e & <- & He). now apply Hb. }
  pose proof (Hrange mx Hin) as Hmx.
  assert (Hsum : 0 * len all_d <= sum all_d <= mx * len all_d).
  { apply sum_between. intros x Hx. split; [apply (Hrange x Hx) | now apply Hub]. }
  assert (Hsl_in : In sl entries).
  { apply (Permutation_in _ (stable_sort_perm true duration_ms entries)).
    fold (sorted_entries entries).
    unfold py_index in Hsl. cbn [Z.ltb Z.compare Z.to_nat orb] in Hsl.
    destruct (sorted_entries entries) as [| x xs]; cbn in Hsl; [discriminate |].
    injection Hsl as <-. now left. }
  pose proof (Hb sl Hsl_in) as Hsld.
  rewrite (int_truediv_ok (sum all_d) (len all_d) mx) by lia. cbn [bind].
  rewrite (int_truediv_below (sum all_d) 1000 1 116); cbn [bind].
  - rewrite (int_truediv_ok (duration_ms sl) 1000 (duration_ms sl)) by lia.
    cbn [bind]. eexists. reflexivity.
  - rewrite Z.mul_1_l. split; [lia |].
    assert (mx * len all_d <= 2 ^ 53 * 2 ^ 63).
    { apply Z.mul_le_mono_nonneg; lia. }
    change (2 ^ 116) with (2 ^ 53 * 2 ^ 63). lia.
  - lia.
  - lia.
  - lia.
  - rewrite Z.mul_1_l. apply Z.pow_lt_mono_r; lia.
Qed.

(** C3: on a non-empty entry list the two percentile look-ups and the
    maximum return, and [p95 <= p99 <= max]; with a single entry the three
    coincide.  They are the percentiles and the maximum of every dashboard
    that is computed, and the dashboard is computed when the durations are
    natural numbers below [2^53] and the list has fewer than [2^63]
    entries (its divisions raise [OverflowError] for larger sums). *)
Theorem C3_percentiles_ordered (entries : list entry) :
  entries <> [] ->
  exists p95 p99 mx,
    py_index (sorted (List.map duration_ms entries))
             (p95_index (len (sorted (List.map duration_ms entries)))) = Ok p95 /\
    py_index (sorted (List.map duration_ms entries))
             (p99_index (len (sorted (List.map duration_ms entries)))) = Ok p99 /\
    py_max (sorted (List.map duration_ms entries)) = Ok mx /\
    p95 <= p99 <= mx /\
    (len entries = 1 -> p95 = mx /\ p99 = mx) /\
    (forall ds, dashboard entries = Ok (Some ds) ->
                ds_p95 ds = p95 /\ ds_p99 ds = p99 /\ ds_max ds = mx) /\
    ((forall e, In e entries -> 0 <= duration_ms e < 2 ^ 53) ->
     len entries < 2 ^ 63 ->
     exists ds, dashboard entries = Ok (Some ds)).
Proof.
  intros Hne.
  destruct (dashboard_nonempty entries Hne) as (sl & mn & mx & _ & _ & Hmx & Hin & Hub & _).
  set (all_d := sorted (List.map duration_ms entries)) in *.
  set (n := len all_d) in *.
  assert (Hlen : n = len entries).
  { unfold n, all_d. rewrite sorted_length. unfold len. now rewrite length_map. }
  assert (Hn : 1 <= n) by (rewrite Hlen; now apply len_nonempty).
  pose proof (p95_index_range n Hn) as H95.
  pose proof (p99_raw_index_range n Hn) as H99.
  pose proof (p95_le_p99 n Hn) as Hle.
  assert (Hl : List.length (List.map duration_ms entries) = Z.to_nat n).
  { unfold n, all_d. rewrite sorted_length. unfold len. lia. }
  exists (nth (Z.to_nat (p95_index n)) all_d 0),
         (nth (Z.to_nat (p99_index n)) all_d 0), mx.
  split; [apply py_index_ok; fold n; lia |].
  split; [apply py_index_ok; fold n; unfold p99_index; lia |].
  split; [exact Hmx |].
  assert (H1 : nth (Z.to_nat (p95_index n)) all_d 0
               <= nth (Z.to_nat (p99_index n)) all_d 0).
  { apply sorted_nth_le. unfold p99_index in *. lia. }
  assert (H2 : nth (Z.to_nat (p99_index n)) all_d 0 <= mx).
  { apply Hub, nth_In. unfold all_d, sorted. rewrite stable_sort_length.
    unfold p99_index. lia. }
  split; [lia |].
  split.
  { intros Hone. rewrite <- Hlen in Hone.
    assert (E95 : p95_index n = 0) by lia.
    assert (E99 : p99_index n = 0) by (unfold p99_index; lia).
    rewrite E95, E99.
    destruct (In_nth all_d mx 0 Hin) as (k & Hk & Hnth).
    assert (k = 0%nat) as ->.
    { unfold n, len in Hone. lia. }
    cbn [Z.to_nat]. now rewrite Hnth. }
  split.
  { intros ds Hds.
    destruct (dashboard_inv entries ds Hds)
      as (_ & sl' & mn' & mx' & _ & _ & Hmx' & _ & _ & ->).
    fold all_d in Hmx'. rewrite Hmx in Hmx'. injection Hmx' as <-.
    cbn [ds_p95 ds_p99 ds_max]. fold all_d. fold n. repeat split. }
  intros Hb Hlt. exact (dashboard_ok entries Hne Hb Hlt).
Qed.

(** C10: the unclamped index [int(n * 0.95)] is at most [n - 1] for every
    non-empty list, so the p95 lookup in the sorted durations never raises. *)
Theorem C10_p95_index_in_range (l : list Z) :
  l <> [] ->
  0 <= p95_index (len (sorted l)) <= len (sorted l) - 1 /\
  exists v, py_index (sorted l) (p95_index (len (sorted l))) = Ok v.
Proof.
  intros Hne.
  assert (Hn : 1 <= len (sorted l)).
  { rewrite sorted_length. now apply len_nonempty. }
  pose proof (p95_index_range _ Hn) as H. split; [exact H |].
  eexists. apply (py_index_ok _ _ 0). lia.
Qed.

(** C9 as stated fails: no size [n >= 1] makes the raw index
    [int(n * 0.99)] equal to [n]. *)
Lemma C9_raw_p99_index_never_n :
  ~ (exists n, 1 <= n /\ p99_raw_index n = n).
Proof.
  intros (n & Hn & E). pose proof (p99_raw_index_range n Hn). lia.
Qed.

(** C9, amended: for every [n >= 1] the raw index [int(n * 0.99)] is at most
    [n - 1]; the clamp returns it unchanged and the unclamped lookup is in
    range as well. *)
Theorem C9_p99_clamp_is_identity (n : Z) :
  1 <= n ->
  p99_raw_index n <= n - 1 /\ p99_index n = p99_raw_index n.
Proof.
  intros Hn. pose proof (p99_raw_index_range n Hn) as H.
  unfold p99_index. split; [lia | apply Z.min_l; lia].
Qed.

(** ** Sheet 1: the ranking of all entries *)

Lemma StronglySorted_weaken {A : Type} (R S : A -> A -> Prop) (l : list A) :
  (forall a b, R a b -> S a b) -> StronglySorted R l -> StronglySorted S l.
Proof.
  intros HRS. induction 1 as [| x xs Hs IH Hall]; constructor; [exact IH |].
  eapply Forall_impl; [| exact Hall]. intros b. apply HRS.
Qed.

Lemma stable_sort_desc {A : Type} (key : A -> Z) (l : list A) :
  StronglySorted (fun a b => key b <= key a) (stable_sort true key l).
Proof.
  eapply StronglySorted_weaken; [| apply stable_sort_sorted].
  intros a b H. unfold before in H. now apply Z.leb_le.
Qed.

(** C5: the ranking is the entry list sorted by non-increasing duration,
    entries of equal duration keep their parse order, and the slowest entry,
    [sorted_entries[0]], is the head of the ranking, of maximal duration,
    and the slowest entry of every dashboard that is computed (the dashboard
    is computed when the durations are natural numbers below [2^53] and the
    list has fewer than [2^63] entries). *)
Theorem C5_ranking_is_stable_descending_sort (entries : list entry) :
  Permutation (sorted_entries entries) entries /\
  StronglySorted (fun a b => duration_ms b <= duration_ms a)
                 (sorted_entries entries) /\
  (forall d, filter (fun e => duration_ms e =? d) (sorted_entries entries)
             = filter (fun e => duration_ms e =? d) entries) /\
  (entries <> [] ->
   exists sl,
     py_index (sorted_entries entries) 0 = Ok sl /\
     hd_error (sorted_entries entries) = Some sl /\
     (forall e, In e entries -> duration_ms e <= duration_ms sl) /\
     (forall ds, dashboard entries = Ok (Some ds) -> ds_slowest ds = sl) /\
     ((forall e, In e entries -> 0 <= duration_ms e < 2 ^ 53) ->
      len entries < 2 ^ 63 ->
      exists ds, dashboard entries = Ok (Some ds))).
Proof.
  split; [apply stable_sort_perm |].
  split; [apply stable_sort_desc |].
  split; [intros d; apply stable_sort_stable |].
  intros Hne.
  destruct (dashboard_nonempty entries Hne)
    as (sl & mn & mx & Hsl & _ & _ & _ & _ & _).
  exists sl. split; [exact Hsl |].
  pose proof (stable_sort_desc duration_ms entries) as Hs.
  pose proof (stable_sort_perm true duration_ms entries) as Hp.
  fold (sorted_entries entries) in Hs, Hp.
  assert (Hhd : hd_error (sorted_entries entries) = Some sl /\
                forall e, In e entries -> duration_ms e <= duration_ms sl).
  { unfold py_index in Hsl. cbn [Z.ltb Z.compare Z.to_nat orb] in Hsl.
    destruct (sorted_entries entries) as [| x xs] eqn:E.
    - cbn in Hsl. discriminate.
    - cbn in Hsl. injection Hsl as <-. split; [reflexivity |].
      intros e He. apply (Permutation_in _ (Permutation_sym Hp)) in He.
      inversion Hs as [| ? ? _ Hall]; subst.
      destruct He as [<- | He]; [lia |].
      rewrite Forall_forall in Hall. now apply Hall. }
  split; [apply Hhd |]. split; [apply Hhd |].
  split.
  - intros ds Hds.
    destruct (dashboard_inv entries ds Hds)
      as (_ & sl' & mn' & mx' & Hsl' & _ & _ & _ & _ & ->).
    rewrite Hsl in Hsl'. injection Hsl' as <-. reflexivity.
  - intros Hb Hlt. exact (dashboard_ok entries Hne Hb Hlt).
Qed.

(** ** Sheet 2: grouping and the ranking of the groups *)

Lemma text_eqb_eq (a b : text) : text_eqb a b = true <-> a = b.
Proof.
  revert b. induction a as [| x a IH]; intros [| y b]; cbn; try easy.
  rewrite andb_true_iff, N.eqb_eq, IH. split.
  - now intros [-> ->].
  - intros H. now injection H.
Qed.

Lemma text_eqb_refl (a : text) : text_eqb a a = true.
Proof. now apply text_eqb_eq. Qed.




Lemma len_app {A : Type} (l l' : list A) : len (l ++ l') = len l + len l'.
Proof. unfold len. rewrite length_app. lia. Qed.

Lemma dict_append_keys (k : text) (d o : Z) (ps : list (text * stats)) :
  List.map fst (dict_append k d o ps)
  = if existsb (fun k' => text_eqb k' k) (List.map fst ps)
    then List.map fst ps else List.map fst ps ++ [k].
Proof.
  induction ps as [| [k' s] rest IH]; [reflexivity |].
  cbn [dict_append List.map fst existsb].
  destruct (text_eqb k' k); cbn [orb List.map fst]; [reflexivity |].
  rewrite IH. now destruct (existsb _ _).
Qed.

Lemma dict_append_counts (k : text) (d o : Z) (ps : list (text * stats)) :
  sum (List.map group_count (dict_append k d o ps))
  = sum (List.map group_count ps) + 1.
Proof.
  induction ps as [| [k' s] rest IH]; [reflexivity |].
  cbn [dict_append]. destruct (text_eqb k' k); cbn [List.map].
  - rewrite !sum_cons. unfold group_count at 1 3. cbn [snd durations].
    rewrite len_app. unfold len at 2. cbn. lia.
  - rewrite !sum_cons, IH. lia.
Qed.

Lemma dict_append_nonempty (k : text) (d o : Z) (ps : list (text * stats)) :
  Forall (fun x => durations (snd x) <> []) ps ->
  Forall (fun x => durations (snd x) <> []) (dict_append k d o ps).
Proof.
  induction 1 as [| [k' s] rest Hx Hr IH]; cbn [dict_append].
  - constructor; [cbn; congruence | constructor].
  - destruct (text_eqb k' k).
    + constructor; [| exact Hr]. cbn. now destruct (durations s).
    + constructor; assumption.
Qed.

Lemma existsb_text_In (k : text) (l : list text) :
  existsb (fun k' => text_eqb k' k) l = true <-> In k l.
Proof.
  rewrite existsb_exists. split.
  - intros (x & Hx & E). apply text_eqb_eq in E. now subst.
  - intros H. exists k. split; [exact H | apply text_eqb_refl].
Qed.

Lemma existsb_text_notIn (k : text) (l : list text) :
  existsb (fun k' => text_eqb k' k) l = false <-> ~ In k l.
Proof.
  rewrite <- existsb_text_In. now destruct (existsb _ _).
Qed.

Lemma entries_of_snoc (k : text) (es : list entry) (e : entry) :
  entries_of k (es ++ [e])
  = entries_of k es ++ (if text_eqb (partition e) k then [e] else []).
Proof. unfold entries_of. rewrite filter_app. reflexivity. Qed.

Lemma entries_of_snoc_other (k : text) (es : list entry) (e : entry) :
  partition e <> k -> entries_of k (es ++ [e]) = entries_of k es.
Proof.
  intros Hne. rewrite entries_of_snoc.
  destruct (text_eqb (partition e) k) eqn:E.
  - apply text_eqb_eq in E. contradiction.
  - apply app_nil_r.
Qed.

Lemma dict_append_groups (e : entry) (es : list entry) (ps : list (text * stats)) :
  NoDup (List.map fst ps) ->
  groups_of es ps ->
  (~ In (partition e) (List.map fst ps) -> entries_of (partition e) es = []) ->
  groups_of (es ++ [e])
            (dict_append (partition e) (duration_ms e) (offset e) ps).
Proof.
  unfold groups_of. intros Hnd Hg. revert Hnd.
  induction Hg as [| [k' s] rest Hx Hr IH]; intros Hnd Hnew; cbn [dict_append].
  - constructor; [| constructor]. cbn [fst snd durations].
    rewrite entries_of_snoc, Hnew, text_eqb_refl by (cbn; tauto). reflexivity.
  - cbn [fst snd List.map] in *. inversion Hnd as [| ? ? Hnotin Hnd']; subst.
    destruct (text_eqb k' (partition e)) eqn:E.
    + apply text_eqb_eq in E. subst k'. constructor.
      * cbn [fst snd durations].
        rewrite entries_of_snoc, text_eqb_refl, map_app, Hx. reflexivity.
      * rewrite Forall_forall in *. intros [k2 s2] Hin. cbn [fst snd].
        rewrite entries_of_snoc_other; [now apply (Hr (k2, s2)) |].
        intros <-. apply Hnotin. now apply (in_map fst) in Hin.
    + constructor.
      * cbn [fst snd]. rewrite entries_of_snoc_other; [exact Hx |].
        intros E'. rewrite E', text_eqb_refl in E. discriminate.
      * apply IH; [exact Hnd' |]. intros Hn. apply Hnew. intros [E' | H].
        -- rewrite E', text_eqb_refl in E. discriminate.
        -- contradiction.
Qed.

Lemma first_seen_snoc (ks : list text) (k : text) :
  first_seen (ks ++ [k])
  = if existsb (fun k' => text_eqb k' k) (first_seen ks)
    then first_seen ks else first_seen ks ++ [k].
Proof. unfold first_seen. now rewrite fold_left_app. Qed.

Lemma grouped_step (es : list entry) (ps : list (text * stats)) (e : entry) :
  grouped es ps ->
  grouped (es ++ [e]) (dict_append (partition e) (duration_ms e) (offset e) ps).
Proof.
  intros [Hnd Hg Hne Hall Hk Hc].
  pose proof (dict_append_keys (partition e) (duration_ms e) (offset e) ps) as Hkeys.
  constructor.
  - rewrite Hkeys. destruct (existsb _ _) eqn:E; [exact Hnd |].
    apply existsb_text_notIn in E.
    apply NoDup_app; [exact Hnd | repeat constructor; intros [] | ].
    intros x Hx [<- | []]. contradiction.
  - apply dict_append_groups; auto.
  - now apply dict_append_nonempty.
  - intros k Hk'. rewrite Hkeys in Hk'.
    assert (Hk1 : ~ In k (List.map fst ps)).
    { intros H. apply Hk'. destruct (existsb _ _); [exact H |].
      apply in_or_app. now left. }
    assert (Hk2 : partition e <> k).
    { intros <-. apply Hk'. destruct (existsb _ _) eqn:E.
      - now apply existsb_text_In in E.
      - apply in_or_app. right. now left. }
    rewrite entries_of_snoc_other by exact Hk2. now apply Hall.
  - rewrite Hkeys, map_app. cbn [List.map]. rewrite first_seen_snoc, Hk. reflexivity.
  - rewrite dict_append_counts, Hc, len_app. reflexivity.
Qed.

Lemma grouped_fold (rest es : list entry) (ps : list (text * stats)) :
  grouped es ps ->
  grouped (es ++ rest)
          (fold_left (fun ps e => dict_append (partition e) (duration_ms e)
                                              (offset e) ps) rest ps).
Proof.
  revert es ps. induction rest as [| e rest IH]; intros es ps H.
  - now rewrite app_nil_r.
  - cbn [fold_left]. replace (es ++ e :: rest) with ((es ++ [e]) ++ rest)
      by (now rewrite <- app_assoc).
    apply IH, grouped_step, H.
Qed.

Lemma part_stats_grouped (entries : list entry) :
  grouped entries (part_stats entries).
Proof.
  apply (grouped_fold entries [] []).
  constructor; try constructor; reflexivity.
Qed.

Lemma mapM_ok {A B : Type} (f : A -> result B) (g : A -> B) (l : list A) :
  (forall x, In x l -> f x = Ok (g x)) -> mapM f l = Ok (List.map g l).
Proof.
  induction l as [| x xs IH]; intros H; [reflexivity |].
  cbn [mapM List.map]. rewrite (H x) by now left. cbn [bind].
  rewrite IH by (intros y Hy; apply H; now right). reflexivity.
Qed.

Lemma insert_map {A B : Type} (r : bool) (k : B -> Z) (g : A -> B)
    (x : A) (l : list A) :
  insert r k (g x) (List.map g l)
  = List.map g (insert r (fun a => k (g a)) x l).
Proof.
  induction l as [| y ys IH]; [reflexivity |].
  cbn [insert List.map]. destruct (before r (k (g x)) (k (g y))); [reflexivity |].
  cbn [List.map]. now rewrite IH.
Qed.

Lemma stable_sort_map {A B : Type} (r : bool) (k : B -> Z) (g : A -> B)
    (l : list A) :
  stable_sort r k (List.map g l)
  = List.map g (stable_sort r (fun a => k (g a)) l).
Proof.
  induction l as [| x xs IH]; [reflexivity |].
  cbn [stable_sort List.map]. now rewrite IH, insert_map.
Qed.

Lemma combine_map_self {A B : Type} (f : A -> B) (l : list A) :
  combine (List.map f l) l = List.map (fun x => (f x, x)) l.
Proof. induction l as [| x xs IH]; [reflexivity |]. cbn. now rewrite IH. Qed.

Lemma sorted_by_ok {A : Type} (key : A -> result Z) (g : A -> Z) (r : bool)
    (l : list A) :
  (forall x, In x l -> key x = Ok (g x)) ->
  sorted_by key r l = Ok (stable_sort r g l).
Proof.
  intros H. unfold sorted_by. rewrite (mapM_ok key g l H). cbn [bind].
  rewrite combine_map_self, stable_sort_map, map_map. cbn [fst snd].
  now rewrite map_id.
Qed.

Lemma py_max_group (x : text * stats) :
  durations (snd x) <> [] -> py_max (durations (snd x)) = Ok (group_max x).
Proof.
  intros H. unfold group_max.
  destruct (durations (snd x)); [congruence | reflexivity].
Qed.

Lemma sorted_parts_ok (entries : list entry) :
  sorted_parts entries = Ok (stable_sort true group_max (part_stats entries)).
Proof.
  apply sorted_by_ok. intros x Hx. apply py_max_group.
  pose proof (gr_nonempty _ _ (part_stats_grouped entries)) as H.
  rewrite Forall_forall in H. now apply H.
Qed.

Lemma py_max_sorted (l : list Z) : py_max (sorted l) = py_max l.
Proof.
  destruct l as [| a l'] eqn:E; [reflexivity |]. rewrite <- E.
  assert (Hne : l <> []) by (rewrite E; congruence).
  assert (Hp : Permutation (sorted l) l) by apply stable_sort_perm.
  assert (Hne' : sorted l <> []).
  { intros H. rewrite H in Hp. apply Permutation_nil in Hp. contradiction. }
  destruct (py_max_spec l Hne) as (m & -> & Hin & Hub).
  destruct (py_max_spec (sorted l) Hne') as (m' & -> & Hin' & Hub').
  f_equal. apply Z.le_antisymm.
  - apply Hub. now apply (Permutation_in _ Hp).
  - apply Hub'. now apply (Permutation_in _ (Permutation_sym Hp)).
Qed.

Lemma group_member (entries : list entry) (x : text * stats) (d : Z) :
  In x (part_stats entries) -> In d (durations (snd x)) ->
  exists e, In e entries /\ partition e = fst x /\ duration_ms e = d.
Proof.
  intros Hx Hd. pose proof (gr_groups _ _ (part_stats_grouped entries)) as Hg.
  unfold groups_of in Hg. rewrite Forall_forall in Hg. rewrite (Hg x Hx) in Hd.
  apply in_map_iff in Hd. destruct Hd as (e & <- & He).
  unfold entries_of in He. apply filter_In in He. destruct He as [He Hk].
  apply text_eqb_eq in Hk. now exists e.
Qed.

(** A row of the summary is computed up to its division. *)
Lemma part_row_of_eq (i : Z) (x : text * stats) :
  durations (snd x) <> [] ->
  exists mn,
    py_min (sorted (durations (snd x))) = Ok mn /\
    part_row_of i x =
      do avg <- Dbl.int_truediv (sum (durations (snd x))) (group_count x);
      Ok (mkPartRow (i + 1) (fst x) (group_count x) (group_max x) mn
                    (Dbl.round1 avg) (median_of (durations (snd x)))
                    (sum (durations (snd x))) (style_status (group_max x))).
Proof.
  intros Hne. unfold part_row_of.
  set (d := sorted (durations (snd x))).
  assert (Hlen : len d = group_count x) by apply sorted_length.
  assert (Hn : 1 <= len d) by (rewrite Hlen; now apply len_nonempty).
  assert (Hd : d <> []) by now apply len_pos_nonempty.
  assert (Hsum : sum d = sum (durations (snd x))).
  { apply sum_perm, stable_sort_perm. }
  assert (Hmax : py_max d = Ok (group_max x)).
  { unfold d. now rewrite py_max_sorted, (py_max_group x Hne). }
  rewrite Hmax. cbn [bind].
  destruct (py_min_ok d Hd) as (mn & Hmn). exists mn. split; [exact Hmn |].
  rewrite Hmn. cbn [bind]. rewrite Hsum, Hlen.
  destruct (Dbl.int_truediv _ _) as [avg |]; cbn [bind]; [| reflexivity].
  rewrite <- Hlen.
  rewrite (py_index_ok d (len d / 2) 0)
    by (split; [apply Z.div_pos; lia | apply Z.div_lt_upper_bound; lia]).
  cbn [bind]. unfold median_of. fold d.
  rewrite <- (sorted_length (durations (snd x))). reflexivity.
Qed.

Lemma part_row_of_group (i : Z) (x : text * stats) (r : part_row) :
  durations (snd x) <> [] -> part_row_of i x = Ok r ->
  pr_rank r = i + 1 /\ row_of_group x r.
Proof.
  intros Hne H. destruct (part_row_of_eq i x Hne) as (mn & _ & E).
  rewrite E in H.
  destruct (Dbl.int_truediv _ _) as [avg |] eqn:Ea; cbn [bind] in H; [| discriminate].
  apply int_truediv_inv in Ea. subst avg. injection H as <-.
  split; [reflexivity |]. unfold row_of_group.
  cbn [pr_partition pr_count pr_max pr_median pr_total pr_avg pr_status].
  repeat split; reflexivity.
Qed.

Lemma part_row_of_exn (i : Z) (x : text * stats) (e : exn) :
  durations (snd x) <> [] -> part_row_of i x = Raise e -> e = OverflowError.
Proof.
  intros Hne H. destruct (part_row_of_eq i x Hne) as (mn & _ & E).
  rewrite E in H.
  destruct (Dbl.int_truediv _ _) as [avg |] eqn:Ea; cbn [bind] in H; [discriminate |].
  injection H as <-. refine (int_truediv_exn _ _ _ _ Ea).
  unfold group_count. pose proof (len_nonempty _ Hne). lia.
Qed.

(** With durations of at most 53 bits the average of a group stays below
    [2^53]: the row is computed. *)
Lemma part_row_of_ok (i : Z) (x : text * stats) :
  durations (snd x) <> [] ->
  (forall d, In d (durations (snd x)) -> 0 <= d < 2 ^ 53) ->
  exists r, part_row_of i x = Ok r.
Proof.
  intros Hne Hb. destruct (part_row_of_eq i x Hne) as (mn & _ & ->).
  destruct (py_max_spec _ Hne) as (m & _ & Hin & Hub).
  pose proof (Hb m Hin) as Hm.
  assert (Hsum : 0 * len (durations (snd x)) <= sum (durations (snd x))
                 <= m * len (durations (snd x))).
  { apply sum_between. intros d Hd. split; [apply (Hb d Hd) | now apply Hub]. }
  pose proof (len_nonempty _ Hne) as Hn.
  unfold group_count.
  rewrite (int_truediv_ok _ _ m) by lia. cbn [bind]. eexists. reflexivity.
Qed.

Lemma rows_from_group (sp : list (text * stats)) (i : Z) (rows : list part_row) :
  Forall (fun x => durations (snd x) <> []) sp ->
  rows_from part_row_of i sp = Ok rows -> Forall2 row_of_group sp rows.
Proof.
  intros H. revert i rows. induction H as [| x xs Hx Hxs IH]; intros i rows E;
    cbn [rows_from] in E.
  - injection E as <-. constructor.
  - destruct (part_row_of i x) as [r |] eqn:Er; cbn [bind] in E; [| discriminate].
    destruct (rows_from part_row_of (i + 1) xs) as [rs |] eqn:Ers;
      cbn [bind] in E; [| discriminate].
    injection E as <-. constructor.
    + exact (proj2 (part_row_of_group i x r Hx Er)).
    + exact (IH (i + 1) rs Ers).
Qed.

Lemma rows_from_exn (sp : list (text * stats)) (i : Z) (e : exn) :
  Forall (fun x => durations (snd x) <> []) sp ->
  rows_from part_row_of i sp = Raise e -> e = OverflowError.
Proof.
  intros H. revert i. induction H as [| x xs Hx Hxs IH]; intros i E;
    cbn [rows_from] in E; [discriminate |].
  destruct (part_row_of i x) as [r |] eqn:Er; cbn [bind] in E.
  - destruct (rows_from part_row_of (i + 1) xs) as [rs |] eqn:Ers;
      cbn [bind] in E; [discriminate |].
    injection E as <-. exact (IH (i + 1) Ers).
  - injection E as <-. exact (part_row_of_exn i x _ Hx Er).
Qed.

Lemma rows_from_ok (sp : list (text * stats)) (i : Z) :
  Forall (fun x => durations (snd x) <> [] /\
                   forall d, In d (durations (snd x)) -> 0 <= d < 2 ^ 53) sp ->
  exists rows, rows_from part_row_of i sp = Ok rows.
Proof.
  intros H. revert i. induction H as [| x xs [Hx Hb] Hxs IH]; intros i.
  - exists []. reflexivity.
  - destruct (part_row_of_ok i x Hx Hb) as (r & Hr).
    destruct (IH (i + 1)) as (rs & Hrs).
    exists (r :: rs). cbn [rows_from]. rewrite Hr. cbn [bind]. rewrite Hrs. reflexivity.
Qed.

Lemma sorted_groups_nonempty (entries : list entry) :
  Forall (fun x => durations (snd x) <> [])
         (stable_sort true group_max (part_stats entries)).
Proof.
  pose proof (gr_nonempty _ _ (part_stats_grouped entries)) as H.
  rewrite Forall_forall in *. intros x Hx. apply H.
  now apply (Permutation_in _ (stable_sort_perm true group_max _)).
Qed.

(** The rows of a summary that has been computed show the statistics of
    the ranked groups. *)
Lemma partition_summary_inv (entries : list entry) (rows : list part_row) :
  partition_summary entries = Ok rows ->
  Forall2 row_of_group (stable_sort true group_max (part_stats entries)) rows.
Proof.
  unfold partition_summary. rewrite sorted_parts_ok. cbn [bind].
  apply rows_from_group, sorted_groups_nonempty.
Qed.

(** The only exception of the summary is [OverflowError]. *)
Lemma partition_summary_exn (entries : list entry) (e : exn) :
  partition_summary entries = Raise e -> e = OverflowError.
Proof.
  unfold partition_summary. rewrite sorted_parts_ok. cbn [bind].
  apply rows_from_exn, sorted_groups_nonempty.
Qed.

(** With durations of at most 53 bits the summary is computed. *)
Lemma partition_summary_ok (entries : list entry) :
  (forall e, In e entries -> 0 <= duration_ms e < 2 ^ 53) ->
  exists rows,
    partition_summary entries = Ok rows /\
    Forall2 row_of_group (stable_sort true group_max (part_stats entries)) rows.
Proof.
  intros Hb.
  assert (H : exists rows, partition_summary entries = Ok rows).
  { unfold partition_summary. rewrite sorted_parts_ok. cbn [bind].
    apply rows_from_ok.
    pose proof (sorted_groups_nonempty entries) as Hne.
    rewrite Forall_forall in *. intros x Hx. split; [now apply Hne |].
    intros d Hd.
    apply (Permutation_in _ (stable_sort_perm true group_max _)) in Hx.
    destruct (group_member entries x d Hx Hd) as (e & He & _ & <-).
    now apply Hb. }
  destruct H as (rows & Hrows). exists rows. split; [exact Hrows |].
  now apply partition_summary_inv.
Qed.

Lemma Forall2_map_eq {A B C : Type} (R : A -> B -> Prop) (f : A -> C) (g : B -> C)
    (l : list A) (l' : list B) :
  (forall a b, R a b -> g b = f a) -> Forall2 R l l' ->
  List.map g l' = List.map f l.
Proof.
  intros H. induction 1 as [| a b l l' Hab _ IH]; [reflexivity |].
  cbn. now rewrite (H a b Hab), IH.
Qed.

Lemma Forall2_impl_in {A B : Type} (R S : A -> B -> Prop)
    (l : list A) (l' : list B) :
  (forall a b, In a l -> R a b -> S a b) -> Forall2 R l l' -> Forall2 S l l'.
Proof.
  intros H F. induction F as [| a b l l' Hab _ IH]; constructor.
  - apply H; [now left | exact Hab].
  - apply IH. intros x y Hx. apply H. now right.
Qed.

(** C6: the groups are ranked by non-increasing maximum duration, groups
    of equal maximum stand in the order in which their keys were first met in
    the parse order, and the roll counts of the groups add up to the number
    of entries; the rows of every summary that is computed show these groups
    in this order with these counts (the summary is computed when the
    durations are natural numbers below [2^53]; the average of a row raises
    [OverflowError] for larger ones). *)
Theorem C6_groups_ranked_by_max_duration (entries : list entry) :
  exists sp,
    sorted_parts entries = Ok sp /\
    Permutation sp (part_stats entries) /\
    List.map fst (part_stats entries) = first_seen (List.map partition entries) /\
    groups_of entries (part_stats entries) /\
    StronglySorted (fun a b => group_max b <= group_max a) sp /\
    (forall m, filter (fun x => group_max x =? m) sp
               = filter (fun x => group_max x =? m) (part_stats entries)) /\
    sum (List.map group_count sp) = len entries /\
    (forall rows, partition_summary entries = Ok rows ->
       Forall2 row_of_group sp rows /\
       sum (List.map pr_count rows) = len entries) /\
    ((forall e, In e entries -> 0 <= duration_ms e < 2 ^ 53) ->
     exists rows, partition_summary entries = Ok rows).
Proof.
  pose proof (part_stats_grouped entries) as G.
  exists (stable_sort true group_max (part_stats entries)).
  split; [apply sorted_parts_ok |].
  split; [apply stable_sort_perm |].
  split; [apply (gr_keys _ _ G) |].
  split; [apply (gr_groups _ _ G) |].
  split; [apply stable_sort_desc |].
  split; [intros m; apply stable_sort_stable |].
  assert (Hsum : sum (List.map group_count
                        (stable_sort true group_max (part_stats entries)))
                 = len entries).
  { rewrite <- (gr_counts _ _ G).
    apply sum_perm, Permutation_map, stable_sort_perm. }
  split; [exact Hsum |].
  split.
  - intros rows Hrows. pose proof (partition_summary_inv entries rows Hrows) as Hall.
    split; [exact Hall |].
    rewrite (Forall2_map_eq row_of_group group_count pr_count _ _
               (fun a b H => proj1 (proj2 H)) Hall).
    exact Hsum.
  - intros Hb. destruct (partition_summary_ok entries Hb) as (rows & Hrows & _).
    now exists rows.
Qed.

(** ** The median *)

Lemma median_of_in (l : list Z) : l <> [] -> In (median_of l) l.
Proof.
  intros Hne. pose proof (len_nonempty l Hne) as Hn.
  apply (Permutation_in _ (stable_sort_perm false (fun x => x) l)).
  unfold median_of. apply nth_In. fold (sorted l).
  pose proof (sorted_length l) as Hl. unfold len in *.
  assert (len l / 2 < len l) by (apply Z.div_lt_upper_bound; unfold len; lia).
  assert (0 <= len l / 2) by (apply Z.div_pos; unfold len; lia).
  unfold len in *. lia.
Qed.

Lemma sorted_ascending (l : list Z) : StronglySorted Z.le (sorted l).
Proof.
  eapply StronglySorted_weaken; [| apply stable_sort_sorted].
  intros a b H. unfold before in H. now apply Z.leb_le.
Qed.

(** C7: the median of a non-empty list of durations is the element at
    index [count // 2] of the ascending-sorted durations, one of the
    durations themselves (the larger of two, never a midpoint); it is the
    median of every row of a summary and of every dashboard that is computed
    (both are computed when the durations are natural numbers below [2^53]
    and the list has fewer than [2^63] entries); on the durations
    5, 1500, 50, 1200, 900 of one group the ranking is
    1500, 1200, 900, 50, 5 with SLOW, SLOW, MODERATE, OK, OK, the median is
    900 and the average, rounded to one digit, is 731. *)
Theorem C7_median_is_upper_middle_element :
  (forall l, l <> [] ->
     py_index (sorted l) (len (sorted l) / 2) = Ok (median_of l) /\
     In (median_of l) l) /\
  (forall entries rows,
     partition_summary entries = Ok rows ->
     Forall2 (fun x r => pr_median r = median_of (durations (snd x)) /\
                         In (pr_median r) (durations (snd x)))
             (stable_sort true group_max (part_stats entries)) rows) /\
  (forall entries ds,
     dashboard entries = Ok (Some ds) ->
     ds_median ds = median_of (List.map duration_ms entries) /\
     In (ds_median ds) (List.map duration_ms entries)) /\
  (forall entries,
     (forall e, In e entries -> 0 <= duration_ms e < 2 ^ 53) ->
     (exists rows, partition_summary entries = Ok rows) /\
     (entries <> [] -> len entries < 2 ^ 63 ->
      exists ds, dashboard entries = Ok (Some ds))) /\
  (forall l, StronglySorted Z.le (sorted l) /\ Permutation (sorted l) l) /\
  (forall a b, median_of [a; b] = Z.max a b) /\
  List.map duration_ms (sorted_entries scenario_entries) = [1500; 1200; 900; 50; 5] /\
  List.map (fun e => style_status (duration_ms e)) (sorted_entries scenario_entries)
    = [SLOW; SLOW; MODERATE; OK; OK] /\
  sorted (List.map duration_ms scenario_entries) = [5; 50; 900; 1200; 1500] /\
  (exists r, partition_summary scenario_entries = Ok [r] /\
             pr_count r = 5 /\ pr_median r = 900 /\
             Dbl.feqb (pr_avg r) (Dbl.of_int 731) = true) /\
  (exists ds, dashboard scenario_entries = Ok (Some ds) /\
              ds_median ds = 900 /\
              Dbl.feqb (ds_avg ds) (Dbl.of_int 731) = true).
Proof.
  split.
  { intros l Hne. split; [| now apply median_of_in].
    pose proof (len_nonempty l Hne) as Hn.
    unfold median_of. rewrite <- (sorted_length l).
    apply py_index_ok. rewrite (sorted_length l).
    split; [apply Z.div_pos; lia | apply Z.div_lt_upper_bound; lia]. }
  split.
  { intros entries rows Hrows.
    pose proof (partition_summary_inv entries rows Hrows) as Hall.
    pose proof (sorted_groups_nonempty entries) as Hne.
    rewrite Forall_forall in Hne.
    eapply Forall2_impl_in; [| exact Hall]. cbn beta.
    intros x r Hx (_ & _ & _ & Hm & _). split; [exact Hm |].
    rewrite Hm. apply median_of_in, Hne, Hx. }
  split.
  { intros entries ds Hds.
    destruct (dashboard_inv entries ds Hds)
      as (Hne & sl & mn & mx & _ & _ & _ & _ & _ & ->).
    cbn [ds_median].
    assert (E : nth (Z.to_nat (len (sorted (List.map duration_ms entries)) / 2))
                    (sorted (List.map duration_ms entries)) 0
                = median_of (List.map duration_ms entries)).
    { unfold median_of. now rewrite sorted_length. }
    rewrite E. split; [reflexivity |]. apply median_of_in.
    destruct entries; [congruence | discriminate]. }
  split.
  { intros entries Hb. split.
    - destruct (partition_summary_ok entries Hb) as (rows & Hrows & _).
      now exists rows.
    - intros Hne Hlt. exact (dashboard_ok entries Hne Hb Hlt). }
  split.
  { intros l. split; [apply sorted_ascending | apply stable_sort_perm]. }
  split.
  { intros a b. unfold median_of, sorted, len.
    cbn [List.length stable_sort insert]. change (Z.of_nat 2 / 2) with 1.
    unfold before. change (Z.to_nat 1) with 1%nat.
    destruct (Z.leb_spec a b); cbn [nth]; lia. }
  split; [vm_compute; reflexivity |].
  split; [vm_compute; reflexivity |].
  split; [vm_compute; reflexivity |].
  split.
  - eexists. split; [vm_compute; reflexivity |].
    cbn [pr_count pr_median pr_avg]. repeat split; vm_compute; reflexivity.
  - eexists. split; [vm_compute; reflexivity |].
    cbn [ds_median ds_avg]. repeat split; vm_compute; reflexivity.
Qed.

(** ** Sheet 4: the histogram *)

Lemma trunc_floor (x : Dbl.t) : Dbl.trunc x = Dbl.num x / Dbl.den x.
Proof.
  unfold Dbl.trunc, Dbl.num, Dbl.den.
  destruct (Z.le_gt_cases 0 (Dbl.expo x)) as [H | H].
  - rewrite Z.shiftl_mul_pow2 by exact H.
    rewrite (Z.max_r 0 (Dbl.expo x)), (Z.max_l 0 (- Dbl.expo x)) by lia.
    now rewrite Z.pow_0_r, Z.div_1_r.
  - rewrite (Z.max_l 0 (Dbl.expo x)), (Z.max_r 0 (- Dbl.expo x)) by lia.
    rewrite Z.pow_0_r, Z.mul_1_r.
    replace (Dbl.expo x) with (- (- Dbl.expo x)) at 1 by lia.
    rewrite Z.shiftl_opp_r. apply Z.shiftr_div_pow2. lia.
Qed.

Lemma den_pos (x : Dbl.t) : 0 < Dbl.den x.
Proof. unfold Dbl.den. apply Z.pow_pos_nonneg; lia. Qed.

Lemma trunc_is_floor (x : Dbl.t) :
  Dbl.trunc x * Dbl.den x <= Dbl.num x < (Dbl.trunc x + 1) * Dbl.den x.
Proof.
  rewrite trunc_floor. pose proof (den_pos x) as Hd.
  pose proof (Z.div_mod (Dbl.num x) (Dbl.den x) ltac:(lia)).
  pose proof (Z.mod_pos_bound (Dbl.num x) (Dbl.den x) Hd). nia.
Qed.

Lemma count_if_cons (p : Z -> bool) (d : Z) (l : list Z) :
  count_if p (d :: l) = (if p d then 1 else 0) + count_if p l.
Proof.
  unfold count_if, len. cbn [filter]. destruct (p d); cbn [List.length]; lia.
Qed.

Lemma count_if_nonneg (p : Z -> bool) (l : list Z) : 0 <= count_if p l.
Proof. unfold count_if, len. lia. Qed.

Lemma sum_counts_cons (B : list (string * Z * option Z)) (d : Z) (l : list Z) :
  sum (List.map (fun b => count_if (in_bucket (snd (fst b)) (snd b)) (d :: l)) B)
  = sum (List.map (indicator d) B)
    + sum (List.map (fun b => count_if (in_bucket (snd (fst b)) (snd b)) l) B).
Proof.
  induction B as [| b B IH]; [reflexivity |].
  cbn [List.map]. rewrite !sum_cons, IH, count_if_cons. unfold indicator. lia.
Qed.

(** Every non-negative duration lies in exactly one bucket. *)
Lemma one_bucket (d : Z) : 0 <= d -> sum (List.map (indicator d) buckets) = 1.
Proof.
  intros Hd. unfold buckets, indicator, in_bucket.
  cbn [List.map fst snd]. rewrite !sum_cons. unfold sum. cbn [fold_left].
  repeat match goal with
         | |- context [?a <=? ?b] =>
             destruct (Z.leb_spec a b); cbn [andb]; try lia
         end.
Qed.

Lemma bucket_counts_snd (l : list Z) :
  List.map snd (bucket_counts l)
  = List.map (fun b => count_if (in_bucket (snd (fst b)) (snd b)) l) buckets.
Proof. reflexivity. Qed.

Lemma bucket_counts_sum (l : list Z) :
  Forall (fun d => 0 <= d) l ->
  sum (List.map snd (bucket_counts l)) = len l.
Proof.
  rewrite bucket_counts_snd. induction 1 as [| d l Hd _ IH].
  - reflexivity.
  - rewrite sum_counts_cons, IH, one_bucket by exact Hd.
    unfold len. cbn [List.length]. lia.
Qed.

Lemma sum_nonpos (l : list Z) : (forall x, In x l -> x <= 0) -> sum l <= 0.
Proof.
  induction l as [| x xs IH]; intros H; [unfold sum; cbn; lia |].
  rewrite sum_cons. pose proof (H x ltac:(now left)).
  pose proof (IH ltac:(intros y Hy; apply H; now right)). lia.
Qed.

Lemma max_count_eq (l : list Z) :
  max_count (bucket_counts l) = py_max (List.map snd (bucket_counts l)).
Proof. reflexivity. Qed.

Lemma max_count_spec (l : list Z) :
  exists mx, max_count (bucket_counts l) = Ok mx /\
             In mx (List.map snd (bucket_counts l)) /\
             (forall c, In c (List.map snd (bucket_counts l)) -> c <= mx) /\
             (l <> [] -> Forall (fun d => 0 <= d) l -> 1 <= mx).
Proof.
  rewrite max_count_eq.
  destruct (py_max_spec (List.map snd (bucket_counts l)) ltac:(discriminate))
    as (mx & Hmx & Hin & Hub).
  exists mx. do 3 (split; [assumption |]).
  intros Hne Hpos. pose proof (bucket_counts_sum l Hpos) as Hsum.
  pose proof (len_nonempty l Hne) as Hlen.
  destruct (Z.le_gt_cases mx 0) as [Hle | Hgt]; [| lia].
  pose proof (sum_nonpos (List.map snd (bucket_counts l))
                ltac:(intros x Hx; specialize (Hub x Hx); lia)). lia.
Qed.

Lemma durations_nonneg (entries : list entry) :
  (forall e, In e entries -> 0 <= duration_ms e) ->
  Forall (fun d => 0 <= d) (List.map duration_ms entries).
Proof.
  intros H. rewrite Forall_forall. intros d Hd.
  apply in_map_iff in Hd. destruct Hd as (e & <- & He). now apply H.
Qed.

Lemma distribution_ok (entries : list entry) :
  entries <> [] ->
  (forall e, In e entries -> 0 <= duration_ms e) ->
  exists mx,
    max_count (bucket_counts (List.map duration_ms entries)) = Ok mx /\
    1 <= mx /\
    distribution entries
    = Ok (List.map (dist_row_value (len entries) mx)
                   (bucket_counts (List.map duration_ms entries))).
Proof.
  intros Hne Hpos.
  destruct (max_count_spec (List.map duration_ms entries)) as (mx & Hmx & _ & Hub & Hone).
  assert (H1 : 1 <= mx).
  { apply Hone; [| now apply durations_nonneg].
    destruct entries; [congruence | discriminate]. }
  exists mx. split; [exact Hmx |]. split; [exact H1 |].
  unfold distribution. rewrite Hmx. cbn [bind].
  apply mapM_ok. intros [label count] Hb.
  assert (Hcnt : 0 <= count <= len entries /\ count <= mx).
  { split; [| apply Hub; change count with (snd (label, count)); now apply in_map].
    unfold bucket_counts in Hb. apply in_map_iff in Hb.
    destruct Hb as ([[lbl lo] hi] & [= _ <-] & _).
    split; [apply count_if_nonneg |].
    replace (len entries) with (len (List.map duration_ms entries))
      by (unfold len; now rewrite length_map).
    apply count_if_le_len. }
  unfold dist_row_of, dist_row_value. cbn [fst snd].
  pose proof (len_nonempty entries Hne) as Hlen.
  destruct entries as [| e es]; [congruence |].
  rewrite (int_truediv_ok count (len (e :: es)) 1) by lia. cbn [bind].
  rewrite (int_truediv_ok count mx 1) by lia. reflexivity.
Qed.




(** C1: on the empty entry list every bucket count is [0], the divisor
    [mx] is the maximum [0] of the nine counts (the list of buckets is never
    empty, so the fallback [1] is not taken), the first visual weight raises
    [ZeroDivisionError] and [create_excel], whose earlier sheets pass, ends
    with that exception. *)
Theorem C1_empty_distribution_raises :
  List.map snd (bucket_counts []) = repeat 0 9%nat /\
  max_count (bucket_counts []) = Ok 0 /\
  partition_summary [] = Ok [] /\
  dashboard [] = Ok None /\
  distribution [] = Raise ZeroDivisionError /\
  create_excel [] = Raise ZeroDivisionError.
Proof. repeat split; vm_compute; reflexivity. Qed.

(** C4 as stated fails: with seventeen rolls in the first bucket and one
    in the second, the second bar has [int(1 / 17 * 30) = 1] characters
    while [round(1 / 17 * 30)] is [2]. *)
Lemma C4_visual_weight_is_not_rounded :
  exists rows r q,
    distribution skewed_entries = Ok rows /\
    max_count (bucket_counts (List.map duration_ms skewed_entries)) = Ok 17 /\
    nth_error rows 1 = Some r /\
    dr_count r = 1 /\
    Dbl.int_truediv 1 17 = Ok q /\
    dr_visual r = 1 /\
    Dbl.round_int (Dbl.mul q (Dbl.of_int 30)) = 2.
Proof.
  do 3 eexists. split; [vm_compute; reflexivity |].
  split; [vm_compute; reflexivity |].
  split; [cbn [nth_error]; reflexivity |].
  split; [reflexivity |].
  split; [vm_compute; reflexivity |].
  split; vm_compute; reflexivity.
Qed.

(** C4, amended: with at least one entry (durations being non-negative)
    every bucket's visual weight is [int(count / mx * 30)], where [mx >= 1]
    is the largest bucket count: the float [count / mx * 30] truncated, that
    is the largest integer not above its exact value. *)
Theorem C4_visual_weight_truncates (entries : list entry) :
  entries <> [] ->
  (forall e, In e entries -> 0 <= duration_ms e) ->
  exists mx rows,
    max_count (bucket_counts (List.map duration_ms entries)) = Ok mx /\
    1 <= mx /\
    distribution entries = Ok rows /\
    Forall2 (fun b r =>
               dr_count r = snd b /\
               exists q, Dbl.int_truediv (snd b) mx = Ok q /\
                 let x := Dbl.mul q (Dbl.of_int 30) in
                 dr_visual r = Dbl.trunc x /\
                 dr_visual r * Dbl.den x <= Dbl.num x
                   < (dr_visual r + 1) * Dbl.den x)
            (bucket_counts (List.map duration_ms entries)) rows.
Proof.
  intros Hne Hpos.
  destruct (distribution_ok entries Hne Hpos) as (mx & Hmx & H1 & Hd).
  exists mx. eexists. split; [exact Hmx |]. split; [exact H1 |].
  split; [exact Hd |].
  assert (Hcnt : Forall (fun b => 0 <= snd b <= mx)
                        (bucket_counts (List.map duration_ms entries))).
  { destruct (max_count_spec (List.map duration_ms entries))
      as (mx' & Hmx' & _ & Hub & _).
    rewrite Hmx in Hmx'. injection Hmx' as <-.
    rewrite Forall_forall. intros b Hb.
    split; [| apply Hub; now apply in_map].
    unfold bucket_counts in Hb. apply in_map_iff in Hb.
    destruct Hb as ([[lbl lo] hi] & <- & _). cbn [snd]. apply count_if_nonneg. }
  clear Hmx Hd.
  induction Hcnt as [| b bc Hb _ IH]; cbn [List.map]; constructor; [| exact IH].
  unfold dist_row_value. cbn [dr_count dr_visual]. split; [reflexivity |].
  exists (Dbl.round_ratio (snd b) mx).
  split; [apply (int_truediv_ok _ _ 1); lia |].
  cbn zeta. split; [reflexivity | apply trunc_is_floor].
Qed.

(** C8: for non-negative durations every duration lies in exactly one of
    the nine buckets, the bucket counts add up to the number of entries, and
    the rows keep the order in which the buckets are defined. *)
Theorem C8_buckets_partition_durations (entries : list entry) :
  (forall e, In e entries -> 0 <= duration_ms e) ->
  (forall d, 0 <= d ->
     List.length (filter (fun b => in_bucket (snd (fst b)) (snd b) d) buckets)
     = 1%nat) /\
  sum (List.map snd (bucket_counts (List.map duration_ms entries))) = len entries /\
  List.map fst (bucket_counts (List.map duration_ms entries))
    = List.map (fun b => fst (fst b)) buckets /\
  (forall rows, distribution entries = Ok rows ->
     List.map dr_label rows = List.map (fun b => fst (fst b)) buckets /\
     List.map dr_count rows
       = List.map snd (bucket_counts (List.map duration_ms entries))) /\
  (entries <> [] -> exists rows, distribution entries = Ok rows).
Proof.
  intros Hpos. split.
  { intros d Hd. unfold buckets, in_bucket. cbn [filter fst snd].
    repeat match goal with
           | |- context [?a <=? ?b] =>
               destruct (Z.leb_spec a b); cbn [andb List.length]; try lia
           end. }
  split.
  { rewrite bucket_counts_sum by now apply durations_nonneg.
    unfold len. now rewrite length_map. }
  split; [reflexivity |].
  split.
  - intros rows Hrows. destruct entries as [| e es].
    + vm_compute in Hrows. discriminate.
    + destruct (distribution_ok (e :: es) ltac:(discriminate) Hpos)
        as (mx & _ & _ & Hd).
      rewrite Hd in Hrows. injection Hrows as <-.
      split; reflexivity.
  - intros Hne. destruct (distribution_ok entries Hne Hpos) as (mx & _ & _ & Hd).
    eexists. exact Hd.
Qed.

(** ** The regular expression matcher *)

Lemma rep_greedy_sound {R : Type} (p : char -> bool) (lo : nat) (hi : option nat)
    (s : text) (k : text -> option R) (x : R) (n : nat) :
  Re.rep_greedy p lo hi n s k = Some x ->
  exists w s', s = w ++ s' /\ forallb p w = true /\
               (lo <= n + List.length w)%nat /\
               match hi with
               | Some h => (n <= h -> n + List.length w <= h)%nat
               | None => True
               end /\
               k s' = Some x.
Proof.
  revert n. induction s as [| c s IH]; intros n H.
  - cbn in H. destruct (Nat.leb_spec lo n); [| discriminate].
    exists [], []. cbn. repeat split; try lia; [destruct hi; [lia | exact I] | exact H].
  - cbn [Re.rep_greedy] in H.
    assert (Hstop : (if (lo <=? n)%nat then k (c :: s) else None) = Some x ->
                    exists w s', c :: s = w ++ s' /\ forallb p w = true /\
                      (lo <= n + List.length w)%nat /\
                      match hi with
                      | Some h => (n <= h -> n + List.length w <= h)%nat
                      | None => True
                      end /\ k s' = Some x).
    { intros Hs. destruct (Nat.leb_spec lo n); [| discriminate].
      exists [], (c :: s). cbn.
      repeat split; try lia; [destruct hi; [lia | exact I] | exact Hs]. }
    destruct (p c && Re.under hi n) eqn:E; [| now apply Hstop].
    destruct (Re.rep_greedy p lo hi (S n) s k) as [y |] eqn:E'; [| now apply Hstop].
    injection H as ->. apply andb_true_iff in E. destruct E as [Hp Hu].
    destruct (IH _ E') as (w & s' & -> & Hw & Hlo & Hhi & Hk).
    exists (c :: w), s'. cbn [forallb List.length app]. rewrite Hp, Hw.
    repeat split; try lia; [| exact Hk].
    destruct hi as [h |]; [| exact I]. cbn in Hu. apply Nat.ltb_lt in Hu. lia.
Qed.

Lemma rep_lazy_sound {R : Type} (p : char -> bool) (lo : nat) (hi : option nat)
    (s : text) (k : text -> option R) (x : R) (n : nat) :
  Re.rep_lazy p lo hi n s k = Some x ->
  exists w s', s = w ++ s' /\ forallb p w = true /\
               (lo <= n + List.length w)%nat /\
               match hi with
               | Some h => (n <= h -> n + List.length w <= h)%nat
               | None => True
               end /\
               k s' = Some x.
Proof.
  revert n. induction s as [| c s IH]; intros n H.
  - cbn in H. destruct (Nat.leb_spec lo n); [| discriminate].
    exists [], []. cbn. repeat split; try lia; [destruct hi; [lia | exact I] | exact H].
  - cbn [Re.rep_lazy] in H.
    assert (Hmore : (if p c && Re.under hi n
                     then Re.rep_lazy p lo hi (S n) s k else None) = Some x ->
                    exists w s', c :: s = w ++ s' /\ forallb p w = true /\
                      (lo <= n + List.length w)%nat /\
                      match hi with
                      | Some h => (n <= h -> n + List.length w <= h)%nat
                      | None => True
                      end /\ k s' = Some x).
    { intros Hm. destruct (p c && Re.under hi n) eqn:E; [| discriminate].
      apply andb_true_iff in E. destruct E as [Hp Hu].
      destruct (IH _ Hm) as (w & s' & -> & Hw & Hlo & Hhi & Hk).
      exists (c :: w), s'. cbn [forallb List.length app]. rewrite Hp, Hw.
      repeat split; try lia; [| exact Hk].
      destruct hi as [h |]; [| exact I]. cbn in Hu. apply Nat.ltb_lt in Hu. lia. }
    destruct (Nat.leb_spec lo n); [| now apply Hmore].
    destruct (k (c :: s)) as [y |] eqn:E; [| now apply Hmore].
    injection H as ->. exists [], (c :: s). cbn.
    repeat split; try lia; [destruct hi; [lia | exact I] | exact E].
Qed.

Lemma firstn_consumed {A : Type} (w s : list A) :
  firstn (List.length (w ++ s) - List.length s) (w ++ s) = w.
Proof.
  rewrite length_app. replace (List.length w + List.length s - List.length s)%nat
    with (List.length w + 0)%nat by lia.
  rewrite firstn_app_2. cbn. apply app_nil_r.
Qed.

Lemma run_sound {R : Type} (r : Re.t) :
  forall (s : text) (caps : list text) (k : text -> list text -> option R) (x : R),
    Re.run r s caps k = Some x ->
    exists w c s', s = w ++ s' /\ matches r w c /\ k s' (caps ++ c) = Some x.
Proof.
  induction r as [| p | p lo hi g | r1 IH1 r2 IH2 | r1 IH1 r2 IH2 | r IH];
    intros s caps k x H; cbn [Re.run] in H.
  - exists [], [], s. rewrite app_nil_r. repeat split; [constructor | exact H].
  - destruct s as [| c s]; [discriminate |].
    destruct (p c) eqn:E; [| discriminate].
    exists [c], [], s. rewrite app_nil_r.
    repeat split; [now constructor | exact H].
  - assert (Hs : exists w s', s = w ++ s' /\ forallb p w = true /\
                   (lo <= 0 + List.length w)%nat /\
                   match hi with
                   | Some h => (0 <= h -> 0 + List.length w <= h)%nat
                   | None => True
                   end /\ k s' caps = Some x).
    { destruct g; [apply (rep_greedy_sound _ _ _ _ _ _ _ H)
                  | apply (rep_lazy_sound _ _ _ _ _ _ _ H)]. }
    destruct Hs as (w & s' & -> & Hw & Hlo & Hhi & Hk).
    exists w, [], s'. rewrite app_nil_r. repeat split; [| exact Hk].
    constructor; [exact Hw | lia | destruct hi; [lia | exact I]].
  - destruct (IH1 _ _ _ _ H) as (w1 & c1 & s1 & -> & M1 & H1).
    destruct (IH2 _ _ _ _ H1) as (w2 & c2 & s2 & -> & M2 & H2).
    exists (w1 ++ w2), (c1 ++ c2), s2.
    rewrite <- !app_assoc in *. repeat split; [now constructor | exact H2].
  - destruct (Re.run r1 s caps k) as [y |] eqn:E.
    + injection H as ->. destruct (IH1 _ _ _ _ E) as (w & c & s' & -> & M & Hk).
      exists w, c, s'. repeat split; [now apply M_alt_l | exact Hk].
    + destruct (IH2 _ _ _ _ H) as (w & c & s' & -> & M & Hk).
      exists w, c, s'. repeat split; [now apply M_alt_r | exact Hk].
  - destruct (IH _ _ _ _ H) as (w & c & s' & -> & M & Hk).
    rewrite firstn_consumed in Hk.
    exists w, (c ++ [w]), s'. rewrite app_assoc.
    repeat split; [now constructor | exact Hk].
Qed.

Lemma search_sound (r : Re.t) (s : text) (caps : list text) :
  Re.search r s = Some caps -> exists w, matches r w caps.
Proof.
  induction s as [| c s IH]; cbn [Re.search]; intros H.
  - destruct (Re.run r [] [] (fun _ caps => Some caps)) as [y |] eqn:E;
      [| discriminate].
    injection H as ->. destruct (run_sound _ _ _ _ _ E) as (w & c & s' & _ & M & Hk).
    cbn in Hk. injection Hk as <-. now exists w.
  - destruct (Re.run r (c :: s) [] (fun _ caps => Some caps)) as [y |] eqn:E;
      [| now apply IH].
    injection H as ->. destruct (run_sound _ _ _ _ _ E) as (w & c' & s' & _ & M & Hk).
    cbn in Hk. injection Hk as <-. now exists w.
Qed.

Lemma group_free_no_captures (r : Re.t) (w : text) (c : list text) :
  group_free r = true -> matches r w c -> c = [].
Proof.
  intros G M. induction M; cbn [group_free] in G;
    try apply andb_true_iff in G; try reflexivity.
  - destruct G as [G1 G2]. now rewrite IHM1, IHM2.
  - destruct G as [G1 G2]. auto.
  - destruct G as [G1 G2]. auto.
  - discriminate.
Qed.

Lemma matches_seq_inv (r1 r2 : Re.t) (w : text) (c : list text) :
  matches (Re.Seq r1 r2) w c ->
  exists w1 w2 c1 c2, w = w1 ++ w2 /\ c = c1 ++ c2 /\
                      matches r1 w1 c1 /\ matches r2 w2 c2.
Proof. intros H. inversion H; subst. now exists w1, w2, c1, c2. Qed.

Lemma matches_eps_inv (w : text) (c : list text) :
  matches Re.Eps w c -> w = [] /\ c = [].
Proof. intros H. now inversion H. Qed.

Lemma matches_chr_inv (p : char -> bool) (w : text) (c : list text) :
  matches (Re.Chr p) w c -> exists ch, w = [ch] /\ c = [] /\ p ch = true.
Proof. intros H. inversion H; subst. now exists c0. Qed.

Lemma matches_rep_inv (p : char -> bool) (lo : nat) (hi : option nat) (g : bool)
    (w : text) (c : list text) :
  matches (Re.Rep p lo hi g) w c ->
  c = [] /\ forallb p w = true /\ (lo <= List.length w)%nat /\
  match hi with Some h => (List.length w <= h)%nat | None => True end.
Proof. intros H. now inversion H. Qed.

Lemma matches_grp_inv (r : Re.t) (w : text) (c : list text) :
  matches (Re.Grp r) w c -> exists c', c = c' ++ [w] /\ matches r w c'.
Proof. intros H. inversion H; subst. now exists c0. Qed.

Lemma matches_seq_cons (r : Re.t) (rs : list Re.t) (w : text) (c : list text) :
  matches (Re.seq (r :: rs)) w c ->
  exists w1 w2 c1 c2, w = w1 ++ w2 /\ c = c1 ++ c2 /\
                      matches r w1 c1 /\ matches (Re.seq rs) w2 c2.
Proof. apply matches_seq_inv. Qed.

Lemma matches_lit (s : string) (w : text) (c : list text) :
  matches (Re.lit s) w c -> w = txt s /\ c = [].
Proof.
  unfold Re.lit, txt. revert w c.
  induction (list_ascii_of_string s) as [| a l IH]; intros w c H.
  - now apply matches_eps_inv in H.
  - apply matches_seq_cons in H.
    destruct H as (w1 & w2 & c1 & c2 & -> & -> & H1 & H2).
    apply matches_chr_inv in H1. destruct H1 as (ch & -> & -> & E).
    apply N.eqb_eq in E. subst ch.
    destruct (IH _ _ H2) as [-> ->]. now split.
Qed.

Lemma matches_grp_free (r : Re.t) (w : text) (c : list text) :
  group_free r = true -> matches (Re.Grp r) w c -> c = [w] /\ matches r w [].
Proof.
  intros G H. apply matches_grp_inv in H. destruct H as (c' & -> & M).
  pose proof (group_free_no_captures _ _ _ G M) as ->. now split.
Qed.

Lemma matches_times (n : nat) (p : char -> bool) (w : text) (c : list text) :
  matches (Re.times n p) w c ->
  c = [] /\ forallb p w = true /\ List.length w = n.
Proof.
  intros H. apply matches_rep_inv in H. destruct H as (-> & Hw & Hlo & Hhi).
  repeat split; [exact Hw | lia].
Qed.

Lemma matches_plus (p : char -> bool) (w : text) (c : list text) :
  matches (Re.plus p) w c -> c = [] /\ forallb p w = true /\ w <> [].
Proof.
  intros H. apply matches_rep_inv in H. destruct H as (-> & Hw & Hlo & _).
  repeat split; [exact Hw |]. intros ->. cbn in Hlo. lia.
Qed.

(** The groups of a match of [LINE_PATTERN]. *)
Lemma line_pattern_groups (rt : runtime) (line : text) (caps : list text) :
  Re.search (LINE_PATTERN rt) line = Some caps ->
  exists ts part dir off dur,
    caps = [ts; part; dir; off; dur] /\
    digits_text rt off /\ digits_text rt dur /\
    exists Y m d ws H M S f,
      ts = Y ++ txt "-" ++ m ++ txt "-" ++ d ++ ws
             ++ H ++ txt ":" ++ M ++ txt ":" ++ S ++ txt "," ++ f /\
      List.length Y = 4%nat /\ List.length m = 2%nat /\ List.length d = 2%nat /\
      List.length H = 2%nat /\ List.length M = 2%nat /\ List.length S = 2%nat /\
      forallb (is_digit rt) (Y ++ m ++ d ++ H ++ M ++ S ++ f) = true /\
      forallb (is_space rt) ws = true /\ ws <> [] /\ f <> [].
Proof.
  intros Hs. apply search_sound in Hs. destruct Hs as (w & Hm).
  unfold LINE_PATTERN in Hm.
  repeat (apply matches_seq_cons in Hm;
          let w1 := fresh "w" in let c1 := fresh "c" in
          let H1 := fresh "Hi" in
          destruct Hm as (w1 & ? & c1 & ? & -> & -> & H1 & Hm)).
  apply matches_eps_inv in Hm. destruct Hm as [-> ->].
  repeat match goal with
         | H : matches (Re.lit _) _ _ |- _ =>
             apply matches_lit in H; destruct H as [-> ->]
         | H : matches (Re.plus _) _ _ |- _ =>
             apply matches_plus in H; destruct H as (-> & ? & ?)
         | H : matches (Re.star _) _ _ |- _ =>
             apply matches_rep_inv in H; destruct H as (-> & _)
         | H : matches (Re.Grp (Re.plus _)) _ _ |- _ =>
             apply matches_grp_free in H; [| reflexivity];
             destruct H as (-> & H); apply matches_plus in H;
             destruct H as (_ & ? & ?)
         | H : matches (Re.Grp (Re.plus_lazy _)) _ _ |- _ =>
             apply matches_grp_free in H; [| reflexivity];
             destruct H as (-> & _)
         end.
  match goal with
  | H : matches (Re.Grp (Re.seq _)) _ _ |- _ =>
      apply matches_grp_free in H; [| reflexivity]; destruct H as (-> & Hts)
  end.
  repeat (apply matches_seq_cons in Hts;
          let w1 := fresh "t" in let H1 := fresh "Ht" in
          destruct Hts as (w1 & ? & ? & ? & -> & _ & H1 & Hts)).
  apply matches_eps_inv in Hts. destruct Hts as [-> _].
  repeat match goal with
         | H : matches (Re.lit _) _ _ |- _ =>
             apply matches_lit in H; destruct H as [-> _]
         | H : matches (Re.plus _) _ _ |- _ =>
             apply matches_plus in H; destruct H as (_ & ? & ?)
         | H : matches (Re.times _ _) _ _ |- _ =>
             apply matches_times in H; destruct H as (_ & ? & ?)
         end.
  cbn [app]. do 5 eexists. split; [reflexivity |].
  split; [split; assumption |]. split; [split; assumption |].
  rewrite app_nil_r. do 8 eexists.
  split; [reflexivity |].
  repeat (split; [assumption |]).
  rewrite !forallb_app.
  repeat match goal with H : forallb _ _ = true |- _ => rewrite H; clear H end.
  repeat split; assumption.
Qed.

(** ** Runs of the matcher that go through *)

Lemma leads_eps (rest : text) : leads Re.Eps [] [] rest.
Proof. intros R caps k x H. cbn. now rewrite app_nil_r in H. Qed.

Lemma leads_chr (p : char -> bool) (c : char) (rest : text) :
  p c = true -> leads (Re.Chr p) [c] [] rest.
Proof. intros Hp R caps k x H. cbn. rewrite Hp. now rewrite app_nil_r in H. Qed.

Lemma leads_seq (r1 r2 : Re.t) (w1 w2 : text) (c1 c2 : list text) (rest : text) :
  leads r1 w1 c1 (w2 ++ rest) -> leads r2 w2 c2 rest ->
  leads (Re.Seq r1 r2) (w1 ++ w2) (c1 ++ c2) rest.
Proof.
  intros H1 H2 R caps k x H. cbn [Re.run]. rewrite <- app_assoc.
  apply H1. apply H2. now rewrite <- app_assoc.
Qed.

Lemma leads_seq_cons (r : Re.t) (rs : list Re.t) (w1 w2 : text)
    (c1 c2 : list text) (rest : text) :
  leads r w1 c1 (w2 ++ rest) -> leads (Re.seq rs) w2 c2 rest ->
  leads (Re.seq (r :: rs)) (w1 ++ w2) (c1 ++ c2) rest.
Proof. apply leads_seq. Qed.

Lemma leads_grp (r : Re.t) (w : text) (rest : text) :
  leads r w [] rest -> leads (Re.Grp r) w [w] rest.
Proof.
  intros H R caps k x Hk. cbn [Re.run]. apply H.
  rewrite firstn_consumed, app_nil_r. exact Hk.
Qed.

Lemma leads_alt_l (r1 r2 : Re.t) (w : text) (c : list text) (rest : text) :
  leads r1 w c rest -> leads (Re.Alt r1 r2) w c rest.
Proof. intros H R caps k x Hk. cbn [Re.run]. now rewrite (H _ _ _ _ Hk). Qed.

Lemma leads_alt_r (r1 r2 : Re.t) (w : text) (c : list text) (rest : text) :
  fails r1 (w ++ rest) -> leads r2 w c rest -> leads (Re.Alt r1 r2) w c rest.
Proof. intros F H R caps k x Hk. cbn [Re.run]. rewrite F. now apply H. Qed.

Lemma leads_lit (s : string) (rest : text) : leads (Re.lit s) (txt s) [] rest.
Proof.
  unfold Re.lit, txt. induction (list_ascii_of_string s) as [| a l IH].
  - apply leads_eps.
  - cbn [List.map]. apply (leads_seq_cons _ _ [_] _ [] []); [| exact IH].
    apply leads_chr. apply N.eqb_refl.
Qed.

Lemma rep_greedy_leads {R : Type} (p : char -> bool) (lo : nat) (hi : option nat)
    (rest : text) (k : text -> option R) (x : R) (w : text) :
  forall n,
    forallb p w = true -> (lo <= n + List.length w)%nat ->
    match hi with Some h => (n + List.length w <= h)%nat | None => True end ->
    stops p rest -> k rest = Some x ->
    Re.rep_greedy p lo hi n (w ++ rest) k = Some x.
Proof.
  induction w as [| a w IH]; intros n Hw Hlo Hhi Hstop Hk.
  - cbn [app]. cbn in Hlo. assert (E : (lo <=? n)%nat = true) by (apply Nat.leb_le; lia).
    destruct rest as [| c rest']; cbn [Re.rep_greedy]; rewrite E; [exact Hk |].
    cbn in Hstop. rewrite Hstop. exact Hk.
  - cbn [app Re.rep_greedy]. cbn [forallb] in Hw. apply andb_true_iff in Hw.
    destruct Hw as [Ha Hw]. cbn [List.length] in *. rewrite Ha.
    assert (Hu : Re.under hi n = true).
    { destruct hi as [h |]; [| reflexivity]. cbn. apply Nat.ltb_lt. lia. }
    rewrite Hu. cbn [andb].
    assert (Hhi' : match hi with
                   | Some h => (S n + List.length w <= h)%nat
                   | None => True
                   end) by (destruct hi; [lia | exact I]).
    now rewrite (IH (S n) Hw ltac:(lia) Hhi' Hstop Hk).
Qed.

Lemma leads_rep_greedy (p : char -> bool) (lo : nat) (hi : option nat)
    (w rest : text) :
  forallb p w = true -> (lo <= List.length w)%nat ->
  match hi with Some h => (List.length w <= h)%nat | None => True end ->
  stops p rest ->
  leads (Re.Rep p lo hi true) w [] rest.
Proof.
  intros Hw Hlo Hhi Hstop R caps k x Hk. cbn [Re.run].
  assert (Hhi' : match hi with
                 | Some h => (0 + List.length w <= h)%nat
                 | None => True
                 end) by (destruct hi; [lia | exact I]).
  apply (rep_greedy_leads p lo hi rest _ x w 0%nat Hw ltac:(lia) Hhi' Hstop).
  now rewrite app_nil_r in Hk.
Qed.

(** ** Digits *)

Lemma ascii_digit_cases (c : char) :
  in_range "0" "9" c = true ->
  In c [48; 49; 50; 51; 52; 53; 54; 55; 56; 57]%N.
Proof.
  unfold in_range, chr. cbn [N_of_ascii N_of_digits].
  rewrite andb_true_iff, !N.leb_le. cbn. intros [H1 H2].
  assert (c = 48 \/ c = 49 \/ c = 50 \/ c = 51 \/ c = 52 \/ c = 53 \/ c = 54
          \/ c = 55 \/ c = 56 \/ c = 57)%N by lia.
  intuition.
Qed.

Lemma ascii_digit_is_digit (rt : runtime) (c : char) :
  in_range "0" "9" c = true -> is_digit rt c = true.
Proof.
  intros H. unfold is_digit. rewrite H.
  apply ascii_digit_cases in H. cbn [In] in H.
  intuition subst; reflexivity.
Qed.

Lemma digit_not_space (rt : runtime) (c : char) :
  runtime_ok rt -> is_digit rt c = true -> is_space rt c = false.
Proof.
  intros [Hok _ _]. unfold is_digit, is_space.
  destruct (N.ltb_spec c 128) as [Hlt | Hge].
  - intros H. apply ascii_digit_cases in H. cbn [In] in H.
    intuition subst; reflexivity.
  - destruct (uni_space rt c) eqn:E; [| reflexivity].
    rewrite (Hok c E). discriminate.
Qed.

(** ** The fields of [FORMAT_REGEX] on two ASCII digits *)

Ltac digit_cases D1 D2 :=
  apply ascii_digit_cases in D1; apply ascii_digit_cases in D2;
  cbn [In] in D1, D2;
  repeat match goal with
         | H : _ \/ _ |- _ => destruct H as [H | H]
         | H : False |- _ => destruct H
         end;
  subst.

Ltac field_leads Hr :=
  try (exfalso; cbn in Hr; lia);
  apply leads_grp;
  let R := fresh "R" in let caps := fresh "caps" in let k := fresh "k" in
  let x := fresh "x" in let Hk := fresh "Hk" in
  intros R caps k x Hk; rewrite app_nil_r in Hk;
  cbn; repeat (rewrite Hk; cbn); reflexivity.

Lemma leads_month (c1 c2 : char) (rest : text) :
  in_range "0" "9" c1 = true -> in_range "0" "9" c2 = true ->
  1 <= number [c1; c2] <= 12 ->
  leads (Re.Grp (Re.alt (Re.Seq (Re.lit "1") (Re.rng "0" "2"))
                        [ Re.Seq (Re.lit "0") (Re.rng "1" "9"); Re.rng "1" "9" ]))
        [c1; c2] [[c1; c2]] rest.
Proof. intros D1 D2 Hr. digit_cases D1 D2; field_leads Hr. Qed.

Lemma leads_day (rt : runtime) (c1 c2 : char) (rest : text) :
  in_range "0" "9" c1 = true -> in_range "0" "9" c2 = true ->
  1 <= number [c1; c2] <= 31 ->
  leads (Re.Grp (Re.alt (Re.Seq (Re.lit "3") (Re.rng "0" "1"))
                        [ Re.Seq (Re.rng "1" "2") (digit rt);
                          Re.Seq (Re.lit "0") (Re.rng "1" "9");
                          Re.rng "1" "9";
                          Re.Seq (Re.lit " ") (Re.rng "1" "9") ]))
        [c1; c2] [[c1; c2]] rest.
Proof. intros D1 D2 Hr. digit_cases D1 D2; field_leads Hr. Qed.

Lemma leads_hour (rt : runtime) (c1 c2 : char) (rest : text) :
  in_range "0" "9" c1 = true -> in_range "0" "9" c2 = true ->
  number [c1; c2] <= 23 ->
  leads (Re.Grp (Re.alt (Re.Seq (Re.lit "2") (Re.rng "0" "3"))
                        [ Re.Seq (Re.rng "0" "1") (digit rt); digit rt ]))
        [c1; c2] [[c1; c2]] rest.
Proof. intros D1 D2 Hr. digit_cases D1 D2; field_leads Hr. Qed.

Lemma leads_minute (rt : runtime) (c1 c2 : char) (rest : text) :
  in_range "0" "9" c1 = true -> in_range "0" "9" c2 = true ->
  number [c1; c2] <= 59 ->
  leads (Re.Grp (Re.alt (Re.Seq (Re.rng "0" "5") (digit rt)) [ digit rt ]))
        [c1; c2] [[c1; c2]] rest.
Proof. intros D1 D2 Hr. digit_cases D1 D2; field_leads Hr. Qed.

Lemma leads_second (rt : runtime) (c1 c2 : char) (rest : text) :
  in_range "0" "9" c1 = true -> in_range "0" "9" c2 = true ->
  number [c1; c2] <= 59 ->
  leads (Re.Grp (Re.alt (Re.Seq (Re.lit "6") (Re.rng "0" "1"))
                        [ Re.Seq (Re.rng "0" "5") (digit rt); digit rt ]))
        [c1; c2] [[c1; c2]] rest.
Proof. intros D1 D2 Hr. digit_cases D1 D2; field_leads Hr. Qed.

(** ** [int] and [strip] on digit texts *)

Lemma lstrip_head (rt : runtime) (c : char) (s : text) :
  is_space rt c = false -> lstrip rt (c :: s) = c :: s.
Proof. intros H. unfold lstrip. now rewrite H. Qed.

Lemma lstrip_spaces (rt : runtime) (ws s : text) :
  forallb (is_space rt) ws = true -> lstrip rt (ws ++ s) = lstrip rt s.
Proof.
  induction ws as [| c ws IH]; [reflexivity |].
  cbn [forallb app]. rewrite andb_true_iff. intros [Hc Hws].
  unfold lstrip at 1. rewrite Hc. now apply IH.
Qed.

Lemma strip_digits (rt : runtime) (w : text) :
  runtime_ok rt -> digits_text rt w -> strip rt w = w.
Proof.
  intros Hok [Hd Hne]. unfold strip.
  assert (Hall : forall c, In c w -> is_space rt c = false).
  { intros c Hc. apply (digit_not_space rt c Hok).
    rewrite forallb_forall in Hd. now apply Hd. }
  destruct w as [| c s]; [congruence |].
  rewrite lstrip_head by (apply Hall; now left).
  destruct (rev (c :: s)) as [| c' s'] eqn:E.
  - apply (f_equal (@List.length _)) in E. rewrite length_rev in E. discriminate.
  - rewrite lstrip_head.
    + rewrite <- E. apply rev_involutive.
    + apply Hall. apply in_rev. rewrite E. now left.
Qed.

Lemma py_int_digits (rt : runtime) (w : text) :
  runtime_ok rt -> digits_text rt w -> within_limit rt w = true ->
  py_int rt w = Ok (digits_value rt w).
Proof.
  intros Hok Hd Hlim. unfold py_int. rewrite (strip_digits rt w Hok Hd).
  destruct Hd as [Hd Hne]. destruct w as [| c s]; [congruence |].
  rewrite Hd. cbn [negb].
  unfold within_limit in Hlim. apply orb_true_iff in Hlim.
  assert (E : (0 <? int_max_str_digits rt)%nat
              && (int_max_str_digits rt <? List.length (c :: s))%nat = false).
  { destruct Hlim as [H | H].
    - apply Nat.eqb_eq in H. rewrite H. reflexivity.
    - apply Nat.leb_le in H. apply andb_false_iff. right.
      apply Nat.ltb_ge. exact H. }
  rewrite E. reflexivity.
Qed.

Lemma ascii_digits_is_digit (rt : runtime) (w : text) :
  ascii_digits w = true -> forallb (is_digit rt) w = true.
Proof.
  unfold ascii_digits. rewrite !forallb_forall. intros H c Hc.
  apply ascii_digit_is_digit. now apply H.
Qed.

Lemma digit_value_ascii (rt : runtime) (c : char) :
  in_range "0" "9" c = true -> digit_value rt c = Z.of_N c - 48.
Proof.
  intros H. apply ascii_digit_cases in H. cbn [In] in H.
  intuition subst; reflexivity.
Qed.

Lemma digits_value_ascii (rt : runtime) (w : text) :
  ascii_digits w = true -> digits_value rt w = number w.
Proof.
  unfold digits_value, number, ascii_digits. generalize 0.
  induction w as [| c w IH]; intros acc H; [reflexivity |].
  cbn [forallb fold_left] in *. apply andb_true_iff in H. destruct H as [Hc Hw].
  rewrite (digit_value_ascii rt c Hc). now apply IH.
Qed.

Lemma py_int_ascii (rt : runtime) (w : text) :
  runtime_ok rt -> w <> [] -> ascii_digits w = true ->
  (List.length w <= 640)%nat ->
  py_int rt w = Ok (number w).
Proof.
  intros Hok Hne Hd Hlen. rewrite <- (digits_value_ascii rt w Hd).
  apply py_int_digits; [exact Hok | | ].
  - split; [now apply ascii_digits_is_digit | exact Hne].
  - unfold within_limit. destruct (rt_digit_limit rt Hok) as [H | H].
    + rewrite H. reflexivity.
    + apply orb_true_iff. right. apply Nat.leb_le. lia.
Qed.

Lemma number_snoc (w : text) (c : char) :
  number (w ++ [c]) = 10 * number w + (Z.of_N c - 48).
Proof. unfold number. now rewrite fold_left_app. Qed.

Lemma number_bounds (w : text) :
  ascii_digits w = true -> 0 <= number w < 10 ^ Z.of_nat (List.length w).
Proof.
  unfold ascii_digits. induction w as [| c w IH] using rev_ind; intros H.
  - cbn. lia.
  - rewrite forallb_app in H. apply andb_true_iff in H. destruct H as [Hw Hc].
    cbn [forallb] in Hc. rewrite andb_true_r in Hc.
    specialize (IH Hw). rewrite number_snoc, length_app. cbn [List.length].
    replace (Z.of_nat (List.length w + 1)) with (Z.succ (Z.of_nat (List.length w))) by lia.
    rewrite Z.pow_succ_r by lia.
    apply ascii_digit_cases in Hc. cbn [In] in Hc.
    assert (0 <= Z.of_N c - 48 <= 9) by (intuition subst; cbn; lia).
    lia.
Qed.

Lemma ascii_digits_pad (f : text) (n : nat) :
  ascii_digits f = true -> ascii_digits (f ++ repeat (chr "0") n) = true.
Proof.
  unfold ascii_digits. intros H. rewrite forallb_app, H. cbn [andb].
  induction n as [| n IH]; [reflexivity |]. cbn [repeat forallb]. now rewrite IH.
Qed.

(** ** [strptime] on a well-formed timestamp *)

Ltac two_chars l :=
  destruct l as [| ? [| ? [| ? ?]]]; try discriminate.

Lemma strptime_ok (rt : runtime) (Y m d ws H M S f : text) :
  runtime_ok rt ->
  List.length Y = 4%nat -> List.length m = 2%nat -> List.length d = 2%nat ->
  List.length H = 2%nat -> List.length M = 2%nat -> List.length S = 2%nat ->
  forallb (is_digit rt) (Y ++ m ++ d ++ H ++ M ++ S ++ f) = true ->
  forallb (is_space rt) ws = true -> ws <> [] -> f <> [] ->
  timestamp_ok rt (Y ++ txt "-" ++ m ++ txt "-" ++ d ++ ws
                     ++ H ++ txt ":" ++ M ++ txt ":" ++ S ++ txt "," ++ f) = true ->
  strptime rt (Y ++ txt "-" ++ m ++ txt "-" ++ d ++ ws
                 ++ H ++ txt ":" ++ M ++ txt ":" ++ S ++ txt "," ++ f)
  = Ok (mkDatetime (number Y) (number m) (number d)
                   (number H) (number M) (number S)
                   (number (f ++ repeat (chr "0") (6 - List.length f)))).
Proof.
  intros Hok LY Lm Ld LH LM LS Hdig Hws Hwsne Hfne Hts.
  destruct Y as [| y1 [| y2 [| y3 [| y4 [| ? ?]]]]]; try discriminate.
  two_chars m. two_chars d. two_chars H. two_chars M. two_chars S.
  rename c into m1, c0 into m2, c1 into d1, c2 into d2, c3 into h1, c4 into h2,
         c5 into M1, c6 into M2, c7 into s1, c8 into s2.
  assert (Hh1 : is_space rt h1 = false).
  { apply (digit_not_space rt h1 Hok).
    cbn [app forallb] in Hdig. rewrite !andb_true_iff in Hdig. tauto. }
  (* the fields *)
  assert (Hf : ts_fields rt ([y1; y2; y3; y4] ++ txt "-" ++ [m1; m2] ++ txt "-"
                 ++ [d1; d2] ++ ws ++ [h1; h2] ++ txt ":" ++ [M1; M2] ++ txt ":"
                 ++ [s1; s2] ++ txt "," ++ f)
               = ([y1; y2; y3; y4], [m1; m2], [d1; d2], [h1; h2], [M1; M2],
                  [s1; s2], f)).
  { unfold ts_fields. cbn [app txt List.map list_ascii_of_string firstn skipn].
    rewrite lstrip_spaces by exact Hws. rewrite lstrip_head by exact Hh1.
    reflexivity. }
  unfold timestamp_ok in Hts. rewrite Hf in Hts.
  rewrite !andb_true_iff in Hts.
  destruct Hts as (((((((((Hasc & HY) & Hm1) & Hm2) & Hd1) & Hd2) & HH) & HM) & HS) & Hflen).
  apply Z.leb_le in HY, Hm1, Hm2, Hd1, Hd2, HH, HM, HS. apply Nat.leb_le in Hflen.
  unfold ascii_digits in Hasc. cbn [app forallb] in Hasc.
  rewrite !andb_true_iff in Hasc.
  destruct Hasc as (Ay1 & Ay2 & Ay3 & Ay4 & Am1 & Am2 & Ad1 & Ad2 & Ah1 & Ah2
                    & AM1 & AM2 & As1 & As2 & Af).
  assert (Hdim : days_in_month (number [y1; y2; y3; y4]) (number [m1; m2]) <= 31).
  { unfold days_in_month.
    repeat match goal with |- context [if ?b then _ else _] => destruct b end; lia. }
  (* the regular expression goes through *)
  assert (L : leads (FORMAT_REGEX rt)
                ([y1; y2; y3; y4] ++ txt "-" ++ [m1; m2] ++ txt "-" ++ [d1; d2]
                 ++ ws ++ [h1; h2] ++ txt ":" ++ [M1; M2] ++ txt ":" ++ [s1; s2]
                 ++ txt "," ++ f ++ [])
                [[y1; y2; y3; y4]; [m1; m2]; [d1; d2]; [h1; h2]; [M1; M2];
                 [s1; s2]; f] []).
  { unfold FORMAT_REGEX.
    apply (leads_seq_cons _ _ _ _ [[y1; y2; y3; y4]] _).
    { apply leads_grp.
      apply (leads_seq_cons _ _ [y1] _ [] []);
        [apply leads_chr; now apply ascii_digit_is_digit |].
      apply (leads_seq_cons _ _ [y2] _ [] []);
        [apply leads_chr; now apply ascii_digit_is_digit |].
      apply (leads_seq_cons _ _ [y3] _ [] []);
        [apply leads_chr; now apply ascii_digit_is_digit |].
      apply (leads_seq_cons _ _ [y4] [] [] []);
        [apply leads_chr; now apply ascii_digit_is_digit | apply leads_eps]. }
    apply (leads_seq_cons _ _ _ _ [] _); [apply leads_lit |].
    apply (leads_seq_cons _ _ _ _ [[m1; m2]] _);
      [apply leads_month; [assumption | assumption | lia] |].
    apply (leads_seq_cons _ _ _ _ [] _); [apply leads_lit |].
    apply (leads_seq_cons _ _ _ _ [[d1; d2]] _);
      [apply leads_day; [assumption | assumption | lia] |].
    apply (leads_seq_cons _ _ _ _ [] _).
    { apply leads_rep_greedy; [exact Hws | | exact I | cbn; exact Hh1].
      destruct ws; [congruence | cbn; lia]. }
    apply (leads_seq_cons _ _ _ _ [[h1; h2]] _);
      [apply leads_hour; [assumption | assumption | lia] |].
    apply (leads_seq_cons _ _ _ _ [] _); [apply leads_lit |].
    apply (leads_seq_cons _ _ _ _ [[M1; M2]] _);
      [apply leads_minute; [assumption | assumption | lia] |].
    apply (leads_seq_cons _ _ _ _ [] _); [apply leads_lit |].
    apply (leads_seq_cons _ _ _ _ [[s1; s2]] _);
      [apply leads_second; [assumption | assumption | lia] |].
    apply (leads_seq_cons _ _ _ _ [] _); [apply leads_lit |].
    apply (leads_seq_cons _ _ f [] [f] []); [| apply leads_eps].
    apply leads_grp. apply leads_rep_greedy; [exact Af | | exact Hflen | exact I].
    destruct f; [congruence | cbn; lia]. }
  pose proof (L _ [] (fun s' caps => Some (caps, s')) _ eq_refl) as E.
  rewrite !app_nil_r in E. cbn [app] in E.
  unfold strptime, Re.match_. cbn [app]. rewrite E. clear E L.
  (* the conversions *)
  assert (Hf6 : ascii_digits (f ++ repeat (chr "0") (6 - List.length f)) = true).
  { now apply ascii_digits_pad. }
  assert (Hlen6 : List.length (f ++ repeat (chr "0") (6 - List.length f)) = 6%nat).
  { rewrite length_app, repeat_length. lia. }
  pose proof (number_bounds _ Hf6) as Hb6. rewrite Hlen6 in Hb6.
  assert (Ay : ascii_digits [y1; y2; y3; y4] = true).
  { unfold ascii_digits. cbn. now rewrite Ay1, Ay2, Ay3, Ay4. }
  pose proof (number_bounds _ Ay) as HbY.
  assert (Ah : ascii_digits [h1; h2] = true)
    by (unfold ascii_digits; cbn; now rewrite Ah1, Ah2).
  assert (AM : ascii_digits [M1; M2] = true)
    by (unfold ascii_digits; cbn; now rewrite AM1, AM2).
  assert (AS : ascii_digits [s1; s2] = true)
    by (unfold ascii_digits; cbn; now rewrite As1, As2).
  assert (Am : ascii_digits [m1; m2] = true)
    by (unfold ascii_digits; cbn; now rewrite Am1, Am2).
  assert (Ad : ascii_digits [d1; d2] = true)
    by (unfold ascii_digits; cbn; now rewrite Ad1, Ad2).
  pose proof (number_bounds _ Ah) as Hbh.
  pose proof (number_bounds _ AM) as HbM.
  pose proof (number_bounds _ AS) as HbS.
  rewrite (py_int_ascii rt [y1; y2; y3; y4]) by first [assumption | discriminate | (cbn; lia)].
  rewrite (py_int_ascii rt [m1; m2]) by first [assumption | discriminate | (cbn; lia)].
  rewrite (py_int_ascii rt [d1; d2]) by first [assumption | discriminate | (cbn; lia)].
  rewrite (py_int_ascii rt [h1; h2]) by first [assumption | discriminate | (cbn; lia)].
  rewrite (py_int_ascii rt [M1; M2]) by first [assumption | discriminate | (cbn; lia)].
  rewrite (py_int_ascii rt [s1; s2]) by first [assumption | discriminate | (cbn; lia)].
  rewrite (py_int_ascii rt (f ++ _))
    by first [assumption | lia | (destruct f; [congruence | discriminate])].
  cbn [bind]. unfold datetime_new.
  change (10 ^ Z.of_nat 6) with 1000000 in Hb6.
  change (10 ^ Z.of_nat (List.length [y1; y2; y3; y4])) with 10000 in HbY.
  repeat match goal with
         | |- context [?a <=? ?b] =>
             let E := fresh in
             assert (E : (a <=? b) = true) by (apply Z.leb_le; lia);
             rewrite E; clear E
         end.
  reflexivity.
Qed.

(** ** [parse_log] *)

Lemma py_int_exn (rt : runtime) (s : text) (e : exn) :
  py_int rt s = Raise e -> e = ValueError.
Proof.
  unfold py_int. destruct (strip rt s); [congruence |].
  destruct (negb _); [congruence |]. destruct (_ && _); congruence.
Qed.

Lemma datetime_new_exn (y m d H M S us : Z) (e : exn) :
  datetime_new y m d H M S us = Raise e -> e = ValueError.
Proof. unfold datetime_new. destruct (_ && _); congruence. Qed.

Ltac bind_exn H :=
  repeat match type of H with
         | bind (py_int ?rt ?s) _ = Raise _ =>
             let E := fresh "E" in
             destruct (py_int rt s) eqn:E; cbn [bind] in H;
             [| injection H as <-; exact (py_int_exn _ _ _ E)]
         end.

Lemma strptime_exn (rt : runtime) (s : text) (e : exn) :
  strptime rt s = Raise e -> e = ValueError.
Proof.
  unfold strptime. intros H.
  destruct (Re.match_ (FORMAT_REGEX rt) s) as [[caps rest] |]; [| congruence].
  do 8 (destruct caps as [| ? caps]; try congruence).
  destruct rest; [| congruence].
  bind_exn H. now apply datetime_new_exn in H.
Qed.

Lemma parse_line_exn (rt : runtime) (line : text) (e : exn) :
  parse_line rt line = Raise e -> e = ValueError.
Proof.
  unfold parse_line. intros H.
  destruct (negb (contains marker line)); [congruence |].
  destruct (Re.search (LINE_PATTERN rt) line) as [caps |]; [| congruence].
  do 6 (destruct caps as [| ? caps]; try congruence).
  destruct (strptime rt t) eqn:E; cbn [bind] in H;
    [| injection H as <-; exact (strptime_exn _ _ _ E)].
  bind_exn H. congruence.
Qed.

Lemma parse_lines_exn (rt : runtime) (lines : list text) (e : exn) :
  parse_lines rt lines = Raise e -> e = ValueError.
Proof.
  induction lines as [| l ls IH]; cbn [parse_lines]; [congruence |].
  destruct (parse_line rt l) eqn:E; cbn [bind].
  - destruct (parse_lines rt ls); cbn [bind]; [congruence |].
    intros H. injection H as <-. now apply IH.
  - intros H. injection H as <-. exact (parse_line_exn _ _ _ E).
Qed.

Lemma parse_line_skips (rt : runtime) (line : text) :
  contains marker line = false \/ Re.search (LINE_PATTERN rt) line = None ->
  parse_line rt line = Ok [].
Proof.
  unfold parse_line. intros [H | H]; rewrite H; [reflexivity |].
  now destruct (negb _).
Qed.

Lemma parse_line_ok (rt : runtime) (line : text) :
  runtime_ok rt -> line_ok rt line = true ->
  exists es, parse_line rt line = Ok es.
Proof.
  intros Hok. unfold line_ok, parse_line.
  destruct (negb (contains marker line)); [intros _; now exists [] |].
  destruct (Re.search (LINE_PATTERN rt) line) as [caps |] eqn:E;
    [| intros _; now exists []].
  destruct (line_pattern_groups rt line caps E)
    as (ts & part & dir & off & dur & -> & Hoff & Hdur & Hshape).
  destruct Hshape as (Y & m & d & ws & H & M & S & f & -> & LY & Lm & Ld & LH
                      & LM & LS & Hdig & Hws & Hwsne & Hfne).
  rewrite !andb_true_iff. intros [[Hts Hlo] Hld].
  rewrite (strptime_ok rt Y m d ws H M S f) by assumption. cbn [bind].
  rewrite (py_int_digits rt off Hok Hoff Hlo). cbn [bind].
  rewrite (py_int_digits rt dur Hok Hdur Hld). cbn [bind].
  eexists. reflexivity.
Qed.

Lemma parse_lines_ok (rt : runtime) (lines : list text) :
  runtime_ok rt -> forallb (line_ok rt) lines = true ->
  exists es, parse_lines rt lines = Ok es.
Proof.
  intros Hok. induction lines as [| l ls IH]; cbn [forallb parse_lines].
  - intros _. now exists [].
  - rewrite andb_true_iff. intros [Hl Hls].
    destruct (parse_line_ok rt l Hok Hl) as (es & ->).
    destruct (IH Hls) as (es' & ->). cbn [bind]. eexists. reflexivity.
Qed.

Lemma ascii_runtime_ok : runtime_ok ascii_runtime.
Proof.
  split; [intros c H; discriminate | right; cbn; lia | intros c v H; discriminate].
Qed.

(** Offsets and durations of parsed entries are not negative. *)
Lemma digit_value_range (rt : runtime) (c : char) :
  runtime_ok rt -> is_digit rt c = true -> 0 <= digit_value rt c <= 9.
Proof.
  intros Hok. unfold is_digit, digit_value.
  destruct (N.ltb_spec c 128) as [Hlt | Hge].
  - intros H. apply ascii_digit_cases in H. cbn [In] in H.
    intuition subst; cbn; lia.
  - destruct (uni_decimal rt c) as [v |] eqn:E; [| discriminate].
    intros _. exact (rt_decimal_value rt Hok c v E).
Qed.

Lemma py_int_nonneg (rt : runtime) (s : text) (v : Z) :
  runtime_ok rt -> py_int rt s = Ok v -> 0 <= v.
Proof.
  intros Hok. unfold py_int. destruct (strip rt s) as [| c d] eqn:E; [discriminate |].
  destruct (forallb (is_digit rt) (c :: d)) eqn:Hd; cbn [negb]; [| discriminate].
  destruct (_ && _); [discriminate |]. intros H. injection H as <-.
  assert (G : forall w acc, forallb (is_digit rt) w = true -> 0 <= acc ->
                0 <= fold_left (fun acc c => 10 * acc + digit_value rt c) w acc).
  { induction w as [| a w IH]; intros acc Hw Hacc; [exact Hacc |].
    cbn [forallb fold_left] in *. apply andb_true_iff in Hw. destruct Hw as [Ha Hw].
    apply IH; [exact Hw |]. pose proof (digit_value_range rt a Hok Ha). lia. }
  apply (G (c :: d) 0 Hd). lia.
Qed.

Lemma parse_line_nonneg (rt : runtime) (line : text) (es : list entry) :
  runtime_ok rt -> parse_line rt line = Ok es ->
  forall e, In e es -> 0 <= offset e /\ 0 <= duration_ms e.
Proof.
  intros Hok. unfold parse_line.
  destruct (negb (contains marker line)); [intros H; injection H as <-; intros e [] |].
  destruct (Re.search (LINE_PATTERN rt) line) as [caps |];
    [| intros H; injection H as <-; intros e []].
  do 6 (destruct caps as [| ? caps];
        try (intros H; injection H as <-; intros e [])).
  destruct (strptime rt t); cbn [bind]; [| discriminate].
  destruct (py_int rt t2) as [off |] eqn:Eo; cbn [bind]; [| discriminate].
  destruct (py_int rt t3) as [dur |] eqn:Ed; cbn [bind]; [| discriminate].
  intros H. injection H as <-. intros e [<- | []]. cbn [offset duration_ms].
  split; [exact (py_int_nonneg _ _ _ Hok Eo) | exact (py_int_nonneg _ _ _ Hok Ed)].
Qed.

Lemma parse_log_nonneg (rt : runtime) (f : file) (es : list entry) :
  runtime_ok rt -> parse_log rt f = Ok es ->
  forall e, In e es -> 0 <= offset e /\ 0 <= duration_ms e.
Proof.
  intros Hok. destruct f as [| bytes]; cbn [parse_log]; [discriminate |].
  generalize (decode_lines rt bytes). intros lines. revert es.
  induction lines as [| l ls IH]; cbn [parse_lines]; intros es H.
  - injection H as <-. intros e [].
  - destruct (parse_line rt l) as [es1 |] eqn:E1; cbn [bind] in H; [| discriminate].
    destruct (parse_lines rt ls) as [es2 |]; cbn [bind] in H; [| discriminate].
    injection H as <-. intros e He. apply in_app_or in He. destruct He as [He | He].
    + exact (parse_line_nonneg rt l es1 Hok E1 e He).
    + exact (IH es2 eq_refl e He).
Qed.

(** C2 as stated fails: a line of the right shape whose month is 13
    matches [LINE_PATTERN], [strptime] rejects its timestamp and
    [parse_log] raises [ValueError]. *)
Lemma C2_line_with_month_13_raises :
  (exists caps, Re.search (LINE_PATTERN ascii_runtime) (txt month13_line)
                = Some caps) /\
  parse_log ascii_runtime (Content (bytes_of month13_line)) = Raise ValueError.
Proof.
  split; [eexists; vm_compute; reflexivity | vm_compute; reflexivity].
Qed.

(** C2, amended: a line that lacks the marker or that the pattern does not
    match is skipped; [parse_log] returns the entries of an opened file
    whenever each line that the pattern matches has a timestamp in ASCII
    digits that names an existing day and time of day with at most six
    digits after the comma, and an offset and a duration within the digit
    limit of [int]; an unreadable file raises [OSError], and the only other
    exception is the [ValueError] of a matched line that does not convert. *)
Theorem C2_parse_log_returns_on_convertible_lines (rt : runtime) :
  runtime_ok rt ->
  (forall line,
     contains marker line = false \/ Re.search (LINE_PATTERN rt) line = None ->
     parse_line rt line = Ok []) /\
  (forall bytes,
     forallb (line_ok rt) (decode_lines rt bytes) = true ->
     exists es, parse_log rt (Content bytes) = Ok es) /\
  (forall f e,
     parse_log rt f = Raise e ->
     (f = Unreadable /\ e = OSError) \/ (f <> Unreadable /\ e = ValueError)).
Proof.
  intros Hok. split; [apply parse_line_skips |]. split.
  - intros bytes H. cbn [parse_log]. now apply parse_lines_ok.
  - intros [| bytes] e H; cbn [parse_log] in H.
    + left. split; congruence.
    + right. split; [discriminate | exact (parse_lines_exn _ _ _ H)].
Qed.

Lemma C2_witness :
  runtime_ok ascii_runtime /\
  forallb (line_ok ascii_runtime)
          (decode_lines ascii_runtime (bytes_of sample_log)) = true /\
  exists es, parse_log ascii_runtime (Content (bytes_of sample_log)) = Ok es.
Proof.
  split; [exact ascii_runtime_ok |].
  split; [vm_compute; reflexivity |].
  apply (proj1 (proj2 (C2_parse_log_returns_on_convertible_lines
                         ascii_runtime ascii_runtime_ok))).
  vm_compute. reflexivity.
Defined.

(** ** The theorems at concrete inputs *)

Lemma scenario_nonempty : scenario_entries <> [].
Proof. discriminate. Qed.

Lemma scenario_durations_nonneg :
  forall e, In e scenario_entries -> 0 <= duration_ms e.
Proof.
  intros e H. cbn in H.
  repeat (destruct H as [<- | H]; [cbn; lia |]). destruct H.
Qed.

Lemma skewed_durations_nonneg :
  forall e, In e skewed_entries -> 0 <= duration_ms e.
Proof.
  intros e H. cbn in H.
  repeat (destruct H as [<- | H]; [cbn; lia |]). destruct H.
Qed.

Lemma scenario_durations_bounded :
  forall e, In e scenario_entries -> 0 <= duration_ms e < 2 ^ 53.
Proof.
  intros e H. cbn in H.
  repeat (destruct H as [<- | H]; [cbn; lia |]). destruct H.
Qed.

Lemma ramp_durations_bounded :
  forall e, In e ramp_entries -> 0 <= duration_ms e < 2 ^ 53.
Proof.
  intros e H. unfold ramp_entries in H. apply in_map_iff in H.
  destruct H as (d & <- & Hd). cbn [duration_ms].
  apply in_map_iff in Hd. destruct Hd as (k & <- & Hk).
  apply in_rev, in_seq in Hk. lia.
Qed.


Lemma tied_durations_bounded :
  forall e, In e tied_entries -> 0 <= duration_ms e < 2 ^ 53.
Proof.
  intros e H. cbn in H.
  repeat (destruct H as [<- | H]; [cbn; lia |]). destruct H.
Qed.

Lemma C3_witness :
  ramp_entries <> [] /\
  (forall e, In e ramp_entries -> 0 <= duration_ms e < 2 ^ 53) /\
  len ramp_entries < 2 ^ 63 /\
  exists p95 p99 mx ds,
    py_index (sorted (List.map duration_ms ramp_entries))
             (p95_index (len (sorted (List.map duration_ms ramp_entries)))) = Ok p95 /\
    py_index (sorted (List.map duration_ms ramp_entries))
             (p99_index (len (sorted (List.map duration_ms ramp_entries)))) = Ok p99 /\
    py_max (sorted (List.map duration_ms ramp_entries)) = Ok mx /\
    p95 = 39 /\ p99 = 40 /\ mx = 40 /\
    p95 <= p99 <= mx /\
    dashboard ramp_entries = Ok (Some ds) /\
    ds_p95 ds = p95 /\ ds_p99 ds = p99 /\ ds_max ds = mx.
Proof.
  assert (Hne : ramp_entries <> []) by discriminate.
  assert (Hlt : len ramp_entries < 2 ^ 63) by (vm_compute; reflexivity).
  split; [exact Hne |]. split; [exact ramp_durations_bounded |].
  split; [exact Hlt |].
  destruct (C3_percentiles_ordered ramp_entries Hne)
    as (p95 & p99 & mx & H95 & H99 & Hmx & Hord & _ & Hds & Hret).
  destruct (Hret ramp_durations_bounded Hlt) as (ds & Hd).
  exists p95, p99, mx, ds.
  split; [exact H95 |]. split; [exact H99 |]. split; [exact Hmx |].
  split; [vm_compute in H95; now injection H95 as <- |].
  split; [vm_compute in H99; now injection H99 as <- |].
  split; [vm_compute in Hmx; now injection Hmx as <- |].
  split; [exact Hord |]. split; [exact Hd |]. exact (Hds ds Hd).
Defined.

Lemma C4_witness :
  skewed_entries <> [] /\
  (forall e, In e skewed_entries -> 0 <= duration_ms e) /\
  exists mx rows,
    max_count (bucket_counts (List.map duration_ms skewed_entries)) = Ok mx /\
    1 <= mx /\
    distribution skewed_entries = Ok rows /\
    Forall2 (fun b r =>
               dr_count r = snd b /\
               exists q, Dbl.int_truediv (snd b) mx = Ok q /\
                 let x := Dbl.mul q (Dbl.of_int 30) in
                 dr_visual r = Dbl.trunc x /\
                 dr_visual r * Dbl.den x <= Dbl.num x
                   < (dr_visual r + 1) * Dbl.den x)
            (bucket_counts (List.map duration_ms skewed_entries)) rows.
Proof.
  split; [discriminate |]. split; [exact skewed_durations_nonneg |].
  apply (C4_visual_weight_truncates skewed_entries);
    [discriminate | exact skewed_durations_nonneg].
Defined.

Lemma C5_witness :
  scenario_entries <> [] /\
  (forall e, In e scenario_entries -> 0 <= duration_ms e < 2 ^ 53) /\
  len scenario_entries < 2 ^ 63 /\
  exists sl ds,
    py_index (sorted_entries scenario_entries) 0 = Ok sl /\
    hd_error (sorted_entries scenario_entries) = Some sl /\
    (forall e, In e scenario_entries -> duration_ms e <= duration_ms sl) /\
    duration_ms sl = 1500 /\
    dashboard scenario_entries = Ok (Some ds) /\
    ds_slowest ds = sl.
Proof.
  assert (Hlt : len scenario_entries < 2 ^ 63) by (vm_compute; reflexivity).
  split; [exact scenario_nonempty |].
  split; [exact scenario_durations_bounded |]. split; [exact Hlt |].
  destruct (proj2 (proj2 (proj2
             (C5_ranking_is_stable_descending_sort scenario_entries)))
             scenario_nonempty)
    as (sl & Hsl & Hhd & Hmax & Hds & Hret).
  destruct (Hret scenario_durations_bounded Hlt) as (ds & Hd).
  exists sl, ds. split; [exact Hsl |]. split; [exact Hhd |].
  split; [exact Hmax |].
  split; [vm_compute in Hsl; now injection Hsl as <- |].
  split; [exact Hd | exact (Hds ds Hd)].
Defined.

Lemma C6_witness :
  (forall e, In e tied_entries -> 0 <= duration_ms e < 2 ^ 53) /\
  exists sp rows,
    sorted_parts tied_entries = Ok sp /\
    List.map fst sp = [txt "payments-1"; txt "orders-0"] /\
    List.map group_max sp = [7; 7] /\
    partition_summary tied_entries = Ok rows /\
    Forall2 row_of_group sp rows /\
    sum (List.map pr_count rows) = len tied_entries.
Proof.
  split; [exact tied_durations_bounded |].
  destruct (C6_groups_ranked_by_max_duration tied_entries)
    as (sp & Hsp & _ & _ & _ & _ & _ & _ & Hrows & Hret).
  destruct (Hret tied_durations_bounded) as (rows & Hr).
  exists sp, rows. split; [exact Hsp |].
  assert (E : sp = stable_sort true group_max (part_stats tied_entries)).
  { rewrite sorted_parts_ok in Hsp. now injection Hsp as <-. }
  split; [rewrite E; vm_compute; reflexivity |].
  split; [rewrite E; vm_compute; reflexivity |].
  split; [exact Hr |]. exact (Hrows rows Hr).
Defined.

Lemma C7_witness :
  [5; 1500; 50; 1200; 900] <> [] /\
  (forall e, In e scenario_entries -> 0 <= duration_ms e < 2 ^ 53) /\
  scenario_entries <> [] /\ len scenario_entries < 2 ^ 63 /\
  py_index (sorted [5; 1500; 50; 1200; 900])
           (len (sorted [5; 1500; 50; 1200; 900]) / 2) = Ok 900 /\
  exists rows ds,
    partition_summary scenario_entries = Ok rows /\
    Forall2 (fun x r => pr_median r = median_of (durations (snd x)) /\
                        In (pr_median r) (durations (snd x)))
            (stable_sort true group_max (part_stats scenario_entries)) rows /\
    dashboard scenario_entries = Ok (Some ds) /\
    ds_median ds = median_of (List.map duration_ms scenario_entries) /\
    In (ds_median ds) (List.map duration_ms scenario_entries).
Proof.
  assert (Hl : [5; 1500; 50; 1200; 900] <> []) by discriminate.
  assert (Hlt : len scenario_entries < 2 ^ 63) by (vm_compute; reflexivity).
  split; [exact Hl |]. split; [exact scenario_durations_bounded |].
  split; [exact scenario_nonempty |]. split; [exact Hlt |].
  destruct C7_median_is_upper_middle_element
    as (Hmed & Hrows & Hdash & Hret & _).
  split; [exact (proj1 (Hmed _ Hl)) |].
  destruct (Hret scenario_entries scenario_durations_bounded) as ((rows & Hr) & Hd).
  destruct (Hd scenario_nonempty Hlt) as (ds & Hds).
  exists rows, ds. split; [exact Hr |].
  split; [exact (Hrows scenario_entries rows Hr) |]. split; [exact Hds |].
  exact (Hdash scenario_entries ds Hds).
Defined.

Lemma C8_witness :
  (forall e, In e scenario_entries -> 0 <= duration_ms e) /\
  sum (List.map snd (bucket_counts (List.map duration_ms scenario_entries)))
  = len scenario_entries.
Proof.
  split; [exact scenario_durations_nonneg |].
  apply (proj1 (proj2 (C8_buckets_partition_durations
                         scenario_entries scenario_durations_nonneg))).
Defined.

Lemma C9_witness :
  1 <= 100 /\ p99_raw_index 100 <= 100 - 1 /\ p99_index 100 = p99_raw_index 100.
Proof. split; [lia | apply (C9_p99_clamp_is_identity 100); lia]. Defined.

Lemma C10_witness :
  [5; 1500; 50] <> [] /\
  0 <= p95_index (len (sorted [5; 1500; 50])) <= len (sorted [5; 1500; 50]) - 1 /\
  exists v, py_index (sorted [5; 1500; 50])
                     (p95_index (len (sorted [5; 1500; 50]))) = Ok v.
Proof.
  split; [discriminate | apply (C10_p95_index_in_range [5; 1500; 50]); discriminate].
Defined.

(* ================================================================== *)
(** * Part III: further properties of the code *)
(* ================================================================== *)

(** ** Severity tiers *)

Lemma style_status_monotone (a b : Z) :
  a <= b -> severity_rank (style_status a) <= severity_rank (style_status b).
Proof.
  intros H. unfold style_status.
  destruct (Z.leb_spec 1000 a), (Z.leb_spec 100 a),
           (Z.leb_spec 1000 b), (Z.leb_spec 100 b); cbn; lia.
Qed.

Lemma count_if_perm (p : Z -> bool) (l l' : list Z) :
  Permutation l l' -> count_if p l = count_if p l'.
Proof.
  intros H. unfold count_if, len. f_equal.
  induction H; cbn [filter].
  - reflexivity.
  - destruct (p x); cbn [List.length]; lia.
  - destruct (p x), (p y); reflexivity.
  - lia.
Qed.

Lemma count_if_map_status (p : Z -> bool) (s : severity) (entries : list entry) :
  (forall d, p d = severity_eqb (style_status d) s) ->
  count_if p (List.map duration_ms entries) = len (with_status s entries).
Proof.
  intros H. unfold count_if, with_status, len. f_equal.
  induction entries as [| e es IH]; [reflexivity |].
  cbn [List.map filter]. rewrite H.
  destruct (severity_eqb _ _); cbn [List.length]; lia.
Qed.

Lemma status_tests (d : Z) :
  (d <? 100) = severity_eqb (style_status d) OK /\
  ((100 <=? d) && (d <? 1000)) = severity_eqb (style_status d) MODERATE /\
  (1000 <=? d) = severity_eqb (style_status d) SLOW.
Proof.
  unfold style_status, severity_eqb.
  destruct (Z.leb_spec 1000 d), (Z.leb_spec 100 d), (Z.ltb_spec d 100),
           (Z.ltb_spec d 1000); cbn; repeat split; reflexivity || lia.
Qed.

Lemma with_status_split (entries : list entry) :
  len (with_status OK entries) + len (with_status MODERATE entries)
  + len (with_status SLOW entries) = len entries.
Proof.
  unfold with_status, len. induction entries as [| e es IH]; [reflexivity |].
  cbn [filter].
  destruct (severity_eqb (style_status (duration_ms e)) OK) eqn:E1,
           (severity_eqb (style_status (duration_ms e)) MODERATE) eqn:E2,
           (severity_eqb (style_status (duration_ms e)) SLOW) eqn:E3;
    unfold severity_eqb in E1, E2, E3;
    destruct (style_status (duration_ms e)); cbn in E1, E2, E3;
    try discriminate; cbn [List.length]; lia.
Qed.

(** X1: in every dashboard that is computed the status breakdown counts,
    for each tier, the entries whose status cell shows that tier, and the
    three counts add up to the number of roll events.  The dashboard is
    computed for a non-empty list of fewer than [2^63] entries whose
    durations are natural numbers below [2^53]. *)
Theorem dashboard_status_breakdown (entries : list entry) :
  (forall ds,
     dashboard entries = Ok (Some ds) ->
     ds_ok ds = len (with_status OK entries) /\
     ds_moderate ds = len (with_status MODERATE entries) /\
     ds_slow ds = len (with_status SLOW entries) /\
     ds_ok ds + ds_moderate ds + ds_slow ds = ds_total_events ds) /\
  (entries <> [] ->
   (forall e, In e entries -> 0 <= duration_ms e < 2 ^ 53) ->
   len entries < 2 ^ 63 ->
   exists ds, dashboard entries = Ok (Some ds)).
Proof.
  split; [| apply dashboard_ok].
  intros ds Hds.
  destruct (dashboard_inv entries ds Hds)
    as (_ & sl & mn & mx & _ & _ & _ & _ & _ & ->).
  cbn [ds_ok ds_moderate ds_slow ds_total_events].
  assert (P : Permutation (sorted (List.map duration_ms entries))
                          (List.map duration_ms entries))
    by apply stable_sort_perm.
  rewrite !(count_if_perm _ _ _ P).
  assert (H1 : count_if (fun d => d <? 100) (List.map duration_ms entries)
               = len (with_status OK entries))
    by (apply count_if_map_status; intros d; apply status_tests).
  assert (H2 : count_if (fun d => (100 <=? d) && (d <? 1000))
                        (List.map duration_ms entries)
               = len (with_status MODERATE entries))
    by (apply count_if_map_status; intros d; apply status_tests).
  assert (H3 : count_if (fun d => 1000 <=? d) (List.map duration_ms entries)
               = len (with_status SLOW entries))
    by (apply count_if_map_status; intros d; apply status_tests).
  split; [exact H1 |]. split; [exact H2 |]. split; [exact H3 |].
  rewrite H1, H2, H3. apply with_status_split.
Qed.

Lemma dashboard_status_breakdown_witness :
  scenario_entries <> [] /\
  (forall e, In e scenario_entries -> 0 <= duration_ms e < 2 ^ 53) /\
  len scenario_entries < 2 ^ 63 /\
  exists ds,
    dashboard scenario_entries = Ok (Some ds) /\
    ds_ok ds = 2 /\ ds_moderate ds = 1 /\ ds_slow ds = 2 /\
    ds_ok ds = len (with_status OK scenario_entries) /\
    ds_moderate ds = len (with_status MODERATE scenario_entries) /\
    ds_slow ds = len (with_status SLOW scenario_entries) /\
    ds_ok ds + ds_moderate ds + ds_slow ds = ds_total_events ds.
Proof.
  assert (Hlt : len scenario_entries < 2 ^ 63) by (vm_compute; reflexivity).
  split; [exact scenario_nonempty |].
  split; [exact scenario_durations_bounded |]. split; [exact Hlt |].
  destruct (dashboard_status_breakdown scenario_entries) as [Hinv Hret].
  destruct (Hret scenario_nonempty scenario_durations_bounded Hlt) as (ds & Hds).
  destruct (Hinv ds Hds) as (H1 & H2 & H3 & H4).
  exists ds. split; [exact Hds |].
  split; [rewrite H1; vm_compute; reflexivity |].
  split; [rewrite H2; vm_compute; reflexivity |].
  split; [rewrite H3; vm_compute; reflexivity |].
  repeat split; assumption.
Defined.

(** X2: the duration cell and the status cell of a row are coloured by
    the same tier: red and amber together, and a duration cell without fill
    exactly when the status is OK. *)
Theorem style_duration_agrees_with_status (d : Z) :
  match style_status d with
  | SLOW => style_duration d = (WARN_FONT, Some WARN_FILL) /\
            style_status_format d = (WARN_FONT, WARN_FILL) /\ 1000 <= d
  | MODERATE => style_duration d = (MOD_FONT, Some MOD_FILL) /\
                style_status_format d = (MOD_FONT, MOD_FILL) /\ 100 <= d < 1000
  | OK => style_duration d = (NUM_FONT, None) /\
          style_status_format d = (OK_FONT, OK_FILL) /\ d < 100
  end.
Proof.
  unfold style_status, style_duration, style_status_format.
  destruct (Z.leb_spec 1000 d); [repeat split; lia |].
  destruct (Z.leb_spec 100 d); repeat split; lia.
Qed.

(** ** The rows of sheet 1 *)

Lemma enumerate_fst {A : Type} (l : list A) (i : Z) :
  List.map fst (enumerate i l)
  = List.map (fun k => i + Z.of_nat k) (seq 0 (List.length l)).
Proof.
  revert i. induction l as [| x xs IH]; intros i; [reflexivity |].
  cbn [enumerate List.map fst List.length seq]. rewrite IH. f_equal; [f_equal; lia |].
  rewrite <- seq_shift, map_map. apply map_ext. intros k. lia.
Qed.

Lemma enumerate_snd {A : Type} (l : list A) (i : Z) :
  List.map snd (enumerate i l) = l.
Proof.
  revert i. induction l as [| x xs IH]; intros i; [reflexivity |].
  cbn [enumerate List.map snd]. now rewrite IH.
Qed.

Lemma sheet1_rows_entries (f : entry -> Z) (g : entry_row -> Z) (entries : list entry) :
  (forall p, g (entry_row_of p) = f (snd p)) ->
  List.map g (sheet1_rows entries) = List.map f (sorted_entries entries).
Proof.
  intros H. unfold sheet1_rows. rewrite map_map.
  rewrite <- (enumerate_snd (sorted_entries entries) 0) at 2.
  rewrite map_map. apply map_ext. exact H.
Qed.

Lemma StronglySorted_map {A B : Type} (R : B -> B -> Prop) (f : A -> B) (l : list A) :
  StronglySorted (fun a b => R (f a) (f b)) l -> StronglySorted R (List.map f l).
Proof.
  induction 1 as [| x xs Hs IH Hall]; cbn [List.map]; constructor; [exact IH |].
  rewrite Forall_forall in *. intros y Hy. apply in_map_iff in Hy.
  destruct Hy as (a & <- & Ha). now apply Hall.
Qed.

(** X3: sheet 1 lists the entries under the ranks 1, 2, ... in the sheet
    rows 5, 6, ...; its durations never increase down the sheet, so no row
    has a more severe status than a row above it (SLOW rows first, then
    MODERATE, then OK); and the auto-filter ends at the last row written. *)
Theorem sheet1_rows_ranked (entries : list entry) :
  List.map er_rank (sheet1_rows entries)
    = List.map (fun k => 1 + Z.of_nat k) (seq 0 (List.length entries)) /\
  List.map er_row (sheet1_rows entries)
    = List.map (fun k => 5 + Z.of_nat k) (seq 0 (List.length entries)) /\
  Permutation (List.map er_duration (sheet1_rows entries))
              (List.map duration_ms entries) /\
  StronglySorted (fun a b => b <= a) (List.map er_duration (sheet1_rows entries)) /\
  StronglySorted (fun a b => severity_rank b <= severity_rank a)
                 (List.map er_status (sheet1_rows entries)) /\
  (forall r, In r (sheet1_rows entries) ->
             5 <= er_row r <= sheet1_filter_last_row entries) /\
  (entries <> [] ->
   exists r, In r (sheet1_rows entries) /\
             er_row r = sheet1_filter_last_row entries).
Proof.
  assert (Hlen : List.length (sorted_entries entries) = List.length entries)
    by apply stable_sort_length.
  assert (Hrank : List.map er_rank (sheet1_rows entries)
                  = List.map (fun k => 1 + Z.of_nat k) (seq 0 (List.length entries))).
  { unfold sheet1_rows. rewrite map_map.
    replace (List.map (fun x => er_rank (entry_row_of x))
                      (enumerate 0 (sorted_entries entries)))
      with (List.map (fun i => i + 1) (List.map fst (enumerate 0 (sorted_entries entries)))).
    - rewrite enumerate_fst, map_map, Hlen. apply map_ext. intros k. lia.
    - rewrite map_map. apply map_ext. now intros [i e]. }
  assert (Hrow : List.map er_row (sheet1_rows entries)
                 = List.map (fun k => 5 + Z.of_nat k) (seq 0 (List.length entries))).
  { unfold sheet1_rows. rewrite map_map.
    replace (List.map (fun x => er_row (entry_row_of x))
                      (enumerate 0 (sorted_entries entries)))
      with (List.map (fun i => i + 5) (List.map fst (enumerate 0 (sorted_entries entries)))).
    - rewrite enumerate_fst, map_map, Hlen. apply map_ext. intros k. lia.
    - rewrite map_map. apply map_ext. now intros [i e]. }
  assert (Hdur : List.map er_duration (sheet1_rows entries)
                 = List.map duration_ms (sorted_entries entries)).
  { apply sheet1_rows_entries. now intros [i e]. }
  assert (Hst : List.map er_status (sheet1_rows entries)
                = List.map (fun e => style_status (duration_ms e))
                           (sorted_entries entries)).
  { unfold sheet1_rows. rewrite map_map.
    rewrite <- (enumerate_snd (sorted_entries entries) 0) at 2.
    rewrite map_map. apply map_ext. now intros [i e]. }
  split; [exact Hrank |]. split; [exact Hrow |].
  split; [rewrite Hdur; apply Permutation_map, stable_sort_perm |].
  split; [rewrite Hdur; apply StronglySorted_map, stable_sort_desc |].
  split.
  { rewrite Hst. apply StronglySorted_map.
    eapply StronglySorted_weaken; [| apply (stable_sort_desc duration_ms)].
    intros a b H. now apply style_status_monotone. }
  unfold sheet1_filter_last_row, len. rewrite Hlen.
  split.
  - intros r Hr. apply (in_map er_row) in Hr. rewrite Hrow in Hr.
    apply in_map_iff in Hr. destruct Hr as (k & <- & Hk).
    apply in_seq in Hk. lia.
  - intros Hne.
    assert (Hin : In (4 + Z.of_nat (List.length entries))
                     (List.map er_row (sheet1_rows entries))).
    { rewrite Hrow. apply in_map_iff. exists (List.length entries - 1)%nat.
      destruct entries; [congruence |]. cbn [List.length]. split; [lia |].
      apply in_seq. lia. }
    apply in_map_iff in Hin. destruct Hin as (r & E & Hr). now exists r.
Qed.

Lemma sheet1_rows_ranked_witness :
  scenario_entries <> [] /\
  exists r, In r (sheet1_rows scenario_entries) /\
            er_row r = sheet1_filter_last_row scenario_entries.
Proof.
  split; [exact scenario_nonempty |].
  destruct (sheet1_rows_ranked scenario_entries) as (_ & _ & _ & _ & _ & _ & H).
  exact (H scenario_nonempty).
Defined.

(** ** The dashboard statistics *)

Lemma fold_min_le_init (l : list Z) (a : Z) : fold_left Z.min l a <= a.
Proof.
  revert a. induction l as [| x xs IH]; intros a; cbn; [lia |].
  specialize (IH (Z.min a x)). lia.
Qed.

Lemma fold_min_le (l : list Z) (a x : Z) : In x l -> fold_left Z.min l a <= x.
Proof.
  revert a. induction l as [| y ys IH]; intros a Hin; [destruct Hin |].
  cbn. destruct Hin as [-> | Hin]; [| now apply IH].
  pose proof (fold_min_le_init ys (Z.min a x)). lia.
Qed.

Lemma fold_min_in (l : list Z) (a : Z) :
  fold_left Z.min l a = a \/ In (fold_left Z.min l a) l.
Proof.
  revert a. induction l as [| y ys IH]; intros a; cbn; [now left |].
  destruct (IH (Z.min a y)) as [H | H]; [| now right; right].
  rewrite H. destruct (Z.min_spec a y) as [[_ ->] | [_ ->]]; auto.
Qed.

Lemma py_min_spec (l : list Z) :
  l <> [] ->
  exists m, py_min l = Ok m /\ In m l /\ forall x, In x l -> m <= x.
Proof.
  destruct l as [| a xs]; [congruence | intros _].
  exists (fold_left Z.min xs a). split; [reflexivity |]. split.
  - destruct (fold_min_in xs a) as [-> | H]; [now left | now right].
  - intros x [<- | Hx]; [apply fold_min_le_init | now apply fold_min_le].
Qed.

(** The median index is not above the p95 index. *)
Lemma half_le_p95_index (n : Z) : 1 <= n -> n / 2 <= p95_index n.
Proof.
  intros Hn. unfold p95_index. rewrite lit_0_95_eq, trunc_mul_scaled by lia.
  apply Z.div_le_lower_bound; [lia |].
  pose proof (scaled_product_bounds n 8556839292003942 ltac:(lia) ltac:(lia)) as [Hl _].
  pose proof (Z.mul_div_le n 2 ltac:(lia)) as Hh.
  change (2 ^ 106) with 81129638414606681695789005144064 in Hl.
  change (2 ^ 53) with 9007199254740992 in *.
  assert (H0 : 0 <= n / 2) by (apply Z.div_pos; lia).
  nia.
Qed.

Lemma sorted_member (l : list Z) (i : nat) :
  (i < List.length l)%nat -> In (nth i (sorted l) 0) l.
Proof.
  intros Hi. apply (Permutation_in _ (stable_sort_perm false (fun x => x) l)).
  apply nth_In. fold (sorted l). unfold sorted. now rewrite stable_sort_length.
Qed.

(** X4: in every dashboard that is computed the figures are durations of
    the data set and stand in the order
    [min <= median <= p95 <= p99 <= max]; minimum and maximum bound every
    duration, and the totals are the number of entries and the sum of their
    durations.  The dashboard is computed for a non-empty list of fewer than
    [2^63] entries whose durations are natural numbers below [2^53]; its
    only exception is [OverflowError]. *)
Theorem dashboard_stats_ordered (entries : list entry) :
  (forall ds,
     dashboard entries = Ok (Some ds) ->
     ds_min ds <= ds_median ds /\ ds_median ds <= ds_p95 ds /\
     ds_p95 ds <= ds_p99 ds /\ ds_p99 ds <= ds_max ds /\
     (forall v, In v [ds_min ds; ds_median ds; ds_p95 ds; ds_p99 ds; ds_max ds] ->
                In v (List.map duration_ms entries)) /\
     (forall e, In e entries -> ds_min ds <= duration_ms e <= ds_max ds) /\
     ds_total_events ds = len entries /\
     ds_total ds = sum (List.map duration_ms entries)) /\
  (forall e, dashboard entries = Raise e -> e = OverflowError) /\
  (entries <> [] ->
   (forall e, In e entries -> 0 <= duration_ms e < 2 ^ 53) ->
   len entries < 2 ^ 63 ->
   exists ds, dashboard entries = Ok (Some ds)).
Proof.
  split; [| split; [apply dashboard_exn | apply dashboard_ok]].
  intros ds Hds.
  destruct (dashboard_inv entries ds Hds)
    as (Hne & sl & mn & mx & _ & Hmn & _ & Hin & Hub & ->).
  set (durs := List.map duration_ms entries) in *.
  set (all_d := sorted durs) in *. set (n := len all_d) in *.
  assert (P : Permutation all_d durs) by apply stable_sort_perm.
  assert (Hlen : n = len durs) by apply sorted_length.
  assert (Hn : 1 <= n).
  { rewrite Hlen. unfold durs, len. rewrite length_map. now apply len_nonempty. }
  assert (Hdne : all_d <> []) by now apply len_pos_nonempty.
  destruct (py_min_spec all_d Hdne) as (mn' & Hmn' & Hmin_in & Hlb).
  rewrite Hmn in Hmn'. injection Hmn' as <-.
  pose proof (p95_index_range n Hn) as H95.
  pose proof (p99_raw_index_range n Hn) as H99.
  pose proof (p95_le_p99 n Hn) as Hle.
  pose proof (half_le_p95_index n Hn) as Hhalf.
  assert (H0 : 0 <= n / 2) by (apply Z.div_pos; lia).
  assert (Hl : List.length durs = Z.to_nat n).
  { unfold len in Hlen. lia. }
  assert (Hmem : forall i, 0 <= i < n -> In (nth (Z.to_nat i) all_d 0) durs).
  { intros i Hi. apply sorted_member. lia. }
  cbn [ds_min ds_median ds_p95 ds_p99 ds_max ds_total_events ds_total].
  unfold p99_index in *.
  split; [apply Hlb, (Permutation_in _ (Permutation_sym P)), Hmem; lia |].
  split; [apply sorted_nth_le; lia |].
  split; [apply sorted_nth_le; lia |].
  split; [apply Hub, (Permutation_in _ (Permutation_sym P)), Hmem; lia |].
  split.
  { intros v Hv. cbn [In] in Hv.
    destruct Hv as [<- | [<- | [<- | [<- | [<- | []]]]]].
    - now apply (Permutation_in _ P).
    - apply Hmem. lia.
    - apply Hmem. lia.
    - apply Hmem. lia.
    - now apply (Permutation_in _ P). }
  split.
  { intros e He. assert (Hd' : In (duration_ms e) all_d).
    { apply (Permutation_in _ (Permutation_sym P)). now apply in_map. }
    split; [now apply Hlb | now apply Hub]. }
  split; [reflexivity | now apply sum_perm].
Qed.

Lemma dashboard_stats_ordered_witness :
  ramp_entries <> [] /\
  (forall e, In e ramp_entries -> 0 <= duration_ms e < 2 ^ 53) /\
  len ramp_entries < 2 ^ 63 /\
  (exists ds,
     dashboard ramp_entries = Ok (Some ds) /\
     [ds_min ds; ds_median ds; ds_p95 ds; ds_p99 ds; ds_max ds]
       = [1; 21; 39; 40; 40] /\
     ds_min ds <= ds_median ds /\ ds_median ds <= ds_p95 ds /\
     ds_p95 ds <= ds_p99 ds /\ ds_p99 ds <= ds_max ds /\
     ds_total_events ds = len ramp_entries /\
     ds_total ds = sum (List.map duration_ms ramp_entries)) /\
  dashboard huge_entries = Raise OverflowError.
Proof.
  assert (Hne : ramp_entries <> []) by discriminate.
  assert (Hlt : len ramp_entries < 2 ^ 63) by (vm_compute; reflexivity).
  split; [exact Hne |]. split; [exact ramp_durations_bounded |].
  split; [exact Hlt |].
  split.
  - destruct (dashboard_stats_ordered ramp_entries) as (Hinv & _ & Hret).
    destruct (Hret Hne ramp_durations_bounded Hlt) as (ds & Hds).
    destruct (Hinv ds Hds) as (H1 & H2 & H3 & H4 & _ & _ & H5 & H6).
    exists ds. split; [exact Hds |].
    split.
    { vm_compute in Hds. injection Hds as <-. reflexivity. }
    repeat split; assumption.
  - destruct (dashboard huge_entries) as [st | e] eqn:E.
    + vm_compute in E. discriminate E.
    + now rewrite (proj1 (proj2 (dashboard_stats_ordered huge_entries)) e E).
Defined.

(** ** The partition summary *)






Lemma group_max_spec (entries : list entry) (x : text * stats) :
  In x (part_stats entries) ->
  In (group_max x) (durations (snd x)) /\
  forall d, In d (durations (snd x)) -> d <= group_max x.
Proof.
  intros Hx.
  pose proof (gr_nonempty _ _ (part_stats_grouped entries)) as Hne.
  rewrite Forall_forall in Hne. specialize (Hne x Hx).
  destruct (py_max_spec _ Hne) as (m & Hm & Hin & Hub).
  rewrite (py_max_group x Hne) in Hm. injection Hm as ->. now split.
Qed.

Lemma part_row_of_inv (i : Z) (x : text * stats) (r : part_row) :
  part_row_of i x = Ok r ->
  pr_rank r = i + 1 /\ py_min (sorted (durations (snd x))) = Ok (pr_min r).
Proof.
  unfold part_row_of. intros H.
  destruct (py_max _); cbn [bind] in H; [| discriminate].
  destruct (py_min _); cbn [bind] in H; [| discriminate].
  destruct (Dbl.int_truediv _ _); cbn [bind] in H; [| discriminate].
  destruct (py_index _ _); cbn [bind] in H; [| discriminate].
  injection H as <-. now split.
Qed.

Lemma rows_from_inv (sp : list (text * stats)) (i : Z) (rows : list part_row) :
  rows_from part_row_of i sp = Ok rows ->
  List.map pr_rank rows
    = List.map (fun k => i + 1 + Z.of_nat k) (seq 0 (List.length sp)) /\
  Forall2 (fun x r => py_min (sorted (durations (snd x))) = Ok (pr_min r)) sp rows.
Proof.
  revert i rows. induction sp as [| x xs IH]; intros i rows H; cbn [rows_from] in H.
  - injection H as <-. split; [reflexivity | constructor].
  - destruct (part_row_of i x) as [r |] eqn:E; cbn [bind] in H; [| discriminate].
    destruct (rows_from part_row_of (i + 1) xs) as [rs |] eqn:E'; cbn [bind] in H;
      [| discriminate].
    injection H as <-. destruct (part_row_of_inv _ _ _ E) as [Hr Hm].
    destruct (IH _ _ E') as [Hrs Hms]. split.
    + cbn [List.map List.length seq]. rewrite Hr, Hrs. f_equal; [lia |].
      rewrite <- seq_shift, map_map. apply map_ext. intros k. lia.
    + now constructor.
Qed.

Lemma Forall2_and {A B : Type} (R S : A -> B -> Prop) (l : list A) (l' : list B) :
  Forall2 R l l' -> Forall2 S l l' -> Forall2 (fun a b => R a b /\ S a b) l l'.
Proof.
  intros HR. induction HR as [| a b l l' Hab _ IH]; intros HS.
  - constructor.
  - inversion HS; subst. constructor; [now split | now apply IH].
Qed.

Lemma Forall2_in_r {A B : Type} (R : A -> B -> Prop) (l : list A) (l' : list B)
    (b : B) :
  Forall2 R l l' -> In b l' -> exists a, In a l /\ R a b.
Proof.
  induction 1 as [| a b' l l' Hab _ IH]; intros Hb; [destruct Hb |].
  destruct Hb as [<- | Hb].
  - exists a. split; [now left | exact Hab].
  - destruct (IH Hb) as (a' & Ha' & HR). exists a'. split; [now right | exact HR].
Qed.

(** X5: every partition summary that is computed has one row for each
    partition of the entries, under the ranks 1, 2, ...; in every row the
    roll count is at least 1, [min <= median <= max], minimum, median and
    maximum are durations of entries of that partition, the total is what
    those entries add up to and the status is that of the maximum; the maxima
    never increase down the sheet, so neither does the severity.  The only
    exception of the summary is [OverflowError], and it is computed when the
    durations are natural numbers below [2^53]. *)
Theorem partition_summary_rows (entries : list entry) :
  (forall rows,
    partition_summary entries = Ok rows ->
    List.map pr_rank rows
      = List.map (fun k => 1 + Z.of_nat k) (seq 0 (List.length rows)) /\
    Permutation (List.map pr_partition rows)
                (first_seen (List.map partition entries)) /\
    NoDup (List.map pr_partition rows) /\
    (forall r, In r rows ->
       let es := entries_of (pr_partition r) entries in
       1 <= pr_count r /\ pr_count r = len es /\
       pr_total r = sum (List.map duration_ms es) /\
       pr_min r <= pr_median r <= pr_max r /\
       (forall v, In v [pr_min r; pr_median r; pr_max r] ->
                  In v (List.map duration_ms es)) /\
       (forall e, In e es -> pr_min r <= duration_ms e <= pr_max r) /\
       pr_status r = style_status (pr_max r)) /\
    StronglySorted (fun a b => b <= a) (List.map pr_max rows) /\
    StronglySorted (fun a b => severity_rank b <= severity_rank a)
                   (List.map pr_status rows)) /\
  (forall e, partition_summary entries = Raise e -> e = OverflowError) /\
  ((forall e, In e entries -> 0 <= duration_ms e < 2 ^ 53) ->
   exists rows, partition_summary entries = Ok rows).
Proof.
  split; [| split].
  2: { apply partition_summary_exn. }
  2: { intros Hb. destruct (partition_summary_ok entries Hb) as (rows & Hrows & _).
       now exists rows. }
  intros rows Hrows.
  pose proof (partition_summary_inv entries rows Hrows) as Hall.
  pose proof (part_stats_grouped entries) as G.
  set (ps := part_stats entries) in *.
  set (sp := stable_sort true group_max ps) in *.
  assert (P : Permutation sp ps) by apply stable_sort_perm.
  assert (Hinv : rows_from part_row_of 0 sp = Ok rows).
  { unfold partition_summary in Hrows. fold ps in Hrows.
    unfold sorted_parts in Hrows. fold ps in Hrows.
    pose proof (sorted_parts_ok entries) as Hsp. unfold sorted_parts in Hsp.
    fold ps in Hsp. rewrite Hsp in Hrows. exact Hrows. }
  destruct (rows_from_inv sp 0 rows Hinv) as [Hrank Hmin].
  assert (Hlen : List.length sp = List.length rows) by (eapply Forall2_length; eauto).
  assert (Hparts : List.map pr_partition rows = List.map fst sp).
  { apply (Forall2_map_eq row_of_group fst pr_partition); [| exact Hall].
    intros a b H. apply H. }
  assert (Hmaxs : List.map pr_max rows = List.map group_max sp).
  { apply (Forall2_map_eq row_of_group group_max pr_max); [| exact Hall].
    intros a b H. apply H. }
  split; [rewrite Hrank, Hlen; apply map_ext; intros k; lia |].
  split.
  { rewrite Hparts, <- (gr_keys _ _ G). now apply Permutation_map. }
  split.
  { rewrite Hparts. eapply Permutation_NoDup; [| exact (gr_nodup _ _ G)].
    apply Permutation_sym. now apply Permutation_map. }
  split.
  { intros r Hr es.
    destruct (Forall2_in_r _ _ _ r (Forall2_and _ _ _ _ Hall Hmin) Hr)
      as (x & Hx & (Hp & Hc & Hmx & Hmed & Htot & _ & Hst) & Hmn).
    apply (Permutation_in _ P) in Hx.
    pose proof (gr_groups _ _ G) as Hg. unfold groups_of in Hg.
    rewrite Forall_forall in Hg. pose proof (Hg x Hx) as Hdur.
    pose proof (gr_nonempty _ _ G) as Hne. rewrite Forall_forall in Hne.
    specialize (Hne x Hx).
    assert (Hes : List.map duration_ms es = durations (snd x)).
    { unfold es. now rewrite Hp, Hdur. }
    destruct (group_max_spec entries x Hx) as [Hmax_in Hmax_ub].
    assert (Hsne : sorted (durations (snd x)) <> []).
    { apply len_pos_nonempty. rewrite sorted_length. now apply len_nonempty. }
    destruct (py_min_spec _ Hsne) as (m & Hm & Hm_in & Hm_lb).
    rewrite Hmn in Hm. injection Hm as <-.
    assert (PS : Permutation (sorted (durations (snd x))) (durations (snd x)))
      by apply stable_sort_perm.
    assert (Hmed_in : In (pr_median r) (durations (snd x))).
    { rewrite Hmed. now apply median_of_in. }
    split; [rewrite Hc; unfold group_count; now apply len_nonempty |].
    split.
    { rewrite Hc. unfold group_count, len. now rewrite <- Hes, length_map. }
    split; [now rewrite Htot, Hes |].
    split.
    { split.
      - apply Hm_lb. now apply (Permutation_in _ (Permutation_sym PS)).
      - rewrite Hmx. now apply Hmax_ub. }
    split.
    { intros v Hv. rewrite Hes. cbn [In] in Hv.
      destruct Hv as [<- | [<- | [<- | []]]].
      - now apply (Permutation_in _ PS).
      - exact Hmed_in.
      - now rewrite Hmx. }
    split.
    { intros e He. assert (Hd : In (duration_ms e) (durations (snd x))).
      { rewrite <- Hes. now apply in_map. }
      split.
      - apply Hm_lb. now apply (Permutation_in _ (Permutation_sym PS)).
      - rewrite Hmx. now apply Hmax_ub. }
    now rewrite Hst, Hmx. }
  assert (Hsorted : StronglySorted (fun a b => b <= a) (List.map pr_max rows)).
  { rewrite Hmaxs. apply StronglySorted_map, stable_sort_desc. }
  split; [exact Hsorted |].
  assert (Hsts : List.map pr_status rows
                 = List.map style_status (List.map pr_max rows)).
  { rewrite Hmaxs, map_map.
    apply (Forall2_map_eq row_of_group (fun x => style_status (group_max x)) pr_status);
      [| exact Hall].
    intros a b H. apply H. }
  rewrite Hsts. apply StronglySorted_map.
  eapply StronglySorted_weaken; [| exact Hsorted].
  intros a b H. now apply style_status_monotone.
Qed.

Lemma partition_summary_rows_witness :
  (forall e, In e tied_entries -> 0 <= duration_ms e < 2 ^ 53) /\
  (exists rows,
     partition_summary tied_entries = Ok rows /\
     List.map pr_partition rows = [txt "payments-1"; txt "orders-0"] /\
     List.map pr_count rows = [2; 1] /\
     List.map pr_rank rows = [1; 2] /\
     forall r, In r rows ->
       1 <= pr_count r /\ pr_min r <= pr_median r <= pr_max r /\
       pr_status r = style_status (pr_max r)) /\
  partition_summary huge_entries = Raise OverflowError.
Proof.
  split; [exact tied_durations_bounded |].
  split.
  - destruct (partition_summary_rows tied_entries) as (Hinv & _ & Hret).
    destruct (Hret tied_durations_bounded) as (rows & Hrows).
    destruct (Hinv rows Hrows) as (_ & _ & _ & Hall & _).
    exists rows. split; [exact Hrows |].
    assert (E : rows = [mkPartRow 1 (txt "payments-1") 2 7 3
                                  (Dbl.round1 (Dbl.quotient 10 2)) 7 10 OK;
                        mkPartRow 2 (txt "orders-0") 1 7 7
                                  (Dbl.round1 (Dbl.quotient 7 1)) 7 7 OK]).
    { vm_compute in Hrows. injection Hrows as <-. vm_compute. reflexivity. }
    split; [rewrite E; reflexivity |].
    split; [rewrite E; reflexivity |].
    split; [rewrite E; reflexivity |].
    intros r Hr. destruct (Hall r Hr) as (H1 & _ & _ & H2 & _ & _ & H3).
    repeat split; try assumption; apply H2.
  - destruct (partition_summary huge_entries) as [rows | e] eqn:E.
    + vm_compute in E. discriminate E.
    + now rewrite (proj1 (proj2 (partition_summary_rows huge_entries)) e E).
Defined.

(** ** The workbook as a whole *)





(** ** The bars of the histogram *)

Lemma shiftl_sub (m t e : Z) :
  0 <= t -> 0 <= e -> Z.shiftl m (t - e) = (m * 2 ^ t) / 2 ^ e.
Proof.
  intros Ht He. destruct (Z.le_gt_cases e t) as [H | H].
  - rewrite Z.shiftl_mul_pow2 by lia.
    replace t with ((t - e) + e) at 2 by lia.
    rewrite Z.pow_add_r by lia. rewrite Z.mul_assoc.
    rewrite Z.div_mul by (apply Z.pow_nonzero; lia). reflexivity.
  - replace (t - e) with (- (e - t)) by lia.
    rewrite Z.shiftl_opp_r, Z.shiftr_div_pow2 by lia.
    replace e with ((e - t) + t) at 2 by lia.
    rewrite Z.pow_add_r by lia.
    rewrite Z.div_mul_cancel_r; [reflexivity | |]; apply Z.pow_nonzero; lia.
Qed.


Lemma round53_pow2 (j : Z) :
  53 <= j -> Dbl.round53 (2 ^ j) = (2 ^ 52, j - 52).
Proof.
  intros Hj. unfold Dbl.round53. rewrite Z.log2_pow2 by lia.
  destruct (Z.leb_spec (j + 1 - 53) 0) as [H | _]; [lia |].
  replace (j + 1 - 53) with (j - 52) by lia.
  assert (E : 2 ^ j = 2 ^ 52 * 2 ^ (j - 52)).
  { rewrite <- Z.pow_add_r by lia. f_equal. lia. }
  assert (Hp : 0 < 2 ^ (j - 52)) by (apply Z.pow_pos_nonneg; lia).
  assert (Hh : 0 < 2 ^ (j - 52 - 1)) by (apply Z.pow_pos_nonneg; lia).
  assert (Eq : 2 ^ j / 2 ^ (j - 52) = 2 ^ 52) by (rewrite E; apply Z.div_mul; lia).
  assert (Er : 2 ^ j mod 2 ^ (j - 52) = 0) by (rewrite E; apply Z.mod_mul; lia).
  rewrite Eq, Er.
  destruct (Z.ltb_spec (2 ^ (j - 52 - 1)) 0) as [? | _]; [lia |].
  destruct (Z.eqb_spec 0 (2 ^ (j - 52 - 1))) as [? | _]; [lia |].
  reflexivity.
Qed.

(** [q / q] is [1.0]. *)
Lemma round_ratio_self (q : Z) :
  0 < q -> Dbl.round_ratio q q = Dbl.mk (2 ^ 52) (-52).
Proof.
  intros Hq. unfold Dbl.round_ratio.
  destruct (Z.eqb_spec q 0) as [? | _]; [lia |].
  pose proof (Z.log2_nonneg q) as Hl.
  set (k := 56 + Z.log2 q) in *.
  rewrite (Z.mul_comm q), Z.div_mul, Z.mod_mul by lia.
  cbn [Z.eqb]. rewrite Z.add_0_r.
  replace (2 * 2 ^ k) with (2 ^ (k + 1)) by (rewrite Z.pow_add_r by lia; lia).
  rewrite round53_pow2 by lia. f_equal. lia.
Qed.

(** [p / q] is at most [1.0] when [p <= q]. *)
Lemma round_ratio_le_one (p q : Z) :
  0 <= p <= q -> 0 < q ->
  exists m e, Dbl.round_ratio p q = Dbl.mk m (- e) /\
              0 <= e /\ 0 <= m <= 2 ^ e.
Proof.
  intros Hp Hq. unfold Dbl.round_ratio.
  destruct (Z.eqb_spec p 0) as [-> | Hp0].
  { exists 0, 0. cbn. repeat split; lia. }
  assert (Hp' : 0 < p) by lia.
  pose proof (Z.log2_nonneg q) as Hl.
  set (k := 56 + Z.log2 q) in *.
  set (num := p * 2 ^ k). set (sticky := if num mod q =? 0 then 0 else 1).
  set (a := 2 * (num / q) + sticky).
  assert (Hk : 0 < 2 ^ k) by (apply Z.pow_pos_nonneg; lia).
  assert (Hnum : 0 <= num / q) by (apply Z.div_pos; unfold num; nia).
  assert (Hst : 0 <= sticky <= 1) by (unfold sticky; destruct (_ =? _); lia).
  assert (Ha : 0 <= a) by (unfold a; lia).
  assert (Hle : a <= 1 * 2 ^ (k + 1)).
  { rewrite Z.pow_add_r by lia. change (2 ^ 1) with 2.
    destruct (Z.eq_dec p q) as [-> | Hne].
    - unfold a, sticky, num. rewrite (Z.mul_comm q), Z.div_mul, Z.mod_mul by lia.
      cbn [Z.eqb]. lia.
    - assert (num / q < 2 ^ k).
      { apply Z.div_lt_upper_bound; [lia |]. unfold num. nia. }
      unfold a. lia. }
  assert (Hk0 : 56 <= k) by (unfold k; lia).
  pose proof (round53_le_representable a 1 (k + 1) Ha ltac:(lia) ltac:(lia) Hle) as Hv.
  pose proof (round53_bounds a Ha) as (Hs & Hm & _).
  assert (Hsk : snd (Dbl.round53 a) <= k + 1).
  { unfold Dbl.round53.
    destruct (Z.leb_spec (Z.log2 a + 1 - 53) 0) as [H | H]; cbn [snd]; [lia |].
    assert (Z.log2 a <= Z.log2 (1 * 2 ^ (k + 1))) by (apply Z.log2_le_mono; exact Hle).
    rewrite Z.mul_1_l, Z.log2_pow2 in H0 by lia. lia. }
  destruct (Dbl.round53 a) as [m s] eqn:E. cbn [fst snd] in *.
  assert (H2s : 0 < 2 ^ s) by (apply Z.pow_pos_nonneg; lia).
  exists m, (k + 1 - s). split; [f_equal; lia |]. split; [lia |].
  split; [exact Hm |].
  assert (E2 : 2 ^ (k + 1) = 2 ^ (k + 1 - s) * 2 ^ s).
  { rewrite <- Z.pow_add_r by lia. f_equal. lia. }
  rewrite E2 in Hv. nia.
Qed.

Lemma visual_weight_le_30 (p q : Z) :
  0 <= p <= q -> 0 < q ->
  0 <= Dbl.trunc (Dbl.mul (Dbl.round_ratio p q) (Dbl.of_int 30)) <= 30.
Proof.
  intros Hp Hq.
  destruct (round_ratio_le_one p q Hp Hq) as (m & e & -> & He & Hm).
  unfold Dbl.mul, Dbl.trunc. change (Dbl.of_int 30) with (Dbl.mk 30 0).
  cbn [Dbl.mant Dbl.expo].
  assert (Ha : 0 <= m * 30) by lia.
  assert (H2e : 0 < 2 ^ e) by (apply Z.pow_pos_nonneg; lia).
  pose proof (round53_le_representable (m * 30) 30 e Ha He ltac:(lia) ltac:(nia)) as Hv.
  pose proof (round53_bounds (m * 30) Ha) as (Hs & Hm' & _).
  destruct (Dbl.round53 (m * 30)) as [m' s']. cbn [fst snd Dbl.mant Dbl.expo] in *.
  replace (s' + - e + 0) with (s' - e) by lia.
  rewrite shiftl_sub by lia.
  assert (H2s : 0 < 2 ^ s') by (apply Z.pow_pos_nonneg; lia).
  split.
  - apply Z.div_pos; nia.
  - apply Z.div_le_upper_bound; lia.
Qed.

Lemma visual_weight_full (q : Z) :
  0 < q -> Dbl.trunc (Dbl.mul (Dbl.round_ratio q q) (Dbl.of_int 30)) = 30.
Proof. intros Hq. rewrite round_ratio_self by exact Hq. vm_compute. reflexivity. Qed.

Lemma visual_weight_empty (q : Z) :
  Dbl.trunc (Dbl.mul (Dbl.round_ratio 0 q) (Dbl.of_int 30)) = 0.
Proof. reflexivity. Qed.

(** X7: with at least one entry (durations being non-negative) every bar
    of the histogram has between 0 and 30 characters; an empty bucket has an
    empty bar and the largest bucket, which exists, has the full 30. *)
Theorem histogram_bars_bounded (entries : list entry) :
  entries <> [] ->
  (forall e, In e entries -> 0 <= duration_ms e) ->
  exists mx rows,
    max_count (bucket_counts (List.map duration_ms entries)) = Ok mx /\
    distribution entries = Ok rows /\
    (forall r, In r rows ->
       0 <= dr_count r <= mx /\ 0 <= dr_visual r <= 30 /\
       (dr_count r = 0 -> dr_visual r = 0) /\
       (dr_count r = mx -> dr_visual r = 30)) /\
    (exists r, In r rows /\ dr_count r = mx /\ dr_visual r = 30).
Proof.
  intros Hne Hpos.
  destruct (distribution_ok entries Hne Hpos) as (mx & Hmx & H1 & Hd).
  destruct (max_count_spec (List.map duration_ms entries))
    as (mx' & Hmx' & Hin & Hub & _).
  rewrite Hmx in Hmx'. injection Hmx' as <-.
  exists mx. eexists. split; [exact Hmx |]. split; [exact Hd |].
  set (bc := bucket_counts (List.map duration_ms entries)) in *.
  assert (Hcnt : forall b, In b bc -> 0 <= snd b <= mx).
  { intros b Hb. split; [| apply Hub; now apply in_map].
    unfold bc, bucket_counts in Hb. apply in_map_iff in Hb.
    destruct Hb as ([[lbl lo] hi] & <- & _). cbn [snd]. apply count_if_nonneg. }
  split.
  - intros r Hr. apply in_map_iff in Hr. destruct Hr as (b & <- & Hb).
    specialize (Hcnt b Hb). unfold dist_row_value. cbn [dr_count dr_visual].
    split; [exact Hcnt |].
    split; [apply visual_weight_le_30; lia |].
    split; intros E; rewrite E.
    + apply visual_weight_empty.
    + apply visual_weight_full. lia.
  - apply in_map_iff in Hin. destruct Hin as (b & Eb & Hb).
    exists (dist_row_value (len entries) mx b).
    split; [now apply in_map |]. unfold dist_row_value. cbn [dr_count dr_visual].
    split; [exact Eb |]. rewrite Eb. apply visual_weight_full. lia.
Qed.

Lemma histogram_bars_bounded_witness :
  skewed_entries <> [] /\
  (forall e, In e skewed_entries -> 0 <= duration_ms e) /\
  exists mx rows,
    max_count (bucket_counts (List.map duration_ms skewed_entries)) = Ok mx /\
    distribution skewed_entries = Ok rows /\
    (forall r, In r rows ->
       0 <= dr_count r <= mx /\ 0 <= dr_visual r <= 30 /\
       (dr_count r = 0 -> dr_visual r = 0) /\
       (dr_count r = mx -> dr_visual r = 30)) /\
    (exists r, In r rows /\ dr_count r = mx /\ dr_visual r = 30).
Proof.
  split; [discriminate |]. split; [exact skewed_durations_nonneg |].
  apply (histogram_bars_bounded skewed_entries);
    [discriminate | exact skewed_durations_nonneg].
Defined.

(** ** The substring test in front of the pattern *)

Lemma search_sound_infix (r : Re.t) (s : text) (caps : list text) :
  Re.search r s = Some caps ->
  exists pre w post, s = pre ++ w ++ post /\ matches r w caps.
Proof.
  induction s as [| c s IH]; cbn [Re.search]; intros H.
  - destruct (Re.run r [] [] (fun _ caps => Some caps)) as [y |] eqn:E;
      [| discriminate].
    injection H as ->. destruct (run_sound _ _ _ _ _ E) as (w & c & s' & Hs & M & Hk).
    cbn in Hk. injection Hk as <-. now exists [], w, s'.
  - destruct (Re.run r (c :: s) [] (fun _ caps => Some caps)) as [y |] eqn:E.
    + injection H as ->.
      destruct (run_sound _ _ _ _ _ E) as (w & c' & s' & Hs & M & Hk).
      cbn in Hk. injection Hk as <-. now exists [], w, s'.
    + destruct (IH H) as (pre & w & post & -> & M). now exists (c :: pre), w, post.
Qed.

Lemma starts_with_app_l (m x y : text) :
  starts_with m x = true -> starts_with m (x ++ y) = true.
Proof.
  revert x. induction m as [| a m IH]; intros x H; [reflexivity |].
  destruct x as [| b x]; [discriminate |]. cbn [starts_with app] in *.
  apply andb_true_iff in H. destruct H as [-> H]. now apply IH.
Qed.

Lemma contains_prefix (m s : text) : starts_with m s = true -> contains m s = true.
Proof. intros H. destruct s; cbn [contains]; now rewrite H. Qed.

Lemma contains_app_r (m x y : text) :
  contains m y = true -> contains m (x ++ y) = true.
Proof.
  intros H. induction x as [| c x IH]; [exact H |].
  cbn [app contains]. rewrite IH. apply orb_true_r.
Qed.

Lemma contains_app_l (m x y : text) :
  contains m x = true -> contains m (x ++ y) = true.
Proof.
  induction x as [| c x IH]; intros H.
  - cbn [contains] in H. rewrite orb_false_r in H.
    apply contains_prefix. now apply (starts_with_app_l m [] y).
  - cbn [app contains] in *. apply orb_true_iff in H. destruct H as [H | H].
    + pose proof (starts_with_app_l m (c :: x) y H) as H'. cbn [app] in H'.
      rewrite H'. reflexivity.
    + rewrite (IH H). apply orb_true_r.
Qed.

Lemma contains_marker_here (z : text) :
  contains marker (txt "Rolled new log segment at offset" ++ z) = true.
Proof. apply contains_prefix. reflexivity. Qed.

Lemma line_pattern_has_marker (rt : runtime) (w : text) (caps : list text) :
  matches (LINE_PATTERN rt) w caps -> contains marker w = true.
Proof.
  intros Hm. unfold LINE_PATTERN in Hm.
  repeat (apply matches_seq_cons in Hm;
          let w1 := fresh "w" in let c1 := fresh "c" in
          let H1 := fresh "Hi" in
          destruct Hm as (w1 & ? & c1 & ? & -> & -> & H1 & Hm)).
  repeat match goal with
         | H : matches (Re.lit _) _ _ |- _ =>
             apply matches_lit in H; destruct H as [-> _]
         end.
  repeat lazymatch goal with
         | |- contains marker (txt "Rolled new log segment at offset" ++ _) = true =>
             apply contains_marker_here
         | |- contains marker (_ ++ _) = true => apply contains_app_r
         end.
Qed.

(** X8: a line in which the pattern has a match contains the marker
    phrase, so the substring test only saves work: [parse_log] yields the
    same with and without it. *)
Theorem marker_test_is_redundant (rt : runtime) (line : text) :
  (pattern_matches rt line = true -> contains marker line = true) /\
  parse_line rt line = parse_line_ungated rt line.
Proof.
  assert (H : pattern_matches rt line = true -> contains marker line = true).
  { unfold pattern_matches.
    destruct (Re.search (LINE_PATTERN rt) line) as [caps |] eqn:E; [| discriminate].
    intros _. destruct (search_sound_infix _ _ _ E) as (pre & w & post & -> & M).
    apply contains_app_r, contains_app_l. exact (line_pattern_has_marker rt w caps M). }
  split; [exact H |].
  unfold parse_line, parse_line_ungated, pattern_matches in *.
  destruct (contains marker line); cbn [negb]; [reflexivity |].
  destruct (Re.search (LINE_PATTERN rt) line); [| reflexivity].
  specialize (H eq_refl). discriminate.
Qed.

Lemma marker_test_is_redundant_witness :
  pattern_matches ascii_runtime
    (txt "[2024-01-15 10:30:00,123] INFO [MergedLog partition=orders-0, dir=/var/kafka/data] Rolled new log segment at offset 4096 in 12 ms.") = true /\
  contains marker
    (txt "[2024-01-15 10:30:00,123] INFO [MergedLog partition=orders-0, dir=/var/kafka/data] Rolled new log segment at offset 4096 in 12 ms.") = true.
Proof.
  assert (H : pattern_matches ascii_runtime
    (txt "[2024-01-15 10:30:00,123] INFO [MergedLog partition=orders-0, dir=/var/kafka/data] Rolled new log segment at offset 4096 in 12 ms.") = true)
    by (vm_compute; reflexivity).
  split; [exact H |].
  exact (proj1 (marker_test_is_redundant ascii_runtime _) H).
Defined.

(** ** The entries of a file *)

Lemma parse_lines_app (rt : runtime) (l1 l2 : list text) :
  parse_lines rt (l1 ++ l2)
  = do es1 <- parse_lines rt l1; do es2 <- parse_lines rt l2; Ok (es1 ++ es2).
Proof.
  induction l1 as [| l ls IH]; cbn [app parse_lines bind].
  - destruct (parse_lines rt l2); reflexivity.
  - destruct (parse_line rt l) as [es |]; cbn [bind]; [| reflexivity].
    rewrite IH. destruct (parse_lines rt ls) as [es1 |]; cbn [bind]; [| reflexivity].
    destruct (parse_lines rt l2) as [es2 |]; cbn [bind]; [| reflexivity].
    now rewrite app_assoc.
Qed.

Lemma parse_line_count (rt : runtime) (line : text) (es : list entry) :
  parse_line rt line = Ok es ->
  List.length es = if pattern_matches rt line then 1%nat else 0%nat.
Proof.
  rewrite (proj2 (marker_test_is_redundant rt line)).
  unfold parse_line_ungated, pattern_matches.
  destruct (Re.search (LINE_PATTERN rt) line) as [caps |] eqn:E;
    [| intros H; now injection H as <-].
  destruct (line_pattern_groups rt line caps E)
    as (ts & part & dir & off & dur & -> & _).
  destruct (strptime rt ts); cbn [bind]; [| discriminate].
  destruct (py_int rt off); cbn [bind]; [| discriminate].
  destruct (py_int rt dur); cbn [bind]; [| discriminate].
  intros H. now injection H as <-.
Qed.

(** X9: the entries of a file are those of its lines in line order:
    parsing two runs of lines one after the other gives the entries of the
    first followed by the entries of the second, and a parse that returns
    has one entry for each line in which the pattern has a match. *)
Theorem parse_log_one_entry_per_matching_line (rt : runtime) :
  (forall l1 l2,
     parse_lines rt (l1 ++ l2)
     = do es1 <- parse_lines rt l1; do es2 <- parse_lines rt l2; Ok (es1 ++ es2)) /\
  (forall bytes es,
     parse_log rt (Content bytes) = Ok es ->
     List.length es
     = List.length (filter (pattern_matches rt) (decode_lines rt bytes))).
Proof.
  split; [apply parse_lines_app |].
  intros bytes es. cbn [parse_log]. generalize (decode_lines rt bytes).
  intros lines. revert es.
  induction lines as [| l ls IH]; cbn [parse_lines filter]; intros es H.
  - now injection H as <-.
  - destruct (parse_line rt l) as [es1 |] eqn:E1; cbn [bind] in H; [| discriminate].
    destruct (parse_lines rt ls) as [es2 |]; cbn [bind] in H; [| discriminate].
    injection H as <-. rewrite length_app, (parse_line_count rt l es1 E1), (IH es2 eq_refl).
    now destruct (pattern_matches rt l).
Qed.

Lemma parse_log_one_entry_per_matching_line_witness :
  parse_log ascii_runtime (Content (bytes_of sample_log))
  = Ok [mkEntry (mkDatetime 2024 1 15 10 30 0 123000)
                (txt "orders-0") (txt "/var/kafka/data") 4096 12] /\
  List.length [mkEntry (mkDatetime 2024 1 15 10 30 0 123000)
                       (txt "orders-0") (txt "/var/kafka/data") 4096 12]
  = List.length (filter (pattern_matches ascii_runtime)
                        (decode_lines ascii_runtime (bytes_of sample_log))).
Proof.
  assert (H : parse_log ascii_runtime (Content (bytes_of sample_log))
              = Ok [mkEntry (mkDatetime 2024 1 15 10 30 0 123000)
                            (txt "orders-0") (txt "/var/kafka/data") 4096 12])
    by (vm_compute; reflexivity).
  split; [exact H |].
  exact (proj2 (parse_log_one_entry_per_matching_line ascii_runtime) _ _ H).
Defined.

(** ** What a parsed entry holds *)

Lemma lstrip_head_not_space (rt : runtime) (s : text) (c : char) (s' : text) :
  lstrip rt s = c :: s' -> is_space rt c = false.
Proof.
  induction s as [| a s IH]; [discriminate |].
  unfold lstrip. destruct (is_space rt a) eqn:E.
  - exact IH.
  - intros H. injection H as <- _. exact E.
Qed.

Lemma lstrip_suffix (rt : runtime) (s : text) :
  exists ws, s = ws ++ lstrip rt s /\ forallb (is_space rt) ws = true.
Proof.
  induction s as [| a s IH]; [now exists [] |].
  unfold lstrip. destruct (is_space rt a) eqn:E.
  - destruct IH as (ws & Hs & Hws). exists (a :: ws). cbn [app forallb].
    rewrite E, Hws. split; [now f_equal | reflexivity].
  - now exists [].
Qed.

Lemma strip_parts (rt : runtime) (s : text) :
  exists ws1 ws2, s = ws1 ++ strip rt s ++ ws2 /\
                  forallb (is_space rt) ws1 = true /\
                  forallb (is_space rt) ws2 = true.
Proof.
  unfold strip. destruct (lstrip_suffix rt s) as (ws1 & H1 & Hw1).
  destruct (lstrip_suffix rt (rev (lstrip rt s))) as (ws2 & H2 & Hw2).
  exists ws1, (rev ws2). split; [| split; [exact Hw1 |]].
  - rewrite <- rev_app_distr, <- H2, rev_involutive. exact H1.
  - rewrite forallb_forall in *. intros c Hc. apply Hw2. now apply in_rev.
Qed.

Lemma strip_trimmed (rt : runtime) (s : text) : trimmed rt (strip rt s).
Proof.
  unfold trimmed. destruct (strip rt s) as [| c r] eqn:E; [exact I |].
  unfold strip in E.
  destruct (lstrip_suffix rt (rev (lstrip rt s))) as (ws & H2 & _).
  set (u := lstrip rt (rev (lstrip rt s))) in *.
  assert (Hu : u = rev (c :: r)) by (rewrite <- E; now rewrite rev_involutive).
  split.
  - (* the head of the result is the head of [lstrip s] *)
    assert (Ht : lstrip rt s = (c :: r) ++ rev ws).
    { rewrite <- (rev_involutive (lstrip rt s)), H2, rev_app_distr, Hu.
      now rewrite rev_involutive. }
    exact (lstrip_head_not_space rt s c _ Ht).
  - (* its last character is the head of [u] *)
    destruct (rev r) as [| z rr] eqn:Er.
    + assert (r = []) as -> by (rewrite <- (rev_involutive r), Er; reflexivity).
      cbn [last]. cbn [rev app] in Hu.
      exact (lstrip_head_not_space rt _ c [] Hu).
    + assert (Hr : r = rev rr ++ [z]).
      { rewrite <- (rev_involutive r), Er. reflexivity. }
      assert (Hl : last (c :: r) c = z).
      { rewrite Hr. change (c :: rev rr ++ [z]) with ((c :: rev rr) ++ [z]).
        apply last_last. }
      rewrite Hl. cbn [rev] in Hu. rewrite Er in Hu. cbn [app] in Hu.
      exact (lstrip_head_not_space rt _ z _ Hu).
Qed.

Lemma strip_incl (rt : runtime) (s : text) (c : char) :
  In c (strip rt s) -> In c s.
Proof.
  intros H. destruct (strip_parts rt s) as (ws1 & ws2 & Hs & _).
  rewrite Hs. apply in_or_app. right. apply in_or_app. now left.
Qed.

Lemma strptime_valid (rt : runtime) (s : text) (t : datetime) :
  strptime rt s = Ok t -> valid_datetime t.
Proof.
  unfold strptime. intros H.
  destruct (Re.match_ (FORMAT_REGEX rt) s) as [[caps rest] |]; [| discriminate].
  do 8 (destruct caps as [| ? caps]; try discriminate).
  destruct rest; [| discriminate].
  repeat match type of H with
         | bind (py_int ?r ?x) _ = Ok _ =>
             destruct (py_int r x); cbn [bind] in H; [| discriminate]
         end.
  unfold datetime_new in H.
  match type of H with (if ?b then _ else _) = _ => destruct b eqn:E end;
    [| discriminate].
  injection H as <-. rewrite !andb_true_iff, !Z.leb_le in E.
  unfold valid_datetime. cbn. lia.
Qed.

(** The groups of a match: the partition name and the directory. *)
Lemma line_pattern_names (rt : runtime) (line : text) (caps : list text) :
  Re.search (LINE_PATTERN rt) line = Some caps ->
  exists ts part dir off dur,
    caps = [ts; part; dir; off; dur] /\
    forallb (partition_char rt) part = true /\ part <> [] /\
    forallb (fun c => negb (is_char "]" c)) dir = true.
Proof.
  intros Hs. apply search_sound in Hs. destruct Hs as (w & Hm).
  unfold LINE_PATTERN in Hm.
  repeat (apply matches_seq_cons in Hm;
          let w1 := fresh "w" in let c1 := fresh "c" in
          let H1 := fresh "Hi" in
          destruct Hm as (w1 & ? & c1 & ? & -> & -> & H1 & Hm)).
  apply matches_eps_inv in Hm. destruct Hm as [-> ->].
  repeat match goal with
         | H : matches (Re.lit _) _ _ |- _ =>
             apply matches_lit in H; destruct H as [-> ->]
         | H : matches (Re.plus _) _ _ |- _ =>
             apply matches_plus in H; destruct H as (-> & _ & _)
         | H : matches (Re.star _) _ _ |- _ =>
             apply matches_rep_inv in H; destruct H as (-> & _)
         | H : matches (Re.Grp (Re.plus (is_digit _))) _ _ |- _ =>
             apply matches_grp_free in H; [| reflexivity]; destruct H as (-> & _)
         | H : matches (Re.Grp (Re.seq _)) _ _ |- _ =>
             apply matches_grp_free in H; [| reflexivity]; destruct H as (-> & _)
         | H : matches (Re.Grp (Re.plus_lazy _)) _ _ |- _ =>
             apply matches_grp_free in H; [| reflexivity];
             destruct H as (-> & H); apply matches_rep_inv in H;
             destruct H as (_ & ? & ? & _)
         | H : matches (Re.Grp (Re.plus _)) _ _ |- _ =>
             apply matches_grp_free in H; [| reflexivity];
             destruct H as (-> & H); apply matches_plus in H;
             destruct H as (_ & ? & _)
         end.
  cbn [app]. do 5 eexists. split; [reflexivity |].
  split; [assumption |]. split; [| assumption].
  intros ->. match goal with H : (1 <= List.length [])%nat |- _ => cbn in H; lia end.
Qed.

(** X10: every entry that [parse_log] returns carries a date and time of
    day that exist, an offset and a duration that are not negative, a
    partition name that is not empty and consists of word characters, dots
    and hyphens, and a directory without a closing bracket and without white
    space at either end. *)
Theorem parsed_entries_well_formed (rt : runtime) (f : file) (es : list entry) :
  runtime_ok rt -> parse_log rt f = Ok es ->
  forall e, In e es ->
    valid_datetime (timestamp e) /\
    0 <= offset e /\ 0 <= duration_ms e /\
    partition e <> [] /\ forallb (partition_char rt) (partition e) = true /\
    forallb (fun c => negb (is_char "]" c)) (directory e) = true /\
    trimmed rt (directory e).
Proof.
  intros Hok Hp e He.
  destruct (parse_log_nonneg rt f es Hok Hp e He) as [Ho Hd].
  destruct f as [| bytes]; cbn [parse_log] in Hp; [discriminate |].
  revert es Hp He. generalize (decode_lines rt bytes). intros lines.
  induction lines as [| l ls IH]; cbn [parse_lines]; intros es Hp He.
  - injection Hp as <-. destruct He.
  - destruct (parse_line rt l) as [es1 |] eqn:E1; cbn [bind] in Hp; [| discriminate].
    destruct (parse_lines rt ls) as [es2 |]; cbn [bind] in Hp; [| discriminate].
    injection Hp as <-. apply in_app_or in He. destruct He as [He | He];
      [| exact (IH es2 eq_refl He)].
    clear IH. unfold parse_line in E1.
    destruct (negb (contains marker l)); [injection E1 as <-; destruct He |].
    destruct (Re.search (LINE_PATTERN rt) l) as [caps |] eqn:Es;
      [| injection E1 as <-; destruct He].
    destruct (line_pattern_names rt l caps Es)
      as (ts & part & dir & off & dur & -> & Hpart & Hpne & Hdir).
    destruct (strptime rt ts) as [t |] eqn:Et; cbn [bind] in E1; [| discriminate].
    destruct (py_int rt off); cbn [bind] in E1; [| discriminate].
    destruct (py_int rt dur); cbn [bind] in E1; [| discriminate].
    injection E1 as <-. destruct He as [<- | []].
    cbn [timestamp partition directory offset duration_ms] in *.
    split; [exact (strptime_valid rt ts t Et) |].
    do 4 (split; [assumption |]).
    split; [| apply strip_trimmed].
    rewrite forallb_forall in *. intros c Hc. apply Hdir.
    now apply (strip_incl rt dir).
Qed.

Lemma parsed_entries_well_formed_witness :
  runtime_ok ascii_runtime /\
  parse_log ascii_runtime (Content (bytes_of sample_log))
  = Ok [mkEntry (mkDatetime 2024 1 15 10 30 0 123000)
                (txt "orders-0") (txt "/var/kafka/data") 4096 12] /\
  valid_datetime (mkDatetime 2024 1 15 10 30 0 123000).
Proof.
  assert (H : parse_log ascii_runtime (Content (bytes_of sample_log))
              = Ok [mkEntry (mkDatetime 2024 1 15 10 30 0 123000)
                            (txt "orders-0") (txt "/var/kafka/data") 4096 12])
    by (vm_compute; reflexivity).
  split; [exact ascii_runtime_ok |]. split; [exact H |].
  exact (proj1 (parsed_entries_well_formed ascii_runtime _ _ ascii_runtime_ok H
                  _ (or_introl eq_refl))).
Defined.

(** ** Timestamps written and read back *)

Lemma digit_char_ascii (v : Z) : in_range "0" "9" (digit_char v) = true.
Proof.
  unfold in_range, digit_char.
  pose proof (Z.mod_pos_bound v 10 ltac:(lia)).
  change (chr "0") with 48%N. change (chr "9") with 57%N.
  apply andb_true_iff. split; apply N.leb_le; lia.
Qed.

Lemma digit_char_value (v : Z) : Z.of_N (digit_char v) - 48 = v mod 10.
Proof.
  unfold digit_char. pose proof (Z.mod_pos_bound v 10 ltac:(lia)). lia.
Qed.

Lemma digits_length (n : nat) (v : Z) : List.length (digits n v) = n.
Proof.
  revert v. induction n as [| n IH]; intros v; [reflexivity |].
  cbn [digits]. rewrite length_app, IH. cbn. lia.
Qed.

Lemma digits_ascii (n : nat) (v : Z) : ascii_digits (digits n v) = true.
Proof.
  unfold ascii_digits. revert v. induction n as [| n IH]; intros v; [reflexivity |].
  cbn [digits]. rewrite forallb_app, IH. cbn [forallb].
  now rewrite digit_char_ascii.
Qed.

Lemma number_digits (n : nat) (v : Z) :
  number (digits n v) = v mod 10 ^ Z.of_nat n.
Proof.
  revert v. induction n as [| n IH]; intros v.
  - cbn. now rewrite Z.mod_1_r.
  - cbn [digits]. rewrite number_snoc, IH, digit_char_value.
    replace (Z.of_nat (S n)) with (Z.succ (Z.of_nat n)) by lia.
    rewrite Z.pow_succ_r by lia.
    rewrite (Z.rem_mul_r v 10 (10 ^ Z.of_nat n)) by (try apply Z.pow_pos_nonneg; lia).
    lia.
Qed.

Lemma number_pad (f : text) (j : nat) :
  number (f ++ repeat (chr "0") j) = number f * 10 ^ Z.of_nat j.
Proof.
  revert f. induction j as [| j IH]; intros f.
  - cbn [repeat]. rewrite app_nil_r. cbn. lia.
  - cbn [repeat]. change (f ++ chr "0" :: repeat (chr "0") j)
      with (f ++ [chr "0"] ++ repeat (chr "0") j).
    rewrite app_assoc, IH, number_snoc.
    replace (Z.of_nat (S j)) with (Z.succ (Z.of_nat j)) by lia.
    rewrite Z.pow_succ_r by lia. change (Z.of_N (chr "0") - 48) with 0. lia.
Qed.

Lemma ts_fields_of_shape (rt : runtime) (Y m d ws H M S f : text) :
  runtime_ok rt ->
  List.length Y = 4%nat -> List.length m = 2%nat -> List.length d = 2%nat ->
  List.length H = 2%nat -> List.length M = 2%nat -> List.length S = 2%nat ->
  forallb (is_digit rt) H = true -> forallb (is_space rt) ws = true ->
  ts_fields rt (Y ++ txt "-" ++ m ++ txt "-" ++ d ++ ws
                  ++ H ++ txt ":" ++ M ++ txt ":" ++ S ++ txt "," ++ f)
  = (Y, m, d, H, M, S, f).
Proof.
  intros Hok LY Lm Ld LH LM LS Hdig Hws.
  destruct Y as [| y1 [| y2 [| y3 [| y4 [| ? ?]]]]]; try discriminate.
  two_chars m. two_chars d. two_chars H. two_chars M. two_chars S.
  assert (Hh1 : is_space rt c3 = false).
  { apply (digit_not_space rt c3 Hok).
    cbn [forallb] in Hdig. apply andb_true_iff in Hdig. tauto. }
  unfold ts_fields. cbn [app txt List.map list_ascii_of_string firstn skipn].
  rewrite lstrip_spaces by exact Hws. rewrite lstrip_head by exact Hh1.
  reflexivity.
Qed.

Lemma strptime_of_format (rt : runtime) (k : nat) (t : datetime) :
  runtime_ok rt -> valid_datetime t ->
  (1 <= k <= 6)%nat ->
  dt_microsecond t mod 10 ^ (6 - Z.of_nat k) = 0 ->
  strptime rt (format_timestamp k t) = Ok t.
Proof.
  intros Hok (Hy & Hm & Hd & HH & HM & HS & Hus) Hk Hdiv.
  destruct t as [y m d H M S us]. cbn [dt_year dt_month dt_day dt_hour dt_minute
    dt_second dt_microsecond] in *.
  unfold format_timestamp.
  cbn [dt_year dt_month dt_day dt_hour dt_minute dt_second dt_microsecond].
  set (v := us / 10 ^ (6 - Z.of_nat k)).
  assert (Hv : 0 <= v < 10 ^ Z.of_nat k /\ v * 10 ^ Z.of_nat (6 - k) = us).
  { unfold v. clear - Hk Hdiv Hus.
    destruct k as [| [| [| [| [| [| [| k]]]]]]]; try lia;
      repeat match goal with
             | H : context [10 ^ ?e] |- _ =>
                 let c := eval vm_compute in (10 ^ e) in change (10 ^ e) with c in H
             | |- context [10 ^ ?e] =>
                 let c := eval vm_compute in (10 ^ e) in change (10 ^ e) with c
             end;
      match type of Hdiv with
      | _ mod ?p = 0 =>
          pose proof (Z.div_mod us p ltac:(lia));
          pose proof (Z.div_le_upper_bound us p (1000000 / p) ltac:(lia));
          pose proof (Z.div_pos us p ltac:(lia) ltac:(lia))
      end; try rewrite Z.div_1_r in *; lia. }
  destruct Hv as [Hv Hvus].
  assert (LY := digits_length 4 y). assert (Lm := digits_length 2 m).
  assert (Ld := digits_length 2 d). assert (LH := digits_length 2 H).
  assert (LM := digits_length 2 M). assert (LS := digits_length 2 S).
  assert (Lf := digits_length k v).
  assert (NY : number (digits 4 y) = y)
    by (rewrite number_digits; change (10 ^ Z.of_nat 4) with 10000; apply Z.mod_small; lia).
  assert (N2 : forall x, 0 <= x <= 99 -> number (digits 2 x) = x)
    by (intros x Hx; rewrite number_digits; change (10 ^ Z.of_nat 2) with 100;
        apply Z.mod_small; lia).
  assert (Hdim : days_in_month y m <= 31).
  { unfold days_in_month.
    repeat match goal with |- context [if ?b then _ else _] => destruct b end; lia. }
  assert (Nf : number (digits k v) = v)
    by (rewrite number_digits; apply Z.mod_small; exact Hv).
  assert (Hfne : digits k v <> []).
  { intros E. apply (f_equal (@List.length _)) in E. rewrite Lf in E. cbn in E. lia. }
  rewrite (strptime_ok rt (digits 4 y) (digits 2 m) (digits 2 d) (txt " ")
             (digits 2 H) (digits 2 M) (digits 2 S) (digits k v));
    try assumption; try reflexivity; try discriminate.
  - rewrite NY, !N2 by lia. rewrite number_pad, Nf, Lf, Hvus. reflexivity.
  - rewrite !forallb_app.
    rewrite !(ascii_digits_is_digit rt _ (digits_ascii _ _)). reflexivity.
  - unfold timestamp_ok.
    rewrite (ts_fields_of_shape rt) by
      first [assumption | reflexivity | apply ascii_digits_is_digit, digits_ascii].
    unfold ascii_digits. rewrite !forallb_app.
    repeat match goal with
           | |- context [forallb (in_range "0" "9") (digits ?n ?x)] =>
               rewrite (digits_ascii n x : forallb (in_range "0" "9") (digits n x) = true)
           end.
    rewrite NY, !N2, Lf by lia. cbn [andb].
    repeat match goal with
           | |- context [?a <=? ?b] =>
               let E := fresh in
               assert (E : (a <=? b) = true) by (apply Z.leb_le; lia);
               rewrite E; clear E
           end.
    cbn [andb]. apply Nat.leb_le. lia.
Qed.

(** X11: [strptime] reads a timestamp back: for every date and time of
    day that exist, written in the format with the fraction of the second in
    [k] digits (1 to 6, the microseconds being a multiple of the unit of the
    last digit), it returns that date and time. *)
Theorem strptime_format_round_trip (rt : runtime) (k : nat) (t : datetime) :
  runtime_ok rt -> valid_datetime t ->
  (1 <= k <= 6)%nat ->
  dt_microsecond t mod 10 ^ (6 - Z.of_nat k) = 0 ->
  strptime rt (format_timestamp k t) = Ok t.
Proof. apply strptime_of_format. Qed.

Lemma strptime_format_round_trip_witness :
  runtime_ok ascii_runtime /\
  valid_datetime (mkDatetime 2024 2 29 23 59 59 123000) /\
  (1 <= 3 <= 6)%nat /\
  dt_microsecond (mkDatetime 2024 2 29 23 59 59 123000) mod 10 ^ (6 - Z.of_nat 3) = 0 /\
  strptime ascii_runtime (format_timestamp 3 (mkDatetime 2024 2 29 23 59 59 123000))
  = Ok (mkDatetime 2024 2 29 23 59 59 123000).
Proof.
  assert (V : valid_datetime (mkDatetime 2024 2 29 23 59 59 123000))
    by (unfold valid_datetime; cbn; lia).
  split; [exact ascii_runtime_ok |]. split; [exact V |].
  split; [lia |]. split; [reflexivity |].
  apply (strptime_format_round_trip ascii_runtime 3 _ ascii_runtime_ok V);
    [lia | reflexivity].
Defined.

(** ** Lines written and read back *)

Lemma rep_lazy_leads {R : Type} (p : char -> bool) (lo : nat) (hi : option nat)
    (rest : text) (k : text -> option R) (x : R) (w : text) :
  forall n,
    forallb p w = true -> (lo <= n + List.length w)%nat ->
    match hi with Some h => (n + List.length w <= h)%nat | None => True end ->
    (forall c w', In c w -> k (c :: w') = None) ->
    k rest = Some x ->
    Re.rep_lazy p lo hi n (w ++ rest) k = Some x.
Proof.
  induction w as [| a w IH]; intros n Hw Hlo Hhi Hfail Hk.
  - cbn [app]. cbn in Hlo.
    assert (E : (lo <=? n)%nat = true) by (apply Nat.leb_le; lia).
    destruct rest as [| c rest']; cbn [Re.rep_lazy]; rewrite E; [exact Hk |].
    now rewrite Hk.
  - cbn [app Re.rep_lazy]. cbn [forallb] in Hw. apply andb_true_iff in Hw.
    destruct Hw as [Ha Hw]. cbn [List.length] in *. rewrite Ha.
    assert (Hu : Re.under hi n = true).
    { destruct hi as [h |]; [| reflexivity]. cbn. apply Nat.ltb_lt. lia. }
    rewrite Hu. cbn [andb].
    assert (Hhi' : match hi with
                   | Some h => (S n + List.length w <= h)%nat
                   | None => True
                   end) by (destruct hi; [lia | exact I]).
    rewrite (Hfail a (w ++ rest) (or_introl eq_refl)).
    rewrite (IH (S n) Hw ltac:(lia) Hhi' (fun c w' Hc => Hfail c w' (or_intror Hc)) Hk).
    now destruct (lo <=? n)%nat.
Qed.

(** A lazy repetition in a group, followed by a character that the
    repeated class does not hold: the group ends at the first such
    character. *)
Lemma leads_lazy_grp_chr (p q : char -> bool) (lo : nat) (rs : list Re.t)
    (w : text) (d : char) (w2 : text) (c2 : list text) (rest : text) :
  forallb p w = true -> (lo <= List.length w)%nat ->
  (forall c, In c w -> q c = false) -> q d = true ->
  leads (Re.seq rs) w2 c2 rest ->
  leads (Re.seq (Re.Grp (Re.Rep p lo None false)
                   :: Re.Seq (Re.Chr q) Re.Eps :: rs))
        (w ++ [d] ++ w2) ([w] ++ c2) rest.
Proof.
  intros Hw Hlo Hq Hd H2 R caps k x Hk.
  cbn [Re.seq fold_right Re.run]. fold (Re.seq rs). rewrite <- !app_assoc.
  apply (rep_lazy_leads p lo None ([d] ++ w2 ++ rest) _ x w 0%nat Hw);
    [lia | exact I | |].
  - intros c w' Hc. now rewrite (Hq c Hc).
  - rewrite firstn_consumed. cbn [app]. rewrite Hd.
    apply H2. now rewrite <- app_assoc.
Qed.

Lemma search_leads (r : Re.t) (w : text) (c : list text) (rest : text) :
  leads r w c rest -> Re.search r (w ++ rest) = Some c.
Proof.
  intros H.
  assert (E : Re.run r (w ++ rest) [] (fun _ caps => Some caps) = Some c)
    by now apply H.
  destruct (w ++ rest); cbn [Re.search]; now rewrite E.
Qed.

Lemma strip_id (rt : runtime) (s : text) : trimmed rt s -> strip rt s = s.
Proof.
  destruct s as [| c s]; [reflexivity |]. intros [Hh Hl]. unfold strip.
  rewrite (lstrip_head rt c s Hh).
  assert (E : rev (c :: s) = last (c :: s) c :: rev (removelast (c :: s))).
  { rewrite (app_removelast_last c (l := c :: s)) at 1 by discriminate.
    now rewrite rev_unit. }
  rewrite E, (lstrip_head rt _ _ Hl), <- E. apply rev_involutive.
Qed.

Lemma partition_char_not_comma (rt : runtime) (c : char) :
  partition_char rt c = true -> is_char "," c = false.
Proof.
  unfold is_char at 1. destruct (N.eqb_spec c (chr ",")) as [-> |]; [| reflexivity].
  intros H. vm_compute in H. discriminate.
Qed.

Lemma digits_stop_spaces (rt : runtime) (n : nat) (v : Z) (rest : text) :
  runtime_ok rt -> (1 <= n)%nat -> stops (is_space rt) (digits n v ++ rest).
Proof.
  intros Hok Hn. pose proof (digits_length n v) as L.
  pose proof (ascii_digits_is_digit rt _ (digits_ascii n v)) as D.
  destruct (digits n v) as [| c l]; [cbn in L; lia |].
  cbn [app stops]. apply (digit_not_space rt c Hok).
  cbn [forallb] in D. apply andb_true_iff in D. tauto.
Qed.

Lemma format_timestamp_leads (rt : runtime) (k : nat) (t : datetime) (rest : text) :
  runtime_ok rt -> (1 <= k)%nat -> stops (is_digit rt) rest ->
  leads (Re.Grp (Re.seq [ Re.times 4 (is_digit rt); Re.lit "-";
                          Re.times 2 (is_digit rt); Re.lit "-";
                          Re.times 2 (is_digit rt); Re.plus (is_space rt);
                          Re.times 2 (is_digit rt); Re.lit ":";
                          Re.times 2 (is_digit rt); Re.lit ":";
                          Re.times 2 (is_digit rt); Re.lit ",";
                          Re.plus (is_digit rt) ]))
        (format_timestamp k t) [format_timestamp k t] rest.
Proof.
  intros Hok Hk Hstop. apply leads_grp. unfold format_timestamp.
  set (f := digits k _).
  assert (D : forall n v, forallb (is_digit rt) (digits n v) = true)
    by (intros; apply ascii_digits_is_digit, digits_ascii).
  assert (T : forall n v rest',
             stops (is_digit rt) rest' ->
             leads (Re.times n (is_digit rt)) (digits n v) [] rest').
  { intros n v rest' Hs. apply leads_rep_greedy;
      [apply D | rewrite digits_length; lia | rewrite digits_length; lia | exact Hs]. }
  replace f with (f ++ []) by apply app_nil_r.
  repeat first
    [ apply (leads_seq_cons _ _ (digits _ _) _ [] []);
        [apply T; reflexivity |]
    | apply (leads_seq_cons _ _ (txt _) _ [] []);
        [first [ apply leads_lit
               | apply leads_rep_greedy;
                 [ reflexivity | cbn; lia | exact I
                 | apply (digits_stop_spaces rt 2 _ _ Hok); lia ] ] |] ].
  apply (leads_seq_cons _ _ f [] [] []); [| apply leads_eps].
  apply leads_rep_greedy; [apply D | unfold f; rewrite digits_length; lia | exact I |].
  exact Hstop.
Qed.

Lemma format_line_leads (rt : runtime) (k n_off n_dur : nat) (e : entry)
    (post : text) :
  runtime_ok rt -> (1 <= k)%nat -> (1 <= n_off)%nat -> (1 <= n_dur)%nat ->
  partition e <> [] -> forallb (partition_char rt) (partition e) = true ->
  directory e <> [] ->
  forallb (fun c => negb (is_char "]" c)) (directory e) = true ->
  leads (LINE_PATTERN rt)
        (txt "[" ++ format_timestamp k (timestamp e)
         ++ txt "]" ++ txt " " ++ txt "INFO" ++ txt " " ++ txt "[MergedLog"
         ++ txt " " ++ txt "partition=" ++ partition e ++ [chr ","]
         ++ txt " " ++ txt "dir=" ++ directory e ++ txt "]" ++ txt " "
         ++ txt "Rolled new log segment at offset" ++ txt " "
         ++ digits n_off (offset e) ++ txt " " ++ txt "in" ++ txt " "
         ++ digits n_dur (duration_ms e) ++ txt " " ++ txt "ms" ++ txt "." ++ [])
        ([format_timestamp k (timestamp e)] ++ [partition e] ++ [directory e]
         ++ [digits n_off (offset e)] ++ [digits n_dur (duration_ms e)] ++ [])
        post.
Proof.
  intros Hok Hk Hno Hnd Hpne Hp Hdne Hd.
  assert (D : forall n v, forallb (is_digit rt) (digits n v) = true)
    by (intros; apply ascii_digits_is_digit, digits_ascii).
  assert (Sp : forall rest', stops (is_space rt) rest' ->
                             leads (Re.plus (is_space rt)) (txt " ") [] rest').
  { intros rest' Hs. apply leads_rep_greedy; [reflexivity | cbn; lia | exact I | exact Hs]. }
  assert (Dg : forall n v rest', (1 <= n)%nat -> stops (is_digit rt) rest' ->
                                 leads (Re.Grp (Re.plus (is_digit rt)))
                                       (digits n v) [digits n v] rest').
  { intros n v rest' Hn Hs. apply leads_grp, leads_rep_greedy;
      [apply D | rewrite digits_length; lia | exact I | exact Hs]. }
  unfold LINE_PATTERN.
  apply (leads_seq_cons _ _ (txt "[") _ [] _); [apply leads_lit |].
  apply (leads_seq_cons _ _ (format_timestamp k (timestamp e)) _
           [format_timestamp k (timestamp e)] _);
    [apply (format_timestamp_leads rt k _ _ Hok Hk); reflexivity |].
  apply (leads_seq_cons _ _ (txt "]") _ [] _); [apply leads_lit |].
  apply (leads_seq_cons _ _ (txt " ") _ [] _); [apply Sp; reflexivity |].
  apply (leads_seq_cons _ _ (txt "INFO") _ [] _); [apply leads_lit |].
  apply (leads_seq_cons _ _ (txt " ") _ [] _); [apply Sp; reflexivity |].
  apply (leads_seq_cons _ _ (txt "[MergedLog") _ [] _); [apply leads_lit |].
  apply (leads_seq_cons _ _ (txt " ") _ [] _); [apply Sp; reflexivity |].
  apply (leads_seq_cons _ _ (txt "partition=") _ [] _); [apply leads_lit |].
  change (Re.lit ",") with (Re.Seq (Re.Chr (is_char ",")) Re.Eps).
  unfold Re.plus_lazy.
  apply (leads_lazy_grp_chr _ (is_char ",") 1 _ (partition e) (chr ",")).
  { exact Hp. }
  { destruct (partition e); [congruence | cbn; lia]. }
  { intros c Hc. apply (partition_char_not_comma rt).
    rewrite forallb_forall in Hp. now apply Hp. }
  { reflexivity. }
  apply (leads_seq_cons _ _ (txt " ") _ [] _);
    [apply leads_rep_greedy; [reflexivity | cbn; lia | exact I | reflexivity] |].
  apply (leads_seq_cons _ _ (txt "dir=") _ [] _); [apply leads_lit |].
  apply (leads_seq_cons _ _ (directory e) _ [directory e] _).
  { apply leads_grp, leads_rep_greedy;
      [exact Hd | destruct (directory e); [congruence | cbn; lia] | exact I
      | reflexivity]. }
  apply (leads_seq_cons _ _ (txt "]") _ [] _); [apply leads_lit |].
  apply (leads_seq_cons _ _ (txt " ") _ [] _); [apply Sp; reflexivity |].
  apply (leads_seq_cons _ _ (txt "Rolled new log segment at offset") _ [] _);
    [apply leads_lit |].
  apply (leads_seq_cons _ _ (txt " ") _ [] _);
    [apply Sp; rewrite <- app_assoc; now apply digits_stop_spaces |].
  apply (leads_seq_cons _ _ (digits n_off (offset e)) _ [digits n_off (offset e)] _);
    [apply Dg; [exact Hno | reflexivity] |].
  apply (leads_seq_cons _ _ (txt " ") _ [] _); [apply Sp; reflexivity |].
  apply (leads_seq_cons _ _ (txt "in") _ [] _); [apply leads_lit |].
  apply (leads_seq_cons _ _ (txt " ") _ [] _);
    [apply Sp; rewrite <- app_assoc; now apply digits_stop_spaces |].
  apply (leads_seq_cons _ _ (digits n_dur (duration_ms e)) _
           [digits n_dur (duration_ms e)] _);
    [apply Dg; [exact Hnd | reflexivity] |].
  apply (leads_seq_cons _ _ (txt " ") _ [] _); [apply Sp; reflexivity |].
  apply (leads_seq_cons _ _ (txt "ms") _ [] _); [apply leads_lit |].
  apply (leads_seq_cons _ _ (txt ".") [] [] []); [apply leads_lit | apply leads_eps].
Qed.

Lemma py_int_of_digits (rt : runtime) (n : nat) (v : Z) :
  runtime_ok rt -> (1 <= n <= 640)%nat -> 0 <= v < 10 ^ Z.of_nat n ->
  py_int rt (digits n v) = Ok v.
Proof.
  intros Hok Hn Hv.
  rewrite (py_int_ascii rt (digits n v) Hok).
  - rewrite number_digits. now rewrite Z.mod_small.
  - intros E. apply (f_equal (@List.length _)) in E.
    rewrite digits_length in E. cbn in E. lia.
  - apply digits_ascii.
  - rewrite digits_length. lia.
Qed.

Lemma parse_line_of_format (rt : runtime) (e : entry) (line : text) :
  runtime_ok rt -> line_of rt e line -> parse_line rt line = Ok [e].
Proof.
  intros Hok (k & n_off & n_dur & post & -> & Hts & Hk & Hus & Hpne & Hp & Hdne & Hd
              & Htr & Hno & Hoff & Hnd & Hdur).
  pose proof (format_line_leads rt k n_off n_dur e post Hok ltac:(lia) ltac:(lia)
                ltac:(lia) Hpne Hp Hdne Hd) as L.
  apply search_leads in L.
  assert (E : Re.search (LINE_PATTERN rt) (format_line k n_off n_dur e post)
              = Some [format_timestamp k (timestamp e); partition e; directory e;
                      digits n_off (offset e); digits n_dur (duration_ms e)]).
  { rewrite <- !app_assoc in L. unfold format_line. exact L. }
  assert (C : contains marker (format_line k n_off n_dur e post) = true).
  { destruct (search_sound_infix _ _ _ E) as (pre & w & post' & -> & M).
    apply contains_app_r, contains_app_l. exact (line_pattern_has_marker rt w _ M). }
  unfold parse_line. rewrite C, E. cbn [negb].
  rewrite (strptime_of_format rt k _ Hok Hts Hk Hus). cbn [bind].
  rewrite (py_int_of_digits rt n_off _ Hok Hno Hoff). cbn [bind].
  rewrite (py_int_of_digits rt n_dur _ Hok Hnd Hdur). cbn [bind].
  rewrite (strip_id rt _ Htr). now destruct e.
Qed.

(** X13: lines of the broker log are read back: when every line of a
    file is the line of an entry (timestamp, partition, directory, offset
    and duration written as [LINE_PATTERN] and the conversions expect them),
    the parse returns exactly these entries, in the order of the lines. *)
Theorem parse_lines_of_format (rt : runtime) (es : list entry) (lines : list text) :
  runtime_ok rt -> Forall2 (line_of rt) es lines ->
  parse_lines rt lines = Ok es.
Proof.
  intros Hok H. induction H as [| e line es lines He _ IH]; [reflexivity |].
  cbn [parse_lines]. rewrite (parse_line_of_format rt e line Hok He), IH.
  reflexivity.
Qed.

Lemma parse_lines_of_format_witness :
  runtime_ok ascii_runtime /\
  Forall2 (line_of ascii_runtime)
    [mkEntry (mkDatetime 2024 1 15 10 30 0 123000)
             (txt "orders-0") (txt "/var/kafka/data") 4096 12]
    [txt "[2024-01-15 10:30:00,123] INFO [MergedLog partition=orders-0, dir=/var/kafka/data] Rolled new log segment at offset 4096 in 12 ms. (kafka.log.MergedLog)"] /\
  parse_lines ascii_runtime
    [txt "[2024-01-15 10:30:00,123] INFO [MergedLog partition=orders-0, dir=/var/kafka/data] Rolled new log segment at offset 4096 in 12 ms. (kafka.log.MergedLog)"]
  = Ok [mkEntry (mkDatetime 2024 1 15 10 30 0 123000)
                (txt "orders-0") (txt "/var/kafka/data") 4096 12].
Proof.
  assert (F : Forall2 (line_of ascii_runtime)
    [mkEntry (mkDatetime 2024 1 15 10 30 0 123000)
             (txt "orders-0") (txt "/var/kafka/data") 4096 12]
    [txt "[2024-01-15 10:30:00,123] INFO [MergedLog partition=orders-0, dir=/var/kafka/data] Rolled new log segment at offset 4096 in 12 ms. (kafka.log.MergedLog)"]).
  { constructor; [| constructor].
    exists 3%nat, 4%nat, 2%nat, (txt " (kafka.log.MergedLog)").
    split; [vm_compute; reflexivity |].
    split; [unfold valid_datetime; cbn; lia |].
    split; [lia |]. split; [reflexivity |].
    split; [discriminate |]. split; [vm_compute; reflexivity |].
    split; [discriminate |]. split; [vm_compute; reflexivity |].
    split; [split; vm_compute; reflexivity |].
    split; [lia |]. split; [cbn; lia |]. split; [lia |]. cbn; lia. }
  split; [exact ascii_runtime_ok |]. split; [exact F |].
  exact (parse_lines_of_format ascii_runtime _ _ ascii_runtime_ok F).
Defined.

(** ** The command line *)




(** ** The percentages of the histogram *)



(** Rounding to the nearest integer never passes an integer bound. *)
Lemma round_int_le (m e c : Z) :
  0 <= m -> 0 <= e -> m <= c * 2 ^ e ->
  0 <= Dbl.round_int (Dbl.mk m (- e)) <= c.
Proof.
  intros Hm He Hle. unfold Dbl.round_int. cbn [Dbl.mant Dbl.expo].
  destruct (Z.leb_spec 0 (- e)) as [H | H].
  - replace e with 0 in * by lia. cbn [Z.opp]. rewrite Z.pow_0_r in *. lia.
  - rewrite Z.opp_involutive.
    assert (Hd : 0 < 2 ^ e) by (apply Z.pow_pos_nonneg; lia).
    pose proof (Z.div_mod m (2 ^ e) ltac:(lia)) as Hdm.
    pose proof (Z.mod_pos_bound m (2 ^ e) Hd) as Hr.
    assert (Hq : 0 <= m / 2 ^ e) by (apply Z.div_pos; lia).
    set (d := 2 ^ e) in *. set (q := m / d) in *. set (r := m mod d) in *.
    assert (Hqc : q <= c) by nia.
    destruct (Z.ltb_spec d (2 * r)) as [Hlt | Hge]; cbn [orb].
    + assert (q < c) by nia. lia.
    + destruct (Z.eqb_spec (2 * r) d) as [Heq | Hne]; cbn [andb].
      * destruct (Z.odd q); [| lia]. assert (q < c) by nia. lia.
      * lia.
Qed.

Lemma percentage_bounds (count n : Z) :
  0 <= count <= n -> 0 < n ->
  0 <= Dbl.num (Dbl.round1 (Dbl.mul (Dbl.round_ratio count n) (Dbl.of_int 100)))
    <= 100 * Dbl.den (Dbl.round1 (Dbl.mul (Dbl.round_ratio count n)
                                           (Dbl.of_int 100))).
Proof.
  intros Hc Hn.
  destruct (round_ratio_le_one count n Hc Hn) as (m & e & -> & He & Hm).
  unfold Dbl.mul. change (Dbl.of_int 100) with (Dbl.mk 100 0).
  cbn [Dbl.mant Dbl.expo].
  assert (Ha : 0 <= m * 100) by lia.
  assert (H2e : 0 < 2 ^ e) by (apply Z.pow_pos_nonneg; lia).
  pose proof (round53_le_representable (m * 100) 100 e Ha He ltac:(lia) ltac:(nia)) as Hv.
  pose proof (round53_bounds (m * 100) Ha) as (Hs & Hm' & _).
  destruct (Dbl.round53 (m * 100)) as [m' s']. cbn [fst snd] in *.
  assert (H2s : 0 < 2 ^ s') by (apply Z.pow_pos_nonneg; lia).
  unfold Dbl.round1, Dbl.round_to. cbn [Dbl.mant Dbl.expo].
  replace (s' + - e + 0) with (s' - e) by lia.
  assert (HN : 0 <= Dbl.round_int (Dbl.mk (10 * m') (s' - e)) <= 1000).
  { destruct (Z.le_gt_cases s' e) as [H | H].
    - replace (s' - e) with (- (e - s')) by lia.
      apply round_int_le; [lia | lia |].
      assert (E2 : 2 ^ e = 2 ^ (e - s') * 2 ^ s').
      { rewrite <- Z.pow_add_r by lia. f_equal. lia. }
      rewrite E2 in Hv. nia.
    - unfold Dbl.round_int. cbn [Dbl.mant Dbl.expo].
      destruct (Z.leb_spec 0 (s' - e)) as [_ | ?]; [| lia].
      assert (E2 : 2 ^ s' = 2 ^ (s' - e) * 2 ^ e).
      { rewrite <- Z.pow_add_r by lia. f_equal. lia. }
      assert (0 < 2 ^ (s' - e)) by (apply Z.pow_pos_nonneg; lia).
      rewrite E2 in Hv. nia. }
  destruct (Z.ltb_spec (Dbl.round_int (Dbl.mk (10 * m') (s' - e))) 0) as [? | _];
    [lia |].
  apply round_ratio_le; [lia | lia | cbn; lia].
Qed.

Lemma percentage_full (n : Z) :
  0 < n ->
  Dbl.round1 (Dbl.mul (Dbl.round_ratio n n) (Dbl.of_int 100))
  = Dbl.round_ratio 1000 10.
Proof. intros Hn. rewrite round_ratio_self by exact Hn. vm_compute. reflexivity. Qed.

(** X14: with at least one entry every percentage of the histogram,
    [round(count / len(entries) * 100, 1)] computed in binary64, is a number
    from 0 to 100; an empty bucket shows 0 and a bucket that holds every
    entry shows exactly 100. *)
Theorem histogram_percentages_bounded (entries : list entry) :
  entries <> [] ->
  (forall e, In e entries -> 0 <= duration_ms e) ->
  exists rows,
    distribution entries = Ok rows /\
    forall r, In r rows ->
      0 <= dr_count r <= len entries /\
      0 <= Dbl.num (dr_percentage r) <= 100 * Dbl.den (dr_percentage r) /\
      (dr_count r = 0 -> dr_percentage r = Dbl.zero) /\
      (dr_count r = len entries ->
       Dbl.feqb (dr_percentage r) (Dbl.of_int 100) = true).
Proof.
  intros Hne Hpos.
  destruct (distribution_ok entries Hne Hpos) as (mx & _ & _ & Hd).
  eexists. split; [exact Hd |].
  pose proof (len_nonempty entries Hne) as Hlen.
  intros r Hr. apply in_map_iff in Hr. destruct Hr as (b & <- & Hb).
  assert (Hcnt : 0 <= snd b <= len entries).
  { unfold bucket_counts in Hb. apply in_map_iff in Hb.
    destruct Hb as ([[lbl lo] hi] & <- & _). cbn [snd].
    split; [apply count_if_nonneg |].
    replace (len entries) with (len (List.map duration_ms entries))
      by (unfold len; now rewrite length_map).
    apply count_if_le_len. }
  unfold dist_row_value. cbn [dr_count dr_percentage].
  split; [exact Hcnt |].
  split; [apply percentage_bounds; lia |].
  split; intros E; rewrite E.
  - reflexivity.
  - rewrite percentage_full by lia. vm_compute. reflexivity.
Qed.

Lemma histogram_percentages_bounded_witness :
  skewed_entries <> [] /\
  (forall e, In e skewed_entries -> 0 <= duration_ms e) /\
  exists rows,
    distribution skewed_entries = Ok rows /\
    forall r, In r rows ->
      0 <= dr_count r <= len skewed_entries /\
      0 <= Dbl.num (dr_percentage r) <= 100 * Dbl.den (dr_percentage r) /\
      (dr_count r = 0 -> dr_percentage r = Dbl.zero) /\
      (dr_count r = len skewed_entries ->
       Dbl.feqb (dr_percentage r) (Dbl.of_int 100) = true).
Proof.
  split; [discriminate |]. split; [exact skewed_durations_nonneg |].
  apply (histogram_percentages_bounded skewed_entries);
    [discriminate | exact skewed_durations_nonneg].
Defined.

(** ** The averages of the report *)

(** Rounding to 53 bits never falls below a number that has at most 53
    bits itself. *)
Lemma round53_ge_representable (a c t : Z) :
  0 <= t -> 0 <= c < 2 ^ 53 -> c * 2 ^ t <= a ->
  c * 2 ^ t <= fst (Dbl.round53 a) * 2 ^ snd (Dbl.round53 a).
Proof.
  intros Ht Hc Hle. unfold Dbl.round53.
  assert (H2t : 0 < 2 ^ t) by (apply Z.pow_pos_nonneg; lia).
  destruct (Z.leb_spec (Z.log2 a + 1 - 53) 0) as [Hs | Hs]; cbn [fst snd].
  - rewrite Z.pow_0_r. lia.
  - set (s := Z.log2 a + 1 - 53) in *.
    assert (Hpos : 0 < a).
    { destruct (Z.le_gt_cases a 0) as [H | H]; [| exact H].
      pose proof (Z.log2_nonpos a H). unfold s in Hs. lia. }
    assert (Hlog : 2 ^ Z.log2 a <= a) by (apply Z.log2_spec; lia).
    assert (HP : 0 < 2 ^ s) by (apply Z.pow_pos_nonneg; lia).
    pose proof (Z.div_mod a (2 ^ s) ltac:(lia)) as Hdm.
    pose proof (Z.mod_pos_bound a (2 ^ s) HP) as Hr.
    assert (Hq : c * 2 ^ t <= a / 2 ^ s * 2 ^ s).
    { destruct (Z.le_gt_cases s t) as [H | H].
      - assert (E : 2 ^ t = 2 ^ (t - s) * 2 ^ s).
        { rewrite <- Z.pow_add_r by lia. f_equal. lia. }
        assert (0 < 2 ^ (t - s)) by (apply Z.pow_pos_nonneg; lia).
        rewrite E in *. set (P := 2 ^ s) in *. set (q := a / P) in *.
        assert (c * 2 ^ (t - s) <= q) by nia. nia.
      - assert (E : 2 ^ Z.log2 a = 2 ^ 52 * 2 ^ s).
        { rewrite <- Z.pow_add_r by lia. f_equal. lia. }
        assert (H52 : 2 ^ 52 <= a / 2 ^ s).
        { apply Z.div_le_lower_bound; [lia |]. lia. }
        assert (E' : 2 ^ s = 2 ^ (s - t) * 2 ^ t).
        { rewrite <- Z.pow_add_r by lia. f_equal. lia. }
        assert (H2 : 2 <= 2 ^ (s - t)).
        { change 2 with (2 ^ 1) at 1. apply Z.pow_le_mono_r; lia. }
        set (q := a / 2 ^ s) in *. set (D := 2 ^ (s - t)) in *.
        assert (HcD : c <= q * D).
        { change (2 ^ 53) with (2 ^ 52 * 2) in Hc.
          assert (2 ^ 52 * 2 <= q * D) by (apply Z.mul_le_mono_nonneg; lia).
          lia. }
        rewrite E', Z.mul_assoc. apply Z.mul_le_mono_nonneg_r; lia. }
    destruct ((_ <? _) || _); nia.
Qed.

(** A correctly rounded quotient never falls below a bound of at most 53
    bits that the exact quotient keeps. *)
Lemma round_ratio_ge (p q c : Z) :
  c * q <= p -> 0 < q -> 0 <= c < 2 ^ 53 ->
  c * Dbl.den (Dbl.round_ratio p q) <= Dbl.num (Dbl.round_ratio p q).
Proof.
  intros Hp Hq Hc. unfold Dbl.round_ratio.
  destruct (Z.eqb_spec p 0) as [-> | Hp0].
  { unfold Dbl.num, Dbl.den. cbn. nia. }
  assert (Hp' : 0 < p) by nia.
  pose proof (Z.log2_nonneg q) as Hl.
  set (k := 56 + Z.log2 q) in *.
  set (n := p * 2 ^ k). set (sticky := if n mod q =? 0 then 0 else 1).
  set (a := 2 * (n / q) + sticky).
  assert (Hk : 0 < 2 ^ k) by (apply Z.pow_pos_nonneg; lia).
  assert (Hst : 0 <= sticky <= 1) by (unfold sticky; destruct (_ =? _); lia).
  assert (Hn : c * 2 ^ k <= n / q).
  { apply Z.div_le_lower_bound; [lia |]. unfold n. nia. }
  assert (Ha : 0 <= a) by (unfold a; nia).
  assert (Hle : c * 2 ^ (k + 1) <= a).
  { rewrite Z.pow_add_r by lia. change (2 ^ 1) with 2. unfold a. lia. }
  pose proof (round53_ge_representable a c (k + 1) ltac:(lia) Hc Hle) as Hv.
  pose proof (round53_bounds a Ha) as (Hs & Hm & _).
  destruct (Dbl.round53 a) as [m s]. cbn [fst snd] in *.
  unfold Dbl.num, Dbl.den. cbn [Dbl.mant Dbl.expo].
  assert (H2s : 0 < 2 ^ s) by (apply Z.pow_pos_nonneg; lia).
  destruct (Z.le_gt_cases s (k + 1)) as [H | H].
  - replace (Z.max 0 (s - 1 - k)) with 0 by lia.
    replace (Z.max 0 (- (s - 1 - k))) with (k + 1 - s) by lia.
    rewrite Z.pow_0_r, Z.mul_1_r.
    assert (E2 : 2 ^ (k + 1) = 2 ^ (k + 1 - s) * 2 ^ s).
    { rewrite <- Z.pow_add_r by lia. f_equal. lia. }
    rewrite E2 in Hv. nia.
  - replace (Z.max 0 (s - 1 - k)) with (s - 1 - k) by lia.
    replace (Z.max 0 (- (s - 1 - k))) with 0 by lia.
    rewrite Z.pow_0_r, Z.mul_1_r.
    assert (E2 : 2 ^ s = 2 ^ (s - 1 - k) * 2 ^ (k + 1)).
    { rewrite <- Z.pow_add_r by lia. f_equal. lia. }
    assert (H2k : 0 < 2 ^ (k + 1)) by (apply Z.pow_pos_nonneg; lia).
    rewrite E2 in Hv. nia.
Qed.

(** Rounding to the nearest integer keeps integer bounds. *)
Lemma round_int_between (x : Dbl.t) (lo hi : Z) :
  0 <= Dbl.mant x ->
  lo * Dbl.den x <= Dbl.num x <= hi * Dbl.den x ->
  lo <= Dbl.round_int x <= hi.
Proof.
  destruct x as [m e]. unfold Dbl.num, Dbl.den, Dbl.round_int.
  cbn [Dbl.mant Dbl.expo]. intros Hm Hb.
  destruct (Z.leb_spec 0 e) as [H | H].
  - replace (Z.max 0 e) with e in Hb by lia.
    replace (Z.max 0 (- e)) with 0 in Hb by lia.
    rewrite Z.pow_0_r in Hb. lia.
  - replace (Z.max 0 e) with 0 in Hb by lia.
    replace (Z.max 0 (- e)) with (- e) in Hb by lia.
    rewrite Z.pow_0_r, Z.mul_1_r in Hb.
    assert (Hd : 0 < 2 ^ (- e)) by (apply Z.pow_pos_nonneg; lia).
    pose proof (Z.div_mod m (2 ^ (- e)) ltac:(lia)) as Hdm.
    pose proof (Z.mod_pos_bound m (2 ^ (- e)) Hd) as Hr.
    set (d := 2 ^ (- e)) in *. set (q := m / d) in *. set (r := m mod d) in *.
    assert (Hlo : lo <= q) by nia.
    assert (Hhi : q <= hi) by nia.
    destruct (Z.ltb_spec d (2 * r)) as [Hlt | Hge]; cbn [orb].
    + assert (q < hi) by nia. lia.
    + destruct (Z.eqb_spec (2 * r) d) as [Heq | Hne]; cbn [andb].
      * destruct (Z.odd q); [| lia]. assert (q < hi) by nia. lia.
      * lia.
Qed.

(** [round(p / q, 1)] lies between two integer bounds of the quotient. *)
Lemma rounded_mean_between (p q lo hi : Z) :
  0 < q -> 0 <= lo -> hi < 2 ^ 53 -> lo * q <= p <= hi * q ->
  lo * Dbl.den (Dbl.round1 (Dbl.round_ratio p q))
    <= Dbl.num (Dbl.round1 (Dbl.round_ratio p q))
    <= hi * Dbl.den (Dbl.round1 (Dbl.round_ratio p q)).
Proof.
  intros Hq Hlo Hhi Hp.
  assert (Hlh : lo <= hi) by nia.
  pose proof (round_ratio_le p q hi ltac:(nia) Hq ltac:(lia)) as [Hn0 Hle].
  pose proof (round_ratio_ge p q lo ltac:(lia) Hq ltac:(lia)) as Hge.
  assert (Hm : 0 <= Dbl.mant (Dbl.round_ratio p q)).
  { unfold Dbl.num in Hn0.
    assert (0 < 2 ^ Z.max 0 (Dbl.expo (Dbl.round_ratio p q)))
      by (apply Z.pow_pos_nonneg; lia).
    nia. }
  unfold Dbl.round1, Dbl.round_to.
  destruct (Dbl.round_ratio p q) as [m e]. cbn [Dbl.mant Dbl.expo] in *.
  assert (HN : 10 * lo <= Dbl.round_int (Dbl.mk (10 * m) e) <= 10 * hi).
  { apply round_int_between; cbn [Dbl.mant]; [lia |].
    unfold Dbl.num, Dbl.den in *. cbn [Dbl.mant Dbl.expo] in *.
    assert (0 < 2 ^ Z.max 0 (- e)) by (apply Z.pow_pos_nonneg; lia).
    nia. }
  destruct (Z.ltb_spec (Dbl.round_int (Dbl.mk (10 * m) e)) 0) as [? | _]; [lia |].
  split.
  - apply round_ratio_ge; lia.
  - apply round_ratio_le; lia.
Qed.


(** X15: for a non-empty entry list whose durations are natural numbers
    below [2^53], every average of the report,
    [round(sum(d) / len(d), 1)] computed in binary64, lies between the
    minimum and the maximum shown beside it: in every row of the partition
    summary, which is computed, and on the dashboard, which is computed when
    the list has fewer than [2^63] entries (so that its total in seconds is
    in the range of a float).  So a group whose durations are all equal
    shows that duration as its average. *)
Theorem averages_between_min_and_max (entries : list entry) :
  entries <> [] ->
  (forall e, In e entries -> 0 <= duration_ms e < 2 ^ 53) ->
  (exists rows,
     partition_summary entries = Ok rows /\
     forall r, In r rows ->
       pr_min r * Dbl.den (pr_avg r) <= Dbl.num (pr_avg r)
         <= pr_max r * Dbl.den (pr_avg r)) /\
  (forall ds,
     dashboard entries = Ok (Some ds) ->
     ds_min ds * Dbl.den (ds_avg ds) <= Dbl.num (ds_avg ds)
       <= ds_max ds * Dbl.den (ds_avg ds)) /\
  (len entries < 2 ^ 63 -> exists ds, dashboard entries = Ok (Some ds)).
Proof.
  intros Hne Hb.
  split; [| split].
  - destruct (partition_summary_ok entries Hb) as (rows & Hrows & Hall).
    exists rows. split; [exact Hrows |].
    pose proof (part_stats_grouped entries) as G.
    set (ps := part_stats entries) in *.
    set (sp := stable_sort true group_max ps) in *.
    assert (P : Permutation sp ps) by apply stable_sort_perm.
    assert (Hinv : rows_from part_row_of 0 sp = Ok rows).
    { unfold partition_summary in Hrows. fold ps in Hrows.
      unfold sorted_parts in Hrows. fold ps in Hrows.
      pose proof (sorted_parts_ok entries) as Hsp. unfold sorted_parts in Hsp.
      fold ps in Hsp. rewrite Hsp in Hrows. exact Hrows. }
    destruct (rows_from_inv sp 0 rows Hinv) as [_ Hmin].
    intros r Hr.
    destruct (Forall2_in_r _ _ _ r (Forall2_and _ _ _ _ Hall Hmin) Hr)
      as (x & Hx & (_ & _ & Hmx & _ & _ & Havg & _) & Hmn_r).
    apply (Permutation_in _ P) in Hx.
    pose proof (gr_nonempty _ _ G) as Hgne. rewrite Forall_forall in Hgne.
    specialize (Hgne x Hx).
    destruct (group_max_spec entries x Hx) as [Hmax_in Hmax_ub].
    assert (Hsne : sorted (durations (snd x)) <> []).
    { apply len_pos_nonempty. rewrite sorted_length. now apply len_nonempty. }
    destruct (py_min_spec _ Hsne) as (m & Hm & Hm_in & Hm_lb).
    rewrite Hmn_r in Hm. injection Hm as <-.
    assert (PS : Permutation (sorted (durations (snd x))) (durations (snd x)))
      by apply stable_sort_perm.
    assert (Hrange : forall d, In d (durations (snd x)) -> 0 <= d < 2 ^ 53).
    { intros d Hd. destruct (group_member entries x d Hx Hd) as (e & He & _ & <-).
      now apply Hb. }
    pose proof (Hrange _ (Permutation_in _ PS Hm_in)).
    pose proof (Hrange _ Hmax_in).
    pose proof (len_nonempty _ Hgne) as Hcnt.
    assert (Hsum : pr_min r * len (durations (snd x)) <= sum (durations (snd x))
                   <= group_max x * len (durations (snd x))).
    { apply sum_between. intros d Hd. split; [| now apply Hmax_ub].
      apply Hm_lb. now apply (Permutation_in _ (Permutation_sym PS)). }
    rewrite Havg, Hmx. unfold group_count.
    rewrite quotient_nonneg by nia.
    apply rounded_mean_between; [lia | lia | lia | exact Hsum].
  - intros ds Hds.
    destruct (dashboard_inv entries ds Hds)
      as (_ & slowest & mn & mx & _ & Hmn & _ & Hin & Hub & ->).
    cbn [ds_min ds_max ds_avg].
    set (all_d := sorted (List.map duration_ms entries)) in *.
    assert (Hd : all_d <> []).
    { intros E. rewrite E in Hin. destruct Hin. }
    destruct (py_min_spec all_d Hd) as (mn' & Hmn' & Hmin & Hlb).
    rewrite Hmn in Hmn'. injection Hmn' as <-.
    assert (Hrange : forall x, In x all_d -> 0 <= x < 2 ^ 53).
    { intros x Hx. unfold all_d, sorted in Hx.
      apply (Permutation_in _ (stable_sort_perm false (fun x => x) _)) in Hx.
      apply in_map_iff in Hx. destruct Hx as (e & <- & He). now apply Hb. }
    pose proof (Hrange mn Hmin). pose proof (Hrange mx Hin).
    pose proof (len_nonempty all_d Hd) as Hcnt.
    assert (Hsum : mn * len all_d <= sum all_d <= mx * len all_d).
    { apply sum_between. intros x Hx. split; [now apply Hlb | now apply Hub]. }
    rewrite quotient_nonneg by nia.
    apply rounded_mean_between; [lia | lia | lia | exact Hsum].
  - intros Hlt. exact (dashboard_ok entries Hne Hb Hlt).
Qed.

Lemma averages_between_min_and_max_witness :
  scenario_entries <> [] /\
  (forall e, In e scenario_entries -> 0 <= duration_ms e < 2 ^ 53) /\
  len scenario_entries < 2 ^ 63 /\
  exists ds rows,
    dashboard scenario_entries = Ok (Some ds) /\
    partition_summary scenario_entries = Ok rows /\
    ds_min ds * Dbl.den (ds_avg ds) <= Dbl.num (ds_avg ds)
      <= ds_max ds * Dbl.den (ds_avg ds) /\
    forall r, In r rows ->
      pr_min r * Dbl.den (pr_avg r) <= Dbl.num (pr_avg r)
        <= pr_max r * Dbl.den (pr_avg r).
Proof.
  assert (Hlt : len scenario_entries < 2 ^ 63) by (vm_compute; reflexivity).
  split; [exact scenario_nonempty |].
  split; [exact scenario_durations_bounded |]. split; [exact Hlt |].
  destruct (averages_between_min_and_max scenario_entries scenario_nonempty
              scenario_durations_bounded)
    as ((rows & Hrows & Hr) & Hinv & Hret).
  destruct (Hret Hlt) as (ds & Hds).
  exists ds, rows. split; [exact Hds |]. split; [exact Hrows |].
  split; [exact (Hinv ds Hds) | exact Hr].
Defined.
